(** * TADASHI-MD: the message event pipeline of [dexter.js]

    A shallow embedding of the [messages.upsert] handler, of
    [handleDeletedMessage] and of [handleDelete], with the PostgreSQL table
    [messages] as a list of rows, the process-wide [mediaCache] as a finite
    map and the calls to the outside world (transport, HTTP, database
    connectivity) answered by an explicit environment. *)

From Stdlib Require Import ZArith Ascii.
From stdpp Require Import base option list strings pretty gmap fin_maps.

Local Open Scope Z_scope.

(** ** JavaScript string built-ins

    Strings are sequences of code units; the functions below follow the
    ECMAScript definitions of the methods [dexter.js] calls. *)

Module JS.

(** [s.startsWith(p)] *)
Fixpoint startsWith (s p : string) : bool :=
  match p, s with
  | EmptyString, _ => true
  | String _ _, EmptyString => false
  | String a p', String b s' => if Ascii.eqb a b then startsWith s' p' else false
  end.

(** [s.substring(n)] *)
Fixpoint drop (n : nat) (s : string) : string :=
  match n, s with
  | O, _ => s
  | S _, EmptyString => EmptyString
  | S n', String _ s' => drop n' s'
  end.

(** The first occurrence of [p] in [s], as the text before it and the text
    after it; [None] when [s.indexOf(p) === -1]. *)
Fixpoint cut (s p : string) : option (string * string) :=
  if startsWith s p then Some (EmptyString, drop (String.length p) s)
  else match s with
       | EmptyString => None
       | String c s' =>
           match cut s' p with
           | Some (before, after) => Some (String c before, after)
           | None => None
           end
       end.

(** [s.includes(p)] *)
Definition includes (s p : string) : bool :=
  match cut s p with Some _ => true | None => false end.

(** ECMAScript [GetSubstitution] for a string pattern: there are no
    captures, so [$1]..[$99] and [$<] stay as they are written, while [$$],
    [$&], [$`] and [$'] are expanded. *)
Fixpoint GetSubstitution (matched before after template : string) : string :=
  match template with
  | EmptyString => EmptyString
  | String "$" (String "$" r) =>
      String "$" (GetSubstitution matched before after r)
  | String "$" (String "&" r) =>
      matched +:+ GetSubstitution matched before after r
  | String "$" (String "`" r) =>
      before +:+ GetSubstitution matched before after r
  | String "$" (String "'" r) =>
      after +:+ GetSubstitution matched before after r
  | String c r => String c (GetSubstitution matched before after r)
  end.

(** [s.replace(p, r)] with a string [p]: only the first occurrence is
    replaced, and [r] is a replacement template. *)
Definition replace (s p r : string) : string :=
  match cut s p with
  | None => s
  | Some (before, after) => before +:+ GetSubstitution p before after r +:+ after
  end.

(** [s.split(sep)[0]] for a one-character separator *)
Fixpoint split_head (sep : ascii) (s : string) : string :=
  match s with
  | EmptyString => EmptyString
  | String c s' => if Ascii.eqb c sep then EmptyString else String c (split_head sep s')
  end.

(** [s.split(sep)] for a one-character separator; [cur] holds the piece
    being read, backwards. *)
Fixpoint split_from (sep : ascii) (s cur : string) : list string :=
  match s with
  | EmptyString => [String.rev cur]
  | String c s' =>
      if Ascii.eqb c sep then String.rev cur :: split_from sep s' EmptyString
      else split_from sep s' (String c cur)
  end.

Definition split (sep : ascii) (s : string) : list string :=
  split_from sep s EmptyString.

(** Truthiness of a string value that may be [undefined] or [null]. *)
Definition truthy (v : option string) : bool :=
  match v with
  | Some (String _ _) => true
  | _ => false
  end.

(** [a || b] on string values *)
Definition or_else (a : option string) (b : string) : string :=
  match a with
  | Some (String c r) => String c r
  | _ => b
  end.

(** A value inside a template literal *)
Definition show (v : option string) : string :=
  match v with
  | Some s => s
  | None => "undefined"
  end.

End JS.

(** ** Data carried by the transport *)

Definition Buffer := list Byte.byte.

#[local] Set Warnings "-register-all".

(** The content of a message, by content type ([getContentType] returns the
    name of the field that is present).  [otherMessage] stands for every
    content type the handler has no case for. *)
Inductive MessageContent :=
| conversation (text : string)
| extendedTextMessage (text : string)
    (contextInfo : option (option MessageContent * option string))
| imageMessage (caption mimetype : option string)
| videoMessage (caption mimetype : option string)
| audioMessage (caption mimetype : option string)
| ephemeralMessage (inner : MessageContent)
| viewOnceMessageV2 (inner : MessageContent)
| otherMessage (type : string).

Definition getContentType (m : MessageContent) : string :=
  match m with
  | conversation _ => "conversation"
  | extendedTextMessage _ _ => "extendedTextMessage"
  | imageMessage _ _ => "imageMessage"
  | videoMessage _ _ => "videoMessage"
  | audioMessage _ _ => "audioMessage"
  | ephemeralMessage _ => "ephemeralMessage"
  | viewOnceMessageV2 _ => "viewOnceMessageV2"
  | otherMessage t => t
  end.

Record MessageKey := {
  remoteJid : string;
  id : string;
  participant : option string;
  fromMe : bool
}.

Record WebMessage := {
  key : MessageKey;
  message : option MessageContent;
  pushName : option string
}.

(** ** reply.json *)

Record ResponseItem := {
  type : string;
  content : option string;
  caption : option string;
  url : option string;
  delay : option Z
}.

Record ReplyRule := {
  trigger : option string;
  pattern : option string;
  response : list ResponseItem
}.

(** ** What the JavaScript engine provides

    [RegExp p] is [new RegExp(p, 'i')]: [None] when the constructor throws a
    SyntaxError, otherwise the [test] method of the compiled expression (the
    flags have no [g] or [y], so [test] keeps no state). *)
Class Engine := {
  toLowerCase : string -> string;
  RegExp : string -> option (string -> bool);
  JSON_stringify : MessageContent -> string;
  toLocaleString : Z -> string
}.

(** ** config.js *)

Record Config := {
  AUTO_TYPING : bool;
  AUTO_RECORDING : bool;
  AUTO_STATUS_SEEN : bool;
  AUTO_READ : bool;
  MAX_RETRIES : nat;
  ownerNumber : list string;
  restrictedNumber : string;
  statusTriggers : list string;
  startTime : Z                 (* [performance.now()] when the module was loaded *)
}.

(** [config.STATUS_TRIGGERS] unset *)
Definition default_statusTriggers : list string :=
  [ "send"; "Send"; "Seve"; "Ewpm"; "ewpn"; "Dapan"; "dapan";
    "oni"; "Oni"; "save"; "Save"; "ewanna"; "Ewanna"; "ewam";
    "Ewam"; "sv"; "Sv"; "දාන්න"; "එවම්න" ].

(** ** The table [messages] *)

Record Row := {
  row_id : Z;
  message_id : string;
  sender_jid : string;
  remote_jid : string;
  message_text : option string;
  message_type : option string;
  timestamp : Z;
  is_deleted : bool;
  deleted_at : option Z;
  deleted_by : option string;
  sri_lanka_time : option string;
  auto_reply_sent : bool;
  image_url : option string
}.

(** ** The media cache *)

Record CacheEntry := {
  c_type : string;
  c_buffer : Buffer;
  c_caption : string;
  c_mimetype : option string;
  c_imageUrl : option string;
  c_timestamp : Z
}.

(** ** What the handlers send *)

Inductive Payload :=
| PText (text : option string)
| PImage (image : Buffer) (caption : string)
| PImageUrl (url : string) (caption : string)
| PVideo (video : Buffer) (caption : string)
| PVideoFile (video : Buffer) (fileName : string) (caption : string)
| PVoice (audio : Buffer)
| PMedia (kind : string) (buffer : Buffer) (caption : string)
    (mimetype : option string)
| PAlert (text : string) (quoted_text : option string).

Inductive Event :=
| Sent (to : string) (p : Payload) (forwarded quoted : bool)
| Slept (ms : Z)
| Logged (line : string)
| MarkedRead (jid : string) (msg : string)
| Presence (kind jid : string)
| WroteFile (path : string)
| Unlinked (path : string).

(** ** JSON for the media envelope

    [JSON.stringify] on [{caption, mimetype}] (a property whose value is
    [undefined] is left out) and [JSON.parse] on the documents of that
    shape: an object whose members are strings.  Any other document is
    treated as a SyntaxError. *)

Module JSON.

Definition dquote : ascii := "034"%char.
Definition backslash : ascii := "092"%char.

Definition hex_digit (n : N) : ascii :=
  if (n <? 10)%N then ascii_of_N (48 + n) else ascii_of_N (87 + n).

Definition hex_value (c : ascii) : option N :=
  let n := N_of_ascii c in
  if ((48 <=? n) && (n <=? 57))%N then Some (n - 48)%N
  else if ((97 <=? n) && (n <=? 102))%N then Some (n - 87)%N
  else if ((65 <=? n) && (n <=? 70))%N then Some (n - 55)%N
  else None.

(** ECMAScript [QuoteJSONString], one code unit *)
Definition escape_char (c : ascii) : string :=
  let n := N_of_ascii c in
  if (n =? 8)%N then String backslash "b"
  else if (n =? 9)%N then String backslash "t"
  else if (n =? 10)%N then String backslash "n"
  else if (n =? 12)%N then String backslash "f"
  else if (n =? 13)%N then String backslash "r"
  else if (n =? 34)%N then String backslash (String dquote EmptyString)
  else if (n =? 92)%N then String backslash (String backslash EmptyString)
  else if (n <? 32)%N then
    String backslash
      (String "u" (String "0" (String "0"
         (String (hex_digit (n / 16)) (String (hex_digit (n mod 16)) EmptyString)))))
  else String c EmptyString.

Fixpoint escape (s : string) : string :=
  match s with
  | EmptyString => EmptyString
  | String c r => escape_char c +:+ escape r
  end.

Definition quote (s : string) : string :=
  String dquote (escape s +:+ String dquote EmptyString).

Definition stringify_envelope (caption : string) (mimetype : option string) : string :=
  "{" +:+ quote "caption" +:+ ":" +:+ quote caption +:+
  match mimetype with
  | Some m => "," +:+ quote "mimetype" +:+ ":" +:+ quote m
  | None => EmptyString
  end +:+ "}".

(** The characters of a string literal after its opening quote, decoded,
    and what follows the closing quote. *)
Fixpoint string_body (s : string) : option (string * string) :=
  match s with
  | EmptyString => None
  | String c r =>
      if Ascii.eqb c dquote then Some (EmptyString, r)
      else if Ascii.eqb c backslash then
        match r with
        | String e r1 =>
            let continue (d : ascii) (rest : option (string * string)) :=
              match rest with
              | Some (v, k) => Some (String d v, k)
              | None => None
              end in
            if Ascii.eqb e dquote then continue dquote (string_body r1)
            else if Ascii.eqb e backslash then continue backslash (string_body r1)
            else if Ascii.eqb e "/" then continue "/"%char (string_body r1)
            else if Ascii.eqb e "b" then continue "008"%char (string_body r1)
            else if Ascii.eqb e "f" then continue "012"%char (string_body r1)
            else if Ascii.eqb e "n" then continue "010"%char (string_body r1)
            else if Ascii.eqb e "r" then continue "013"%char (string_body r1)
            else if Ascii.eqb e "t" then continue "009"%char (string_body r1)
            else if Ascii.eqb e "u" then
              match r1 with
              | String "0" (String "0" (String h (String l r2))) =>
                  match hex_value h, hex_value l with
                  | Some a, Some b => continue (ascii_of_N (16 * a + b)) (string_body r2)
                  | _, _ => None
                  end
              | _ => None
              end
            else None
        | EmptyString => None
        end
      else if (N_of_ascii c <? 32)%N then None
      else match string_body r with
           | Some (v, k) => Some (String c v, k)
           | None => None
           end
  end.

(** Members [k:v,k:v...}] of an object, after the opening brace; [fuel]
    bounds the number of members. *)
Fixpoint members (fuel : nat) (s : string) : option (list (string * string)) :=
  match fuel with
  | O => None
  | S fuel' =>
      match s with
      | String q r =>
          if Ascii.eqb q dquote then
            match string_body r with
            | Some (k, String ":" (String q' r1)) =>
                if Ascii.eqb q' dquote then
                  match string_body r1 with
                  | Some (v, String "}" EmptyString) => Some [(k, v)]
                  | Some (v, String "," r2) =>
                      match members fuel' r2 with
                      | Some l => Some ((k, v) :: l)
                      | None => None
                      end
                  | _ => None
                  end
                else None
            | _ => None
            end
          else None
      | EmptyString => None
      end
  end.

Definition parse (s : string) : option (list (string * string)) :=
  match s with
  | String "{" (String "}" EmptyString) => Some []
  | String "{" r => members (String.length r) r
  | _ => None
  end.

(** [obj.caption] on a parsed document; a later duplicate member wins. *)
Fixpoint property (name : string) (o : list (string * string)) : option string :=
  match o with
  | [] => None
  | (k, v) :: o' =>
      match property name o' with
      | Some v' => Some v'
      | None => if String.eqb k name then Some v else None
      end
  end.

End JSON.

(** ** The state of the process and of the database *)

Record World := mkWorld {
  rows : list Row;                      (* committed rows of [messages] *)
  serial : Z;                           (* the sequence behind [id SERIAL] *)
  txn : option (list Row);              (* rows as seen inside the open transaction *)
  mediaCache : gmap string CacheEntry;
  replyRules : option (list ReplyRule); (* [replyRules.rules] *)
  trace : list Event;                   (* what the process did, oldest first *)
  tick : nat                            (* calls made to the outside so far *)
}.

Definition with_rows (f : list Row -> list Row) (w : World) : World :=
  mkWorld (f (rows w)) (serial w) (txn w) (mediaCache w) (replyRules w) (trace w) (tick w).
Definition with_serial (n : Z) (w : World) : World :=
  mkWorld (rows w) n (txn w) (mediaCache w) (replyRules w) (trace w) (tick w).
Definition with_txn (t : option (list Row)) (w : World) : World :=
  mkWorld (rows w) (serial w) t (mediaCache w) (replyRules w) (trace w) (tick w).
Definition with_mediaCache (f : gmap string CacheEntry -> gmap string CacheEntry)
    (w : World) : World :=
  mkWorld (rows w) (serial w) (txn w) (f (mediaCache w)) (replyRules w) (trace w) (tick w).
Definition with_replyRules (r : option (list ReplyRule)) (w : World) : World :=
  mkWorld (rows w) (serial w) (txn w) (mediaCache w) r (trace w) (tick w).
Definition with_event (e : Event) (w : World) : World :=
  mkWorld (rows w) (serial w) (txn w) (mediaCache w) (replyRules w) (trace w ++ [e]) (tick w).
Definition bump (w : World) : World :=
  mkWorld (rows w) (serial w) (txn w) (mediaCache w) (replyRules w) (trace w) (S (tick w)).

(** What [reloadJsonFile] finds: the download or the write fails, the file
    does not parse ([loadJsonFile] logs and keeps the old rules), or a new
    document is loaded, with or without a [rules] member. *)
Inductive Reloaded :=
| FetchFailed
| ParseFailed
| Loaded (rules : option (list ReplyRule)).

(** ** The outside world

    Every call that leaves the process is answered by the environment, by
    the number of calls made before it. *)
Record Env := {
  env_transport : nat -> option string;   (* the [conn.*] call rejects with this message *)
  env_database : nat -> option string;    (* the query rejects with this message *)
  env_sql_now : nat -> Z;                 (* [NOW()] *)
  env_deleted_before_failure : nat -> nat;(* rows a failing [DELETE] had removed *)
  env_download : nat -> string + Buffer;  (* [downloadMediaMessage] *)
  env_imgbb : nat -> option string;       (* [uploadToImgbb]: the URL, or null *)
  env_profile : nat -> string + option string; (* [conn.profilePictureUrl] *)
  env_http_get : nat -> string -> string + Buffer;
  env_read_file : nat -> string -> string + Buffer;
  env_write_file : nat -> option string;
  env_unlink : nat -> option string;
  env_connect : nat -> option string;     (* [pool.connect] *)
  env_date_now : nat -> Z;                (* [Date.now()], [new Date()] *)
  env_performance_now : nat -> Z;         (* [performance.now()], whole milliseconds *)
  env_random : nat -> Z;                  (* [Math.floor(Math.random() * 10000)] *)
  env_reload : nat -> Reloaded
}.

(** ** Computations: state, and exceptions that keep the state *)

Inductive Result (A : Type) :=
| Ok (a : A)
| Throw (message : string).
Arguments Ok {A} a.
Arguments Throw {A} message.

Definition M (A : Type) : Type := World -> Result A * World.

Definition ret {A} (a : A) : M A := fun w => (Ok a, w).

Definition bind {A B} (c : M A) (k : A -> M B) : M B :=
  fun w =>
    match c w with
    | (Ok a, w') => k a w'
    | (Throw e, w') => (Throw e, w')
    end.

Definition throw {A} (e : string) : M A := fun w => (Throw e, w).

(** [try { c } catch (err) { h err.message }] *)
Definition try_catch {A} (c : M A) (h : string -> M A) : M A :=
  fun w =>
    match c w with
    | (Ok a, w') => (Ok a, w')
    | (Throw e, w') => h e w'
    end.

(** [try { c } finally { f }] *)
Definition try_finally {A} (c : M A) (f : M unit) : M A :=
  fun w =>
    match c w with
    | (r, w') =>
        match f w' with
        | (Ok _, w2) => (r, w2)
        | (Throw e, w2) => (Throw e, w2)
        end
    end.

Declare Scope js_scope.
Delimit Scope js_scope with js.
Notation "x <- c ;; k" := (bind c (fun x => k))
  (at level 100, c at next level, right associativity) : js_scope.
Notation "c ;; k" := (bind c (fun _ => k))
  (at level 100, right associativity) : js_scope.
Local Open Scope js_scope.

Definition when (b : bool) (c : M unit) : M unit := if b then c else ret tt.

Definition update (f : World -> World) : M unit := fun w => (Ok tt, f w).
Definition read {A} (f : World -> A) : M A := fun w => (Ok (f w), w).
Definition emit (e : Event) : M unit := update (with_event e).
Definition console (line : string) : M unit := emit (Logged line).
Definition sleep (ms : Z) : M unit := emit (Slept ms).

(** ** SQL statements on the table, as functions on its rows *)

Module Sql.

(** [INSERT INTO messages (message_id, sender_jid, remote_jid, message_text,
    message_type, image_url, sri_lanka_time, auto_reply_sent) VALUES ...]:
    the other columns take their defaults.  No column but the surrogate [id]
    is unique, so no row already present can make the statement fail. *)
Definition insert (next now : Z) (mid sender remote text type : string)
    (image : option string) (sl_time : string) (auto : bool)
    (t : list Row) : list Row :=
  t ++ [ {| row_id := next; message_id := mid; sender_jid := sender;
            remote_jid := remote; message_text := Some text;
            message_type := Some type; timestamp := now;
            is_deleted := false; deleted_at := None; deleted_by := None;
            sri_lanka_time := Some sl_time; auto_reply_sent := auto;
            image_url := image |} ].

Definition set_deleted (now : Z) (deleter : string) (r : Row) : Row :=
  {| row_id := row_id r; message_id := message_id r; sender_jid := sender_jid r;
     remote_jid := remote_jid r; message_text := message_text r;
     message_type := message_type r; timestamp := timestamp r;
     is_deleted := true; deleted_at := Some now; deleted_by := Some deleter;
     sri_lanka_time := sri_lanka_time r; auto_reply_sent := auto_reply_sent r;
     image_url := image_url r |}.

Definition set_auto_reply_sent (r : Row) : Row :=
  {| row_id := row_id r; message_id := message_id r; sender_jid := sender_jid r;
     remote_jid := remote_jid r; message_text := message_text r;
     message_type := message_type r; timestamp := timestamp r;
     is_deleted := is_deleted r; deleted_at := deleted_at r;
     deleted_by := deleted_by r;
     sri_lanka_time := sri_lanka_time r; auto_reply_sent := true;
     image_url := image_url r |}.

(** [UPDATE messages SET ... WHERE message_id = $n] *)
Definition update_where (mid : string) (f : Row -> Row) (t : list Row) : list Row :=
  List.map (fun r => if String.eqb (message_id r) mid then f r else r) t.

(** [UPDATE messages SET is_deleted = TRUE, deleted_at = NOW(), deleted_by = $1
    WHERE message_id = $2] *)
Definition mark_deleted (now : Z) (deleter mid : string) (t : list Row) : list Row :=
  update_where mid (set_deleted now deleter) t.

(** [UPDATE messages SET auto_reply_sent = TRUE WHERE message_id = $1] *)
Definition mark_auto_reply (mid : string) (t : list Row) : list Row :=
  update_where mid set_auto_reply_sent t.

(** [SELECT * FROM messages WHERE message_id = $1] *)
Definition select_by_message_id (mid : string) (t : list Row) : list Row :=
  List.filter (fun r => String.eqb (message_id r) mid) t.

(** [SELECT ... FROM messages WHERE is_deleted = TRUE AND image_url IS NOT NULL] *)
Definition select_deleted_with_images (t : list Row) : list Row :=
  List.filter (fun r => is_deleted r && bool_decide (is_Some (image_url r))) t.

End Sql.

(** ** The media cache: [set] followed by the eviction pass *)

Definition TTL : Z := 60 * 60 * 1000.

(** [for (const [id, { timestamp }] of mediaCache)
      if (now - timestamp > 60 * 60 * 1000) mediaCache.delete(id)] *)
Definition evict (now : Z) (c : gmap string CacheEntry) : gmap string CacheEntry :=
  filter (fun kv : string * CacheEntry => ¬ (TTL < now - c_timestamp kv.2)) c.

Definition cache_put (mid : string) (e : CacheEntry) (now : Z)
    (c : gmap string CacheEntry) : gmap string CacheEntry :=
  evict now (<[mid := e]> c).

(** ** The content normalizer *)

(** [if (messageType === 'ephemeralMessage') ...;
     if (messageType === 'viewOnceMessageV2') ...] *)
Definition unwrap (m : MessageContent) : MessageContent :=
  let m1 := match m with ephemeralMessage inner => inner | _ => m end in
  match m1 with viewOnceMessageV2 inner => inner | _ => m1 end.


Definition is_media_type (t : option string) : bool :=
  match t with
  | Some s => String.eqb s "imageMessage" || String.eqb s "videoMessage"
              || String.eqb s "audioMessage"
  | None => false
  end.

(** ** Template placeholders of a response item *)

Definition fill (s pushName userId senderDpUrl : string) : string :=
  JS.replace (JS.replace (JS.replace s "${pushname}" pushName) "${userid}" userId)
    "${senderdpurl}" senderDpUrl.

(** [if (content) content = content.replace(...)...] *)
Definition substitute (field : option string) (pushName userId senderDpUrl : string)
    : option string :=
  match field with
  | Some (String c r) => Some (fill (String c r) pushName userId senderDpUrl)
  | other => other
  end.

(** ** Rule matching *)

Section Matching.
Context {engine : Engine}.

(** [rule.trigger && messageText.toLowerCase().includes(rule.trigger.toLowerCase())] *)
Definition trigger_test (rule : ReplyRule) (messageText : string) : bool :=
  match trigger rule with
  | Some (String c r) =>
      JS.includes (toLowerCase messageText) (toLowerCase (String c r))
  | _ => false
  end.

(** The body of the loop up to [if (isMatch)]: the value of [isMatch] and,
    when the pattern does not compile, the line logged by the [catch]. *)
Definition isMatch (rule : ReplyRule) (messageText : string) : M bool :=
  if JS.truthy (pattern rule) then
    try_catch
      (match RegExp (JS.or_else (pattern rule) EmptyString) with
       | Some test => ret (test messageText)
       | None => throw "Invalid regular expression"
       end)
      (fun err =>
         console ("Invalid regex pattern in rule " +:+ String JSON.dquote
                    (JS.show (trigger rule) +:+ String JSON.dquote (": " +:+ err))) ;;
         ret (trigger_test rule messageText))
  else ret (trigger_test rule messageText).

End Matching.

(** ** The handlers *)

Inductive DeleteResult :=
| Cleared
| DeletedMessages (found : list Row)
| DeleteError.

Definition nl : string := String "010"%char EmptyString.

Section Handlers.
Context {engine : Engine} (cfg : Config) (env : Env).

Definition ask {A} (f : Env -> nat -> A) : M A :=
  fun w => (Ok (f env (tick w)), bump w).

(** A call on the transport connection that, when it succeeds, has the
    effect [e]. *)
Definition conn_call (e : Event) : M unit :=
  failure <- ask env_transport ;;
  match failure with
  | Some msg => throw msg
  | None => emit e
  end.

Definition sendMessage (to : string) (p : Payload) (forwarded quoted : bool) : M unit :=
  conn_call (Sent to p forwarded quoted).

(** [config.MAX_RETRIES || 3] *)
Definition maxRetries : nat :=
  match MAX_RETRIES cfg with
  | O => 3%nat
  | n => n
  end.

(** [withRetry]: the loop from [attempt] on, with [more = maxRetries -
    attempt] attempts left after this one. *)
Fixpoint retry {A} (attempt more : nat) (operation : M A) : M A :=
  try_catch operation
    (fun err =>
       match more with
       | S more' =>
           if JS.includes err "socket hang up" then
             console ("Attempt " +:+ pretty attempt +:+
                      " failed with socket hang up. Retrying after 1000ms...") ;;
             sleep 1000 ;;
             retry (S attempt) more' operation
           else throw err
       | O => throw err
       end).

Definition withRetry {A} (operation : M A) : M A :=
  retry 1 (maxRetries - 1)%nat operation.

(** [pool.query]: one statement, committed on its own. *)
Definition pool_query {A} (statement : Z -> World -> A * World) : M A :=
  fun w =>
    match env_database env (tick w) with
    | Some msg => (Throw msg, bump w)
    | None =>
        let '(a, w') := statement (env_sql_now env (tick w)) (bump w) in
        (Ok a, w')
    end.

(** Statements on the client that [pool.connect] hands out. *)
Definition client_BEGIN : M unit :=
  failure <- ask env_database ;;
  match failure with
  | Some msg => throw msg
  | None => update (fun w => with_txn (Some (rows w)) w)
  end.

(** [DELETE FROM messages] inside the transaction: a failure may come after
    some of the rows are gone from the transaction's view. *)
Definition client_DELETE_FROM_messages : M unit :=
  fun w =>
    let w1 := bump w in
    match env_database env (tick w), txn w with
    | Some msg, Some seen =>
        (Throw msg,
         with_txn (Some (List.skipn (env_deleted_before_failure env (tick w)) seen)) w1)
    | Some msg, None => (Throw msg, w1)
    | None, Some _ => (Ok tt, with_txn (Some []) w1)
    | None, None => (Ok tt, with_rows (fun _ => []) w1)
    end.

Definition client_COMMIT : M unit :=
  failure <- ask env_database ;;
  match failure with
  | Some msg => throw msg
  | None =>
      update (fun w =>
                match txn w with
                | Some seen => with_txn None (with_rows (fun _ => seen) w)
                | None => w
                end)
  end.

Definition client_ROLLBACK : M unit :=
  failure <- ask env_database ;;
  match failure with
  | Some msg => throw msg
  | None => update (with_txn None)
  end.

Definition pool_connect : M unit :=
  failure <- ask env_connect ;;
  match failure with
  | Some msg => throw msg
  | None => ret tt
  end.

Definition handleDelete (clear : bool) : M DeleteResult :=
  try_catch
    (if clear then
       pool_connect ;;
       try_finally
         (try_catch
            (client_BEGIN ;;
             client_DELETE_FROM_messages ;;
             client_COMMIT ;;
             console "Database cleared successfully" ;;
             ret Cleared)
            (fun err => client_ROLLBACK ;; throw err))
         (ret tt)
     else
       found <- pool_query (fun _ w => (Sql.select_deleted_with_images (rows w), w)) ;;
       console "Retrieved deleted messages with images" ;;
       ret (DeletedMessages found))
    (fun err =>
       console ("Delete operation error: " +:+ err) ;;
       ret DeleteError).

(** [fetchMedia(source)]: the bytes, or null. *)
Definition fetchMedia (source : option string) : M (option Buffer) :=
  try_catch
    (match source with
     | None => throw "Cannot read properties of undefined (reading 'startsWith')"
     | Some src =>
         buffer <-
           (if JS.startsWith src "http://" || JS.startsWith src "https://" then
              withRetry (answer <- ask (fun e n => env_http_get e n src) ;;
                         match answer with
                         | inl msg => throw msg
                         | inr b => ret b
                         end)
            else
              answer <- ask (fun e n => env_read_file e n src) ;;
              match answer with
              | inl msg => throw msg
              | inr b => ret b
              end) ;;
         console ("Successfully fetched media from " +:+ src) ;;
         ret (Some buffer)
     end)
    (fun err => console ("Media fetch error: " +:+ err) ;; ret None).

Definition alert_header (sender deleter sriLankaTime : string) : string :=
  "🔔 *TADASHI PRIVATE ASSISTANT* 🔔" +:+ nl +:+ nl +:+
  "📩 *Original Sender:* " +:+ sender +:+ nl +:+
  "🗑️ *Deleted By:* " +:+ deleter +:+ nl +:+
  "🕒 *Deleted At (SL):* " +:+ sriLankaTime +:+ nl.

Definition alert_footer : string :=
  nl +:+ "*❮ ᴛᴀᴅᴀꜱʜɪ ᴘᴏᴡᴇʀ ʙʏ ᴀɴᴛɪ ᴅᴇʟᴇᴛ ❯*".

(** The notice sent for a deleted media message without a cache entry. *)
Definition media_notice (type : option string) (caption : option string) : string :=
  "🔔 [Media Message Deleted] Type: " +:+ JS.show type +:+ ", Caption: " +:+
  JS.or_else caption "No caption".

(** The branch of [handleDeletedMessage] for a cached media message. *)
Definition recover_from_cache (deleterJid sriLankaTime : string)
    (originalMessage : Row) (cached : CacheEntry) : M unit :=
  let messageContent :=
    if bool_decide (message_type originalMessage = Some "imageMessage")
       && JS.truthy (image_url originalMessage)
    then PImageUrl (JS.or_else (image_url originalMessage) EmptyString)
           (c_caption cached)
    else PMedia (JS.show (message_type originalMessage))
           (c_buffer cached) (c_caption cached) (c_mimetype cached) in
  withRetry (sendMessage deleterJid messageContent false false) ;;
  let alertMessage :=
    alert_header (sender_jid originalMessage) deleterJid sriLankaTime +:+
    "📝 *Caption:* " +:+ JS.or_else (Some (c_caption cached)) "No caption" +:+
    nl +:+ alert_footer in
  withRetry (sendMessage deleterJid
               (PAlert alertMessage (message_text originalMessage)) false false).

(** Its [else] branch: no cache entry, or no media message. *)
Definition recover_as_text (deleterJid sriLankaTime : string)
    (originalMessage : Row) : M unit :=
  messageText <-
    (if is_media_type (message_type originalMessage) then
       match message_text originalMessage with
       | Some stored =>
           match JSON.parse stored with
           | Some doc =>
               ret (Some (media_notice (message_type originalMessage)
                            (JSON.property "caption" doc)))
           | None => throw "Unexpected token in JSON"
           end
       | None => throw "Cannot read properties of null (reading 'caption')"
       end
     else ret (message_text originalMessage)) ;;
  withRetry (sendMessage deleterJid (PText messageText) false false) ;;
  withRetry (sendMessage deleterJid
               (PAlert (alert_header (sender_jid originalMessage) deleterJid
                          sriLankaTime +:+ alert_footer)
                  (message_text originalMessage))
               false false).

(** [UPDATE messages SET is_deleted = TRUE, ... WHERE message_id = $2] *)
Definition markDeleted (deleterJid mid : string) : M unit :=
  pool_query (fun now w => (tt, with_rows (Sql.mark_deleted now deleterJid mid) w)).

(** [SELECT * FROM messages WHERE message_id = $1] *)
Definition selectMessage (mid : string) : M (list Row) :=
  pool_query (fun _ w => (Sql.select_by_message_id mid (rows w), w)).

Definition handleDeletedMessage (key : MessageKey) : M unit :=
  try_catch
    (let deleterJid := JS.or_else (participant key) (remoteJid key) in
     markDeleted deleterJid (id key) ;;
     found <- selectMessage (id key) ;;
     match found with
     | [] => ret tt
     | originalMessage :: _ =>
         date <- ask env_date_now ;;
         let sriLankaTime := toLocaleString date in
         cachedMedia <- read (fun w => mediaCache w !! id key) ;;
         match cachedMedia, is_media_type (message_type originalMessage) with
         | Some cached, true =>
             recover_from_cache deleterJid sriLankaTime originalMessage cached
         | _, _ => recover_as_text deleterJid sriLankaTime originalMessage
         end
     end)
    (fun err => console ("Deleted message handler error: " +:+ err)).

(** [getExtension]: the first four bytes against the known magic numbers. *)
Definition getExtension (buffer : Buffer) : string :=
  match buffer with
  | Byte.xff :: Byte.xd8 :: Byte.xff :: Byte.xe0 :: _ => "jpg"
  | Byte.x89 :: Byte.x50 :: Byte.x4e :: Byte.x47 :: _ => "png"
  | Byte.x00 :: Byte.x00 :: Byte.x00 :: Byte.x18 :: _ => "mp4"
  | _ => "jpg"
  end.

Definition tempDir : string := "/tmp/cache-temp".

Definition downloadMediaMessage : M Buffer :=
  answer <- ask env_download ;;
  match answer with
  | inl msg => throw msg
  | inr buffer => ret buffer
  end.

Definition fs_writeFile (path : string) : M unit :=
  failure <- ask env_write_file ;;
  match failure with
  | Some msg => throw msg
  | None => emit (WroteFile path)
  end.

(** [fs.unlink(filePath).catch(err => console.error(...))] *)
Definition fs_unlink_logged (path : string) : M unit :=
  failure <- ask env_unlink ;;
  match failure with
  | Some msg => console ("File deletion error: " +:+ msg)
  | None => emit (Unlinked path)
  end.

(** The two [try] blocks of the status branch differ in what they send. *)
Definition save_status (mek : WebMessage) (What what : string)
    (payload : Buffer -> Payload) : M unit :=
  try_catch
    (nameJpg <- ask env_random ;;
     buff <- withRetry downloadMediaMessage ;;
     let ext := getExtension buff in
     let filePath := tempDir +:+ "/" +:+ pretty nameJpg +:+ "." +:+ ext in
     fs_writeFile filePath ;;
     withRetry (sendMessage (remoteJid (key mek)) (payload buff) false true) ;;
     fs_unlink_logged filePath)
    (fun err =>
       console (What +:+ " status save error: " +:+ err) ;;
       withRetry (sendMessage (remoteJid (key mek))
                    (PText (Some ("❌ Failed to save status " +:+ what +:+ ": " +:+ err)))
                    false true)).

(** The branch taken when the text is one of [statusTriggers]. *)
Definition status_branch (mek : WebMessage) (original : MessageContent) : M unit :=
  let reply text :=
    withRetry (sendMessage (remoteJid (key mek)) (PText (Some text)) false true) in
  match original with
  | extendedTextMessage _ None =>
      throw "Cannot read properties of undefined (reading 'quotedMessage')"
  | extendedTextMessage _ (Some (Some quotedMessage, quotedJid)) =>
      if bool_decide (quotedJid = Some "status@broadcast") then
        match quotedMessage with
        | imageMessage caption _ =>
            save_status mek "Image" "image"
              (fun buff => PImage buff (JS.or_else caption EmptyString))
        | videoMessage caption _ =>
            save_status mek "Video" "video"
              (fun buff => PVideoFile buff (id (key mek) +:+ ".mp4")
                             (JS.or_else caption EmptyString))
        | _ => reply "*Quoted status is not an image or video*"
        end
      else reply "*Quoted message is not a status*"
  | _ => reply "*Please Mention status*"
  end.

(** One item of [rule.response]. *)
Definition respond_item (mek : WebMessage) (pushName userId senderDpUrl : string)
    (response : ResponseItem) : M unit :=
  (match delay response with
   | Some d => when (negb (d =? 0)) (sleep d)
   | None => ret tt
   end) ;;
  let content := substitute (content response) pushName userId senderDpUrl in
  let caption := substitute (caption response) pushName userId senderDpUrl in
  let url := substitute (url response) pushName userId senderDpUrl in
  let to := remoteJid (key mek) in
  if String.eqb (type response) "text" then
    withRetry (sendMessage to (PText content) true true)
  else if String.eqb (type response) "image" then
    imageBuffer <- fetchMedia url ;;
    match imageBuffer with
    | Some b => withRetry (sendMessage to (PImage b (JS.or_else caption EmptyString)) true true)
    | None => ret tt
    end
  else if String.eqb (type response) "video" then
    videoBuffer <- fetchMedia url ;;
    match videoBuffer with
    | Some b => withRetry (sendMessage to (PVideo b (JS.or_else caption EmptyString)) true true)
    | None => ret tt
    end
  else if String.eqb (type response) "voice" then
    voiceBuffer <- fetchMedia url ;;
    match voiceBuffer with
    | Some b => withRetry (sendMessage to (PVoice b) true true)
    | None => ret tt
    end
  else ret tt.

(** [for (const response of rule.response) ...] *)
Fixpoint respond (mek : WebMessage) (pushName userId senderDpUrl : string)
    (items : list ResponseItem) : M unit :=
  match items with
  | [] => ret tt
  | response :: rest =>
      respond_item mek pushName userId senderDpUrl response ;;
      respond mek pushName userId senderDpUrl rest
  end.

(** [UPDATE messages SET auto_reply_sent = TRUE WHERE message_id = $1] *)
Definition markAutoReplied (mid : string) : M unit :=
  pool_query (fun _ w => (tt, with_rows (Sql.mark_auto_reply mid) w)).

(** The body of [if (isMatch)], up to its [break]. *)
Definition fire (mek : WebMessage) (pushName userId senderDpUrl : string)
    (rule : ReplyRule) : M unit :=
  markAutoReplied (id (key mek)) ;;
  respond mek pushName userId senderDpUrl (response rule).

(** [for (const rule of replyRules.rules) ...] *)
Fixpoint rule_loop (mek : WebMessage) (messageText pushName userId senderDpUrl : string)
    (rules : list ReplyRule) : M unit :=
  match rules with
  | [] => ret tt
  | rule :: rest =>
      matched <- isMatch rule messageText ;;
      if matched then fire mek pushName userId senderDpUrl rule
      else rule_loop mek messageText pushName userId senderDpUrl rest
  end.

(** [reloadJsonFile] *)
Definition reloadJsonFile : M string :=
  outcome <- ask env_reload ;;
  match outcome with
  | FetchFailed =>
      console "Error reloading reply.json" ;;
      ret "❌ Failed to reload reply.json"
  | ParseFailed =>
      console "Error loading reply.json" ;;
      console "reply.json reloaded successfully" ;;
      ret "✅ reply.json reloaded successfully"
  | Loaded rules =>
      update (with_replyRules rules) ;;
      console "reply.json loaded successfully" ;;
      console "reply.json reloaded successfully" ;;
      ret "✅ reply.json reloaded successfully"
  end.

(** [if (messageText && messageText.startsWith('.')) { switch ... }] *)
Definition command_dispatch (mek : WebMessage) (messageText senderJid : string) : M unit :=
  let reply text :=
    withRetry (sendMessage (remoteJid (key mek)) (PText (Some text)) false true) in
  let isOwner := bool_decide (JS.split_head "@" senderJid ∈ ownerNumber cfg) in
  match JS.split " " messageText with
  | [] => ret tt
  | command :: args =>
      let command := toLowerCase command in
      if String.eqb command ".ping" then
        pingTime <- ask env_performance_now ;;
        after <- ask env_performance_now ;;
        reply ("🏓 Pong! Response time: " +:+ pretty (after - pingTime) +:+ "ms")
      else if String.eqb command ".runtime" then
        now <- ask env_performance_now ;;
        let seconds := (now - startTime cfg) / 1000 in
        let minutes := seconds / 60 in
        let hours := minutes / 60 in
        reply ("⏰ Bot Runtime: " +:+ pretty hours +:+ "h " +:+
               pretty (Z.rem minutes 60) +:+ "m " +:+ pretty (Z.rem seconds 60) +:+ "s")
      else if String.eqb command ".reload" then
        if isOwner then result <- reloadJsonFile ;; reply result
        else reply "🚫 Only owners can use the .reload command."
      else if String.eqb command ".delete" then
        if isOwner then
          let clear :=
            match args with
            | a :: _ => String.eqb (toLowerCase a) "clear"
            | [] => false
            end in
          result <- handleDelete clear ;;
          match clear, result with
          | true, (Cleared | DeletedMessages _) =>
              reply "✅ Database cleared successfully"
          | false, DeletedMessages found =>
              reply (match found with
                     | [] => "🗑️ No deleted messages with images found."
                     | _ :: _ =>
                         "🗑️ Found " +:+ pretty (List.length found) +:+
                         " deleted messages with images:" +:+ nl +:+
                         String.concat (nl +:+ nl)
                           (List.map (fun m =>
                              "ID: " +:+ message_id m +:+ nl +:+
                              "Sender: " +:+ sender_jid m +:+ nl +:+
                              "Image: " +:+ JS.show (image_url m) +:+ nl +:+
                              "Deleted By: " +:+ JS.show (deleted_by m) +:+ nl +:+
                              "Deleted At: " +:+ JS.show (sri_lanka_time m)) found)
                     end)
          | _, _ => reply "❌ Failed to process delete operation"
          end
        else reply "🚫 Only owners can use the .delete command."
      else ret tt
  end.

(** The text and the hosted image URL of a media message: download, upload
    and cache inside the [try], the envelope alone in the [catch]. *)
Definition normalize_media (mek : WebMessage) (messageType : string)
    (caption mimetype : option string) : M (string * option string) :=
  let envelope := JSON.stringify_envelope (JS.or_else caption EmptyString) mimetype in
  try_catch
    (buffer <- withRetry downloadMediaMessage ;;
     imageUrl <-
       (if String.eqb messageType "imageMessage" then ask env_imgbb else ret None) ;;
     stamp <- ask env_date_now ;;
     update (with_mediaCache
               <[ id (key mek) :=
                  {| c_type := messageType; c_buffer := buffer;
                     c_caption := JS.or_else caption EmptyString;
                     c_mimetype := mimetype; c_imageUrl := imageUrl;
                     c_timestamp := stamp |} ]>) ;;
     now <- ask env_date_now ;;
     update (with_mediaCache (evict now)) ;;
     ret (envelope, imageUrl))
    (fun err =>
       console ("Media caching error: " +:+ err) ;;
       ret (envelope, None)).

(** [messageText] and [imageUrl] for the unwrapped content. *)
Definition normalize (mek : WebMessage) (messageContent : MessageContent)
    : M (string * option string) :=
  match messageContent with
  | conversation text => ret (text, None)
  | extendedTextMessage text _ => ret (text, None)
  | imageMessage c t | videoMessage c t | audioMessage c t =>
      normalize_media mek (getContentType messageContent) c t
  | _ => ret (JSON_stringify messageContent, None)
  end.

(** What follows the [INSERT] when the text is no status trigger: the rule
    loop for an eligible message, then the command table. *)
Definition rules_then_commands (mek : WebMessage)
    (messageText senderJid pushName userId senderDpUrl : string) : M unit :=
  when (JS.truthy (Some messageText) && negb (JS.startsWith messageText ".")
        && negb (fromMe (key mek))
        && negb (String.eqb senderJid (restrictedNumber cfg))
        && negb (String.eqb (remoteJid (key mek)) (restrictedNumber cfg)))
    (rules <- read replyRules ;;
     match rules with
     | Some rules => rule_loop mek messageText pushName userId senderDpUrl rules
     | None => throw "replyRules.rules is not iterable"
     end) ;;
  when (JS.truthy (Some messageText) && JS.startsWith messageText ".")
    (command_dispatch mek messageText senderJid).

(** Between the [INSERT] and the status check: the read receipt and the
    sender's profile picture. *)
Definition read_and_profile (mek : WebMessage) (senderJid : string) : M string :=
  when (AUTO_READ cfg)
    (withRetry (conn_call (MarkedRead (remoteJid (key mek)) (id (key mek)))) ;;
     console ("Marked message from " +:+ remoteJid (key mek) +:+ " as read")) ;;
  try_catch
    (answer <- ask env_profile ;;
     match answer with
     | inl msg => throw msg
     | inr found => ret (JS.or_else found "https://i.imgur.com/default-profile.jpg")
     end)
    (fun err =>
       console ("Failed to fetch profile picture for " +:+ senderJid +:+ ": " +:+ err) ;;
       ret "https://i.imgur.com/default-profile.jpg").

(** The part of the handler after the [INSERT]. *)
Definition after_insert (mek : WebMessage) (original : MessageContent)
    (messageText : string) : M unit :=
  let senderJid := JS.or_else (participant (key mek)) (remoteJid (key mek)) in
  let pushName := JS.or_else (pushName mek) "Unknown" in
  let userId := JS.split_head "@" senderJid in
  senderDpUrl <- read_and_profile mek senderJid ;;
  if JS.truthy (Some messageText) && bool_decide (messageText ∈ statusTriggers cfg)
  then status_branch mek original
  else rules_then_commands mek messageText senderJid pushName userId senderDpUrl.

(** The [INSERT INTO messages] with its own [try]: [false] stands for the
    [return] of the [catch]. *)
Definition append (mek : WebMessage) (messageText messageType : string)
    (imageUrl : option string) (sriLankaTime : string) : M bool :=
  try_catch
    (pool_query (fun now w =>
       (true,
        with_serial (serial w + 1)
          (with_rows (Sql.insert (serial w) now (id (key mek))
                        (JS.or_else (participant (key mek)) (remoteJid (key mek)))
                        (remoteJid (key mek))
                        messageText messageType imageUrl sriLankaTime false) w))))
    (fun err => console ("Database insert error: " +:+ err) ;; ret false).

(** The [try] block of the handler. *)
Definition upsert_body (mek : WebMessage) (original : MessageContent) : M unit :=
  let from := remoteJid (key mek) in
  when (AUTO_TYPING cfg) (conn_call (Presence "composing" from)) ;;
  when (AUTO_RECORDING cfg) (conn_call (Presence "recording" from)) ;;
  if String.eqb from "status@broadcast" && AUTO_STATUS_SEEN cfg then
    withRetry (conn_call (MarkedRead from (id (key mek))))
  else
    let messageContent := unwrap original in
    let messageType := getContentType messageContent in
    normalized <- normalize mek messageContent ;;
    let '(messageText, imageUrl) := normalized in
    date <- ask env_date_now ;;
    let sriLankaTime := toLocaleString date in
    inserted <- append mek messageText messageType imageUrl sriLankaTime ;;
    if inserted then after_insert mek original messageText else ret tt.

(** [conn.ev.on('messages.upsert', async ({ messages }) => ...)] *)
Definition messages_upsert (messages : list WebMessage) : M unit :=
  match messages with
  | [] => throw "Cannot read properties of undefined (reading 'message')"
  | mek :: _ =>
      match message mek with
      | None => ret tt
      | Some original =>
          try_catch (upsert_body mek original)
            (fun err => console ("Message processing error: " +:+ err))
      end
  end.

(** [conn.ev.on('messages.update', ...)]: an update whose [message] is null
    reports a removal. *)
Fixpoint messages_update (updates : list (MessageKey * bool)) : M unit :=
  match updates with
  | [] => ret tt
  | (key, removed) :: rest =>
      when removed (handleDeletedMessage key) ;;
      messages_update rest
  end.

End Handlers.

(** ** An engine to run the definitions with

    Lower case on the ASCII letters; a pattern made of letters, digits and
    spaces is compiled to the case-insensitive search for it, and this
    engine knows no other pattern. *)

Module Run.

Definition lower (c : ascii) : ascii :=
  let n := N_of_ascii c in
  if ((65 <=? n) && (n <=? 90))%N then ascii_of_N (n + 32) else c.

Fixpoint lower_string (s : string) : string :=
  match s with
  | EmptyString => EmptyString
  | String c r => String (lower c) (lower_string r)
  end.

Definition plain (c : ascii) : bool :=
  let n := N_of_ascii c in
  ((n =? 32) || ((48 <=? n) && (n <=? 57)) || ((65 <=? n) && (n <=? 90))
   || ((97 <=? n) && (n <=? 122)))%N.

Fixpoint all_plain (s : string) : bool :=
  match s with
  | EmptyString => true
  | String c r => plain c && all_plain r
  end.

#[export] Instance engine : Engine := {|
  toLowerCase := lower_string;
  RegExp p :=
    if all_plain p then Some (fun t => JS.includes (lower_string t) (lower_string p))
    else None;
  JSON_stringify m := "{" +:+ JSON.quote (getContentType m) +:+ ":{}}";
  toLocaleString t := pretty t
|}.

Definition cfg : Config := {|
  AUTO_TYPING := false; AUTO_RECORDING := false; AUTO_STATUS_SEEN := false;
  AUTO_READ := false; MAX_RETRIES := 3;
  ownerNumber := ["94789958225"];
  restrictedNumber := "94789958225@s.whatsapp.net";
  statusTriggers := default_statusTriggers;
  startTime := 0
|}.

(** An environment in which every call succeeds, the clock reads [clock n]
    at the [n]-th call and a download returns four bytes of a JPEG. *)
Definition calm (clock : nat -> Z) : Env := {|
  env_transport _ := None;
  env_database _ := None;
  env_sql_now := clock;
  env_deleted_before_failure _ := O;
  env_download _ := inr [Byte.xff; Byte.xd8; Byte.xff; Byte.xe0];
  env_imgbb _ := None;
  env_profile _ := inr None;
  env_http_get _ _ := inr [];
  env_read_file _ _ := inr [];
  env_write_file _ := None;
  env_unlink _ := None;
  env_connect _ := None;
  env_date_now := clock;
  env_performance_now := clock;
  env_random _ := 42;
  env_reload _ := ParseFailed
|}.


(** The same environment with a database that fails at the calls in
    [down], a failing [DELETE] having removed [gone] rows. *)
Definition flaky_database (down : list nat) (gone : nat) : Env := {|
  env_transport _ := None;
  env_database n := if bool_decide (n ∈ down) then Some "connection lost" else None;
  env_sql_now _ := 0;
  env_deleted_before_failure _ := gone;
  env_download _ := inr [];
  env_imgbb _ := None;
  env_profile _ := inr None;
  env_http_get _ _ := inr [];
  env_read_file _ _ := inr [];
  env_write_file _ := None;
  env_unlink _ := None;
  env_connect _ := None;
  env_date_now _ := 0;
  env_performance_now _ := 0;
  env_random _ := 42;
  env_reload _ := ParseFailed
|}.

Definition start (rules : list ReplyRule) : World :=
  mkWorld [] 1 None ∅ (Some rules) [] O.

Definition text_message (mid from body : string) : WebMessage :=
  {| key := {| remoteJid := from; id := mid; participant := None; fromMe := false |};
     message := Some (conversation body);
     pushName := Some "Alice" |}.

Definition image_message (mid from cap : string) : WebMessage :=
  {| key := {| remoteJid := from; id := mid; participant := None; fromMe := false |};
     message := Some (imageMessage (Some cap) (Some "image/jpeg"));
     pushName := Some "Alice" |}.

Definition clock : nat -> Z := fun n => Z.of_nat n.
Definition alice : string := "9477000111@s.whatsapp.net".

Definition menu_rule : ReplyRule :=
  {| trigger := Some "menu"; pattern := None;
     response :=
       [ {| type := "text"; content := Some "Hi ${pushname}"; caption := None;
            url := None; delay := None |};
         {| type := "text"; content := Some "1. Pizza"; caption := None;
            url := None; delay := Some 500 |} ] |}.

Definition show_rule : ReplyRule :=
  {| trigger := Some "show"; pattern := None;
     response :=
       [ {| type := "text"; content := Some "What shall I show?"; caption := None;
            url := None; delay := None |} ] |}.

Definition bye_rule : ReplyRule :=
  {| trigger := Some "bye"; pattern := None; response := [] |}.

End Run.

(** ** The specification's words, for comparison with the code *)

Definition is_wrapper (m : MessageContent) : bool :=
  match m with
  | ephemeralMessage _ | viewOnceMessageV2 _ => true
  | _ => false
  end.

(** "substituting the inner message ... repeating until a non-wrapper kind
    is reached" *)
Fixpoint innermost (m : MessageContent) : MessageContent :=
  match m with
  | ephemeralMessage inner | viewOnceMessageV2 inner => innermost inner
  | _ => m
  end.

(** The value of [isMatch] for a rule, without the logging. *)
Definition rule_matches {engine : Engine} (rule : ReplyRule) (messageText : string) : bool :=
  match pattern rule with
  | Some (String c r) =>
      match RegExp (String c r) with
      | Some test => test messageText
      | None => trigger_test rule messageText
      end
  | _ => trigger_test rule messageText
  end.

(** The rows that carry a given [message_id]. *)
Definition copies (mid : string) (t : list Row) : nat :=
  List.length (Sql.select_by_message_id mid t).

(** The sequence behind [id SERIAL] is ahead of every stored row.  Rows
    are stored by the [INSERT] of the handler alone, which takes the [id]
    from the sequence and advances it, and no statement of the file sets an
    [id] or moves the sequence back. *)
Definition serial_ahead (w : World) : Prop :=
  Forall (fun r => row_id r < serial w) (rows w).

(** The line that [isMatch] logs for a rule whose pattern does not compile. *)
Definition regex_warning {engine : Engine} (rule : ReplyRule) : list string :=
  match pattern rule with
  | Some (String c r) =>
      match RegExp (String c r) with
      | Some _ => []
      | None =>
          [ "Invalid regex pattern in rule " +:+ String JSON.dquote
              (JS.show (trigger rule) +:+
               String JSON.dquote (": " +:+ "Invalid regular expression")) ]
      end
  | _ => []
  end.

(** "isDeleted implies deletedAt and deletedBy both present" *)
Definition deletion_recorded (r : Row) : Prop :=
  is_deleted r = true -> is_Some (deleted_at r) ∧ is_Some (deleted_by r).

Definition is_Sent (e : Event) : bool :=
  match e with
  | Sent _ _ _ _ => true
  | _ => false
  end.

(** What was sent, in order. *)
Definition sent (t : list Event) : list Event := List.filter is_Sent t.

(** A computation that leaves an observation of the world as it was. *)
Definition keeps {A B : Type} (f : World -> B) (c : M A) : Prop :=
  forall w, f (snd (c w)) = f w.

(** An observation of the world that neither a call to the outside nor an
    entry in the trace changes. *)
Class Inert {B : Type} (f : World -> B) : Prop := {
  inert_bump : forall w, f (bump w) = f w;
  inert_event : forall e w, f (with_event e w) = f w
}.

(** An observation that no statement on the table and no reload of the
    rules changes either. *)
Class StoreBlind {B : Type} (f : World -> B) : Prop := {
  blind_rows : forall g w, f (with_rows g w) = f w;
  blind_serial : forall n w, f (with_serial n w) = f w;
  blind_txn : forall t w, f (with_txn t w) = f w;
  blind_replyRules : forall r w, f (with_replyRules r w) = f w
}.

#[export] Instance rows_inert : Inert rows :=
  @Build_Inert _ rows (fun _ => eq_refl) (fun _ _ => eq_refl).

#[export] Instance mediaCache_inert : Inert mediaCache :=
  @Build_Inert _ mediaCache (fun _ => eq_refl) (fun _ _ => eq_refl).

#[export] Instance mediaCache_blind : StoreBlind mediaCache :=
  @Build_StoreBlind _ mediaCache (fun _ _ => eq_refl) (fun _ _ => eq_refl)
    (fun _ _ => eq_refl) (fun _ _ => eq_refl).

(** The rows of the table, the auto-reply flag of each set aside. *)
Definition unflagged (w : World) : list Row :=
  List.map Sql.set_auto_reply_sent (rows w).

#[export] Instance unflagged_inert : Inert unflagged :=
  @Build_Inert _ unflagged (fun _ => eq_refl) (fun _ _ => eq_refl).

(** The world after some lines were logged. *)
Definition logged (lines : list string) (w : World) : World :=
  List.fold_left (fun w line => with_event (Logged line) w) lines w.

(** No dollar sign in a string. *)
Fixpoint dollar_free (s : string) : bool :=
  match s with
  | EmptyString => true
  | String c r => negb (Ascii.eqb c "$") && dollar_free r
  end.


(** ** The rest of [dexter.js] *)

#[export] Instance replyRules_inert : Inert replyRules :=
  @Build_Inert _ replyRules (fun _ => eq_refl) (fun _ _ => eq_refl).

(** [Number.MAX_SAFE_INTEGER]: up to it, in absolute value, a double holds
    every whole number. *)
Definition MAX_SAFE_INTEGER : Z := 2 ^ 53 - 1.

Definition is_safe_integer (n : Z) : bool :=
  (- MAX_SAFE_INTEGER <=? n) && (n <=? MAX_SAFE_INTEGER).

(** [runtime(seconds)] for a whole number of seconds in the safe range: the
    four numbers of the text, then the text.  The source computes in
    doubles.  In this range [%] is exact, and each quotient by 86400, 3600
    or 60 of a whole number that is no multiple of the divisor is further
    from the whole numbers than the rounding of the division can move it,
    so [Math.floor] of the rounded quotient is the floor of the exact one.
    Beyond the range the division rounds across a whole number, and
    nothing is said: the result is [None]. *)
Definition runtime_fields (seconds : Z) : option (Z * Z * Z * Z) :=
  if is_safe_integer seconds then
    Some (seconds / (3600 * 24),
          Z.rem seconds (3600 * 24) / 3600,
          Z.rem seconds 3600 / 60,
          Z.rem seconds 60)
  else None.

Definition runtime (seconds : Z) : option string :=
  match runtime_fields seconds with
  | Some (days, hours, minutes, secs) =>
      Some (pretty days +:+ "d " +:+ pretty hours +:+ "h " +:+ pretty minutes +:+ "m " +:+
            pretty secs +:+ "s")
  | None => None
  end.

(** *** [conn.ev.on('group-participants.update', ...)] *)

Record GroupUpdate := {
  g_id : string;
  g_participants : list string;
  g_action : string
}.

(** [participants.map(p => `@${p.split('@')[0]}`).join(', ')] *)
Definition mentions (participants : list string) : string :=
  String.concat ", " (List.map (fun p => "@" +:+ JS.split_head "@" p) participants).

(** The [switch (action)]: the text for the four known actions, the empty
    string for any other. *)
Definition group_message (action : string) (participants : list string)
    (groupName : string) : string :=
  let group := nl +:+ nl +:+ "🏷️ Group: " +:+ groupName in
  if String.eqb action "add" then
    "📌 User joined: " +:+ mentions participants +:+ group
  else if String.eqb action "remove" then
    "🚪 User left: " +:+ mentions participants +:+ group
  else if String.eqb action "promote" then
    "⭐ Admin promoted: " +:+ mentions participants +:+ group
  else if String.eqb action "demote" then
    "🔻 Admin demoted: " +:+ mentions participants +:+ group
  else EmptyString.

Section GroupEvents.
Context {engine : Engine} (cfg : Config) (env : Env).

(** What [conn.groupMetadata(id)] answers at a given call: the subject of
    the group, or the message it rejects with. *)
Variable groupMetadata : nat -> string -> string + string.

Definition conn_groupMetadata (gid : string) : M string :=
  fun w =>
    match groupMetadata (tick w) gid with
    | inl msg => (Throw msg, bump w)
    | inr subject => (Ok subject, bump w)
    end.

(** [for (const owner of ownerNumber) { await withRetry(...); console.log(...) }] *)
Fixpoint notify_owners (owners : list string) (message : string) : M unit :=
  match owners with
  | [] => ret tt
  | owner :: rest =>
      withRetry cfg (sendMessage env (owner +:+ "@s.whatsapp.net")
                       (PText (Some message)) false false) ;;
      console ("Sent group update to " +:+ owner +:+ ": " +:+ message) ;;
      notify_owners rest message
  end.

Definition group_participants_update (update : GroupUpdate) : M unit :=
  try_catch
    (groupName <- withRetry cfg (conn_groupMetadata (g_id update)) ;;
     let message := group_message (g_action update) (g_participants update) groupName in
     when (JS.truthy (Some message)) (notify_owners (ownerNumber cfg) message))
    (fun err => console ("Group event error: " +:+ err)).

End GroupEvents.

(** *** [app.get('/send-message', ...)] *)

Inductive SendMessageResponse :=
| MissingParameter                  (* 400 *)
| InvalidPhoneNumber                (* 400 *)
| NotConnected                      (* 503 *)
| ImageNotLoaded                    (* 500 *)
| SendFailed (details : string)     (* 500 *)
| ImageSent (phoneNumber : string). (* 200 *)

Definition status_code (r : SendMessageResponse) : Z :=
  match r with
  | MissingParameter | InvalidPhoneNumber => 400
  | NotConnected => 503
  | ImageNotLoaded | SendFailed _ => 500
  | ImageSent _ => 200
  end.

Definition is_digit (c : ascii) : bool :=
  let n := N_of_ascii c in ((48 <=? n) && (n <=? 57))%N.

(** [number.replace(/[^0-9]/g, '')] *)
Fixpoint digits_only (s : string) : string :=
  match s with
  | EmptyString => EmptyString
  | String c r => if is_digit c then String c (digits_only r) else digits_only r
  end.

Fixpoint all_digits (s : string) : bool :=
  match s with
  | EmptyString => true
  | String c r => is_digit c && all_digits r
  end.

(** [phoneNumber.match(/^\d{10,12}$/)] *)
Definition phone_format (s : string) : bool :=
  all_digits s && (10 <=? String.length s)%nat && (String.length s <=? 12)%nat.

(** A value of [req.query] as the query parser of Express hands it over: a
    string, an array (a key given more than once, or with brackets), or an
    object (a key with a bracketed name). *)
Inductive QueryValue :=
| QString (text : string)
| QArray (items : list QueryValue)
| QObject.

(** [!value] is false for every value but the empty string (and the absent
    one). *)
Definition query_truthy (v : option QueryValue) : bool :=
  match v with
  | Some (QString text) => JS.truthy (Some text)
  | Some _ => true
  | None => false
  end.

(** [String(value)]: the items of an array joined by commas. *)
Fixpoint query_text (v : QueryValue) : string :=
  match v with
  | QString text => text
  | QArray items => String.concat "," (List.map query_text items)
  | QObject => "[object Object]"
  end.

Definition query_show (v : option QueryValue) : string :=
  match v with
  | Some value => query_text value
  | None => "undefined"
  end.

Section SendMessageEndpoint.
Context {engine : Engine} (cfg : Config) (env : Env).

(** [whatsappConn && whatsappConn.user], and [decodeURIComponent], which
    throws a URIError on a malformed escape. *)
Variable connected : bool.
Variable decodeURIComponent : string -> option string.

(** The handler.  [number.replace] is called before the [try]: on a
    [number] that is no string it throws, and the promise of the handler
    rejects without a response. *)
Definition send_message (number message : option QueryValue) : M SendMessageResponse :=
  if negb (query_truthy number) || negb (query_truthy message) then ret MissingParameter
  else
    match number with
    | Some (QString text) =>
        let phoneNumber := digits_only text in
        if negb (phone_format phoneNumber) then ret InvalidPhoneNumber
        else if negb connected then ret NotConnected
        else
          let jid := phoneNumber +:+ "@s.whatsapp.net" in
          try_catch
            (imageBuffer <- fetchMedia cfg env (Some "public/TADASHI.jpg") ;;
             match imageBuffer with
             | None => ret ImageNotLoaded
             | Some image =>
                 withRetry cfg
                   (match decodeURIComponent (query_show message) with
                    | Some caption => sendMessage env jid (PImage image caption) true false
                    | None => throw "URI malformed"
                    end) ;;
                 console ("Image message sent to " +:+ jid +:+ " with caption: " +:+
                          query_show message) ;;
                 ret (ImageSent phoneNumber)
             end)
            (fun err =>
               console ("Image send error: " +:+ err) ;;
               ret (SendFailed err))
    | _ => throw "number.replace is not a function"
    end.

End SendMessageEndpoint.

(** ** Predicates used in the statements about that code *)

(** A computation that sends nothing. *)
Definition quiet {A : Type} (c : M A) : Prop :=
  keeps (fun w => sent (trace w)) c.

(** An operation that sends [e] exactly when it succeeds. *)
Definition sends_on_success {A : Type} (e : Event) (op : M A) : Prop :=
  forall w,
    match op w with
    | (Ok _, w') => sent (trace w') = sent (trace w) ++ [e]
    | (Throw _, w') => sent (trace w') = sent (trace w)
    end.

(** The text messages [message] to the owners, in order. *)
Definition owner_notices (owners : list string) (message : string) : list Event :=
  List.map (fun owner => Sent (owner +:+ "@s.whatsapp.net") (PText (Some message))
                           false false) owners.

(** What a list of text responses puts in the trace. *)
Definition text_events (to pushName userId senderDpUrl : string)
    (items : list ResponseItem) : list Event :=
  List.flat_map
    (fun item =>
       match delay item with
       | Some d => if d =? 0 then [] else [Slept d]
       | None => []
       end ++
       [Sent to (PText (substitute (content item) pushName userId senderDpUrl))
          true true]) items.

(** What [withRetry] logs and waits for [k] failed attempts, the first of
    them numbered [attempt]. *)
Fixpoint backoff (attempt k : nat) : list Event :=
  match k with
  | O => []
  | S k' =>
      Logged ("Attempt " +:+ pretty attempt +:+
              " failed with socket hang up. Retrying after 1000ms...")
      :: Slept 1000 :: backoff (S attempt) k'
  end.

(** ** Scenarios to run that code with *)

Module Scenario.

(** An environment whose transport answers as [transport] says and whose
    sources give [get] over HTTP and [read] from disk; everything else
    succeeds and the clock reads [Run.clock]. *)
Definition outside (transport : nat -> option string)
    (get read : string -> string + Buffer) : Env := {|
  env_transport := transport;
  env_database _ := None;
  env_sql_now := Run.clock;
  env_deleted_before_failure _ := O;
  env_download _ := inr [Byte.xff; Byte.xd8; Byte.xff; Byte.xe0];
  env_imgbb _ := None;
  env_profile _ := inr None;
  env_http_get _ := get;
  env_read_file _ := read;
  env_write_file _ := None;
  env_unlink _ := None;
  env_connect _ := None;
  env_date_now := Run.clock;
  env_performance_now := Run.clock;
  env_random _ := 42;
  env_reload _ := ParseFailed
|}.

(** A transport that hangs up at the first [k] calls and answers afterwards. *)
Definition hanging (k : nat) : Env :=
  outside (fun n => if (n <? k)%nat then Some "socket hang up" else None)
    (fun _ => inr []) (fun _ => inr []).

(** A transport whose connection is closed. *)
Definition closed : Env :=
  outside (fun _ => Some "Connection Closed") (fun _ => inr []) (fun _ => inr []).

(** No source can be fetched. *)
Definition no_media : Env :=
  outside (fun _ => None) (fun _ => inl "ECONNREFUSED") (fun _ => inl "ENOENT").

(** Every statement on the database fails. *)
Definition database_down : Env := {|
  env_transport _ := None;
  env_database _ := Some "connection refused";
  env_sql_now := Run.clock;
  env_deleted_before_failure _ := O;
  env_download _ := inr [Byte.xff; Byte.xd8; Byte.xff; Byte.xe0];
  env_imgbb _ := None;
  env_profile _ := inr None;
  env_http_get _ _ := inr [];
  env_read_file _ _ := inr [];
  env_write_file _ := None;
  env_unlink _ := None;
  env_connect _ := None;
  env_date_now := Run.clock;
  env_performance_now := Run.clock;
  env_random _ := 42;
  env_reload _ := ParseFailed
|}.

(** Group metadata that are always there, and a member who joins. *)
Definition family : nat -> string -> string + string := fun _ _ => inr "Family".

Definition joined : GroupUpdate :=
  {| g_id := "120363025@g.us"; g_participants := [Run.alice]; g_action := "add" |}.

Definition ping : Event := Sent Run.alice (PText (Some "pong")) false false.

Definition picture_item : ResponseItem :=
  {| type := "image"; content := None; caption := Some "Today's menu";
     url := Some "https://example.org/menu.jpg"; delay := None |}.

(** The configuration of [Run.cfg] with [AUTO_STATUS_SEEN] set. *)
Definition watching : Config := {|
  AUTO_TYPING := false; AUTO_RECORDING := false; AUTO_STATUS_SEEN := true;
  AUTO_READ := false; MAX_RETRIES := 3;
  ownerNumber := ["94789958225"];
  restrictedNumber := "94789958225@s.whatsapp.net";
  statusTriggers := default_statusTriggers;
  startTime := 0
|}.

(** The bot before any rule list was loaded. *)
Definition unloaded : World := mkWorld [] 1 None ∅ None [] O.

(** The row and the cache entry of a picture that was stored and cached. *)
Definition picture_row : Row :=
  {| row_id := 1; message_id := "M1"; sender_jid := Run.alice;
     remote_jid := Run.alice;
     message_text := Some (JSON.stringify_envelope "hi" (Some "image/jpeg"));
     message_type := Some "imageMessage"; timestamp := 2;
     is_deleted := false; deleted_at := None; deleted_by := None;
     sri_lanka_time := Some "1"; auto_reply_sent := false;
     image_url := None |}.

Definition picture_entry : CacheEntry :=
  {| c_type := "imageMessage"; c_buffer := [Byte.xff; Byte.xd8; Byte.xff; Byte.xe0];
     c_caption := "hi"; c_mimetype := Some "image/jpeg"; c_imageUrl := None;
     c_timestamp := 2 |}.

Definition with_picture : World :=
  mkWorld [picture_row] 2 None {[ "M1" := picture_entry ]} (Some []) [] O.

End Scenario.

(** * Properties *)

#[local] Arguments String.append !_ _ / : simpl nomatch.

(** ** Strings *)

Lemma startsWith_app (p rest : string) : JS.startsWith (p +:+ rest) p = true.
Proof.
  induction p as [|a p IH]; simpl; [destruct rest; reflexivity|].
  rewrite Ascii.eqb_refl. exact IH.
Qed.

Lemma startsWith_inv (s p : string) :
  JS.startsWith s p = true -> s = p +:+ JS.drop (String.length p) s.
Proof.
  revert s. induction p as [|a p IH]; intros s Hs; [destruct s; reflexivity|].
  destruct s as [|b s]; simpl in Hs |- *; [discriminate|].
  destruct (Ascii.eqb a b) eqn:Hab; [|discriminate].
  apply Ascii.eqb_eq in Hab. subst b. simpl. f_equal. apply IH, Hs.
Qed.

Lemma cut_unfold (s p : string) :
  JS.cut s p =
  if JS.startsWith s p then Some (EmptyString, JS.drop (String.length p) s)
  else match s with
       | EmptyString => None
       | String c s' =>
           match JS.cut s' p with
           | Some (before, after) => Some (String c before, after)
           | None => None
           end
       end.
Proof. destruct s; reflexivity. Qed.

Lemma cut_sound (s p before after : string) :
  JS.cut s p = Some (before, after) -> s = before +:+ p +:+ after.
Proof.
  revert before after. induction s as [|c s IH]; intros before after;
    rewrite cut_unfold; destruct (JS.startsWith _ p) eqn:Hp.
  - intros [= <- <-]. apply (startsWith_inv _ _ Hp).
  - discriminate.
  - intros [= <- <-]. apply (startsWith_inv _ _ Hp).
  - destruct (JS.cut s p) as [[b a]|] eqn:Hcut; [|discriminate].
    intros [= <- <-]. simpl. f_equal. apply IH. reflexivity.
Qed.

Lemma cut_complete (s p before after : string) :
  s = before +:+ p +:+ after -> JS.cut s p <> None.
Proof.
  revert s. induction before as [|c before IH]; intros s ->; rewrite cut_unfold.
  - simpl. rewrite startsWith_app. discriminate.
  - destruct (JS.startsWith _ p); [discriminate|]. simpl.
    specialize (IH _ eq_refl). destruct (JS.cut _ p) as [[? ?]|]; [discriminate|].
    contradiction.
Qed.

(** [includes] is the substring test. *)
Lemma includes_spec (s p : string) :
  JS.includes s p = true <-> exists before after, s = before +:+ p +:+ after.
Proof.
  unfold JS.includes. split.
  - destruct (JS.cut s p) as [[b a]|] eqn:Hcut; [|discriminate].
    intros _. exists b, a. apply cut_sound, Hcut.
  - intros (b & a & Hs). pose proof (cut_complete _ _ _ _ Hs) as Hc.
    destruct (JS.cut s p); [reflexivity | contradiction].
Qed.

(** A string without the pattern is returned as it is. *)
Lemma replace_absent (s p r : string) :
  JS.includes s p = false -> JS.replace s p r = s.
Proof.
  unfold JS.includes, JS.replace. destruct (JS.cut s p) as [[? ?]|]; [discriminate|].
  reflexivity.
Qed.

(** A replacement without a dollar sign is inserted as it is. *)
Lemma GetSubstitution_dollar_free (m b a r : string) :
  dollar_free r = true -> JS.GetSubstitution m b a r = r.
Proof.
  induction r as [|c r IH]; simpl; [reflexivity|].
  intros Hr. apply andb_prop in Hr as [Hc Hr].
  destruct (Ascii.eqb c "$") eqn:E; [discriminate|].
  assert (Hrest : String c (JS.GetSubstitution m b a r) = String c r)
    by (f_equal; apply IH, Hr).
  destruct c as [[] [] [] [] [] [] [] []]; try exact Hrest; discriminate.
Qed.

Lemma replace_dollar_free (s p r before after : string) :
  JS.cut s p = Some (before, after) -> dollar_free r = true ->
  JS.replace s p r = before +:+ r +:+ after.
Proof.
  intros Hcut Hr. unfold JS.replace. rewrite Hcut.
  rewrite GetSubstitution_dollar_free by exact Hr. reflexivity.
Qed.

(** A template without any of the three placeholders is left as it is. *)
Lemma fill_without_placeholder (s pushName userId senderDpUrl : string) :
  JS.includes s "${pushname}" = false ->
  JS.includes s "${userid}" = false ->
  JS.includes s "${senderdpurl}" = false ->
  fill s pushName userId senderDpUrl = s.
Proof.
  intros H1 H2 H3. unfold fill.
  rewrite (replace_absent s _ _ H1), (replace_absent s _ _ H2).
  apply replace_absent, H3.
Qed.

Example fill_three_placeholders :
  fill "Hi ${pushname}, id ${userid}, picture ${senderdpurl}!"
    "Alice" "9477" "https://pic/1.jpg"
  = "Hi Alice, id 9477, picture https://pic/1.jpg!".
Proof. reflexivity. Qed.

Example fill_lone_dollar :
  fill "Pay ${pushname}" "5$ each" "9477" "u" = "Pay 5$ each".
Proof. reflexivity. Qed.

(** ** The content normalizer *)

Lemma innermost_not_wrapper (m : MessageContent) : is_wrapper (innermost m) = false.
Proof. induction m; simpl; auto. Qed.

Lemma innermost_fixed (m : MessageContent) : is_wrapper m = false -> innermost m = m.
Proof. destruct m; simpl; intros; congruence. Qed.

Lemma unwrap_fixed (m : MessageContent) : is_wrapper m = false -> unwrap m = m.
Proof. destruct m; simpl; intros; try discriminate; reflexivity. Qed.

(** C4, as the claim states it, fails: a view-once wrapper around an
    ephemeral one is opened once, and the content type that is stored is
    still a wrapper's. *)
Lemma unwrap_view_once_around_ephemeral :
  let m := viewOnceMessageV2 (ephemeralMessage (conversation "hi")) in
  unwrap m = ephemeralMessage (conversation "hi")
  /\ getContentType (unwrap m) = "ephemeralMessage"
  /\ innermost m = conversation "hi"
  /\ unwrap m <> innermost m.
Proof. simpl. repeat split; discriminate. Qed.

(** C4 (amended): [unwrap] opens at most one ephemeral wrapper and then at
    most one view-once wrapper, so it reaches the innermost non-wrapper
    content exactly for the four nestings: none, ephemeral, view-once, and
    ephemeral around view-once. *)
Theorem unwrap_reaches_innermost_iff (m : MessageContent) :
  unwrap m = innermost m <->
  exists x, is_wrapper x = false /\
    (m = x \/ m = ephemeralMessage x \/ m = viewOnceMessageV2 x
     \/ m = ephemeralMessage (viewOnceMessageV2 x)).
Proof.
  split.
  - intros Hm. exists (innermost m). split; [apply innermost_not_wrapper|].
    pose proof (innermost_not_wrapper m) as Hw. rewrite <- Hm in Hw.
    destruct m as [| | | | |i|i|]; try (left; simpl; reflexivity).
    + destruct i as [| | | | |j|j|]; unfold unwrap in *; simpl in *;
        try (right; left; reflexivity); try discriminate.
      right; right; right. congruence.
    + destruct i as [| | | | |j|j|]; unfold unwrap in *; simpl in *;
        try (right; right; left; reflexivity); discriminate.
  - intros (x & Hx & [-> | [-> | [-> | ->]]]); unfold unwrap; simpl.
    + rewrite innermost_fixed by exact Hx. destruct x; simpl in *; congruence.
    + rewrite innermost_fixed by exact Hx. destruct x; simpl in *; congruence.
    + rewrite innermost_fixed by exact Hx. reflexivity.
    + rewrite innermost_fixed by exact Hx. reflexivity.
Qed.

Lemma unwrap_reaches_innermost_example :
  unwrap (ephemeralMessage (viewOnceMessageV2 (imageMessage (Some "hi") None)))
  = innermost (ephemeralMessage (viewOnceMessageV2 (imageMessage (Some "hi") None))).
Proof.
  apply (unwrap_reaches_innermost_iff
           (ephemeralMessage (viewOnceMessageV2 (imageMessage (Some "hi") None)))).
  exists (imageMessage (Some "hi") None). split; [reflexivity|].
  right; right; right. reflexivity.
Defined.

(** ** Rule matching *)

Section MatchingFacts.
Context {engine : Engine}.

(** C6: a pattern that is present decides the match alone when it compiles,
    whether or not the trigger occurs in the text; when it does not compile
    the rule is matched by the case-insensitive search for its trigger, the
    failure is logged and nothing is thrown. *)
Theorem pattern_is_authoritative (rule : ReplyRule) (p text : string) (w : World) :
  pattern rule = Some p -> p <> EmptyString ->
  match RegExp p with
  | Some test => isMatch rule text w = (Ok (test text), w)
  | None =>
      (exists line,
          isMatch rule text w = (Ok (trigger_test rule text), with_event (Logged line) w))
      /\ (forall t, trigger rule = Some t -> t <> EmptyString ->
           trigger_test rule text = JS.includes (toLowerCase text) (toLowerCase t))
      /\ (trigger rule = None \/ trigger rule = Some EmptyString ->
           trigger_test rule text = false)
  end.
Proof.
  intros Hp Hne. unfold isMatch, try_catch, JS.truthy, JS.or_else. rewrite Hp.
  destruct p as [|c r]; [contradiction|].
  destruct (RegExp (String c r)) as [test|]; [reflexivity|].
  split; [|split].
  - eexists. reflexivity.
  - intros t Ht Hnet. unfold trigger_test. rewrite Ht.
    destruct t; [contradiction | reflexivity].
  - intros [Ht | Ht]; unfold trigger_test; rewrite Ht; reflexivity.
Qed.

End MatchingFacts.


(** ** JSON: what [stringify_envelope] writes, [parse] reads back *)

Lemma app_assoc_string (a b c : string) : (a +:+ b) +:+ c = a +:+ b +:+ c.
Proof. induction a as [|x a IH]; simpl; [reflexivity | f_equal; exact IH]. Qed.

Lemma string_body_escape_char (c : ascii) (s rest : string) (v : string) :
  JSON.string_body (s) = Some (v, rest) ->
  JSON.string_body (JSON.escape_char c +:+ s) = Some (String c v, rest).
Proof.
  intros Hs.
  destruct c as [[] [] [] [] [] [] [] []]; simpl; rewrite Hs; reflexivity.
Qed.

Lemma string_body_escape (s rest : string) :
  JSON.string_body (JSON.escape s +:+ String JSON.dquote rest) = Some (s, rest).
Proof.
  induction s as [|c s IH]; [reflexivity|].
  simpl JSON.escape. rewrite app_assoc_string.
  apply string_body_escape_char, IH.
Qed.

Lemma parse_envelope (caption : string) (mimetype : option string) :
  JSON.parse (JSON.stringify_envelope caption mimetype)
  = Some (("caption", caption) ::
          match mimetype with
          | Some m => [("mimetype", m)]
          | None => []
          end).
Proof.
  unfold JSON.stringify_envelope, JSON.quote.
  destruct mimetype as [m|]; simpl;
    repeat (rewrite !app_assoc_string; simpl);
    rewrite string_body_escape; simpl.
  - rewrite string_body_escape. reflexivity.
  - reflexivity.
Qed.

(** The caption read back from a stored envelope is the caption written. *)
Lemma caption_of_envelope (caption : string) (mimetype : option string) :
  (doc ← JSON.parse (JSON.stringify_envelope caption mimetype);
   JSON.property "caption" doc) = Some caption.
Proof.
  rewrite parse_envelope. destruct mimetype; reflexivity.
Qed.

(** ** What a computation leaves untouched *)


Section Frames.
Context {engine : Engine} (cfg : Config) (env : Env).
Context {B : Type} (f : World -> B) {inert : Inert f}.

Lemma keeps_ret {A} (a : A) : keeps f (ret a).
Proof. intros w. reflexivity. Qed.

Lemma keeps_throw {A} (e : string) : keeps f (@throw A e).
Proof. intros w. reflexivity. Qed.

Lemma keeps_bind {A C} (c : M A) (k : A -> M C) :
  keeps f c -> (forall a, keeps f (k a)) -> keeps f (bind c k).
Proof.
  intros Hc Hk w. unfold bind. specialize (Hc w).
  destruct (c w) as [[a|e] w1]; simpl in *; [|exact Hc].
  rewrite Hk. exact Hc.
Qed.

Lemma keeps_try_catch {A} (c : M A) (h : string -> M A) :
  keeps f c -> (forall e, keeps f (h e)) -> keeps f (try_catch c h).
Proof.
  intros Hc Hh w. unfold try_catch. specialize (Hc w).
  destruct (c w) as [[a|e] w1]; simpl in *; [exact Hc|].
  rewrite Hh. exact Hc.
Qed.

Lemma keeps_when (b : bool) (c : M unit) : keeps f c -> keeps f (when b c).
Proof. destruct b; [auto | intros _; apply keeps_ret]. Qed.

Lemma keeps_ask {A} (g : Env -> nat -> A) : keeps f (ask env g).
Proof. intros w. apply inert_bump. Qed.

Lemma keeps_emit (e : Event) : keeps f (emit e).
Proof. intros w. apply inert_event. Qed.

Lemma keeps_read {A} (g : World -> A) : keeps f (read g).
Proof. intros w. reflexivity. Qed.

Lemma keeps_conn_call (e : Event) : keeps f (conn_call env e).
Proof.
  apply keeps_bind; [apply keeps_ask|].
  intros [msg|]; [apply keeps_throw | apply keeps_emit].
Qed.

Lemma keeps_retry {A} (attempt more : nat) (operation : M A) :
  keeps f operation -> keeps f (retry attempt more operation).
Proof.
  intros Hop. revert attempt.
  induction more as [|more IH]; intros attempt; simpl; apply keeps_try_catch; auto.
  - intros e. apply keeps_throw.
  - intros e. destruct (JS.includes e _); [|apply keeps_throw].
    repeat (apply keeps_bind; [apply keeps_emit|intros _]). apply IH.
Qed.

Lemma keeps_withRetry {A} (operation : M A) :
  keeps f operation -> keeps f (withRetry cfg operation).
Proof. apply keeps_retry. Qed.

Lemma keeps_downloadMediaMessage : keeps f (downloadMediaMessage env).
Proof.
  apply keeps_bind; [apply keeps_ask|].
  intros [msg|b]; [apply keeps_throw | apply keeps_ret].
Qed.

Lemma keeps_fetchMedia (source : option string) : keeps f (fetchMedia cfg env source).
Proof.
  apply keeps_try_catch.
  - destruct source as [src|]; [|apply keeps_throw].
    apply keeps_bind.
    + destruct (_ || _).
      * apply keeps_withRetry, keeps_bind; [apply keeps_ask|].
        intros [?|?]; [apply keeps_throw | apply keeps_ret].
      * apply keeps_bind; [apply keeps_ask|].
        intros [?|?]; [apply keeps_throw | apply keeps_ret].
    + intros b. apply keeps_bind; [apply keeps_emit | intros _; apply keeps_ret].
  - intros e. apply keeps_bind; [apply keeps_emit | intros _; apply keeps_ret].
Qed.

Lemma keeps_sendMessage (to : string) (p : Payload) (fw q : bool) :
  keeps f (withRetry cfg (sendMessage env to p fw q)).
Proof. apply keeps_withRetry, keeps_conn_call. Qed.

Lemma keeps_respond_item (mek : WebMessage) (pn uid dp : string) (item : ResponseItem) :
  keeps f (respond_item cfg env mek pn uid dp item).
Proof.
  unfold respond_item. apply keeps_bind.
  - destruct (delay item); [apply keeps_when, keeps_emit | apply keeps_ret].
  - intros _.
    repeat match goal with
           | |- keeps _ (if ?b then _ else _) => destruct b
           end;
      try apply keeps_sendMessage; try apply keeps_ret;
      (apply keeps_bind; [apply keeps_fetchMedia|]);
      intros [b|]; try apply keeps_sendMessage; apply keeps_ret.
Qed.

Lemma keeps_respond (mek : WebMessage) (pn uid dp : string) (items : list ResponseItem) :
  keeps f (respond cfg env mek pn uid dp items).
Proof.
  induction items as [|item items IH]; simpl; [apply keeps_ret|].
  apply keeps_bind; [apply keeps_respond_item | intros _; exact IH].
Qed.

End Frames.

(** Unfolding the monad and the record updates of the world. *)
Ltac run_m :=
  cbv beta iota zeta delta
    [bind ret throw try_catch try_finally when update read emit console sleep ask
     bump with_event with_rows with_serial with_txn with_mediaCache with_replyRules];
  cbn [rows serial txn mediaCache replyRules trace tick fst snd].

(** ** Traces *)

Lemma sent_app (t u : list Event) : sent (t ++ u) = sent t ++ sent u.
Proof.
  induction t as [|e t IH]; simpl; [reflexivity|].
  unfold sent in *. simpl. destruct (is_Sent e); simpl; rewrite IH; reflexivity.
Qed.

Lemma sent_logged (t : list Event) (line : string) : sent (t ++ [Logged line]) = sent t.
Proof. rewrite sent_app. apply List.app_nil_r. Qed.

(** ** What the handlers leave untouched when they write to the store *)

Section StoreFrames.
Context {engine : Engine} (cfg : Config) (env : Env).
Context {B : Type} (f : World -> B) {inert : Inert f} {blind : StoreBlind f}.

Lemma keeps_update (g : World -> World) :
  (forall w, f (g w) = f w) -> keeps f (update g).
Proof. intros Hg w. apply Hg. Qed.

Lemma keeps_pool_query {A} (statement : Z -> World -> A * World) :
  (forall now w, f (snd (statement now w)) = f w) ->
  keeps f (pool_query env statement).
Proof.
  intros Hs w. unfold pool_query.
  destruct (env_database env (tick w)); simpl; [apply inert_bump|].
  specialize (Hs (env_sql_now env (tick w)) (bump w)).
  destruct (statement _ _) as [a w']. simpl in *. rewrite Hs. apply inert_bump.
Qed.





Lemma keeps_reloadJsonFile : keeps f (reloadJsonFile env).
Proof.
  apply keeps_bind; [apply keeps_ask; exact _|].
  intros [| |rules];
    repeat (apply keeps_bind; [first [(apply keeps_emit; exact _)
                                     | apply keeps_update; intros w; apply blind_replyRules]
                              | intros _]);
    apply keeps_ret.
Qed.

Lemma keeps_client (c : M unit) (g : World -> World) :
  (forall w, f (g w) = f w) ->
  c = (failure <- ask env env_database ;;
       match failure with
       | Some msg => throw msg
       | None => update g
       end) ->
  keeps f c.
Proof.
  intros Hg ->. apply keeps_bind; [apply keeps_ask; exact _|].
  intros [msg|]; [apply keeps_throw | apply keeps_update, Hg].
Qed.

Lemma keeps_handleDelete (clear : bool) : keeps f (handleDelete env clear).
Proof.
  unfold handleDelete. apply keeps_try_catch.
  2:{ intros e. apply keeps_bind; [apply keeps_emit; exact _ | intros _; apply keeps_ret]. }
  destruct clear.
  - apply keeps_bind.
    { apply keeps_bind; [apply keeps_ask; exact _|].
      intros [msg|]; [apply keeps_throw | apply keeps_ret]. }
    intros _ w. unfold try_finally.
    match goal with |- context [try_catch ?c ?h] => set (body := try_catch c h) end.
    assert (Hbody : keeps f body).
    { apply keeps_try_catch.
      - apply keeps_bind.
        { eapply keeps_client; [|reflexivity]. intros w0. apply blind_txn. }
        intros _. apply keeps_bind.
        { intros w0. unfold client_DELETE_FROM_messages.
          destruct (env_database env (tick w0)), (txn w0); simpl;
            rewrite ?blind_txn, ?blind_rows; apply inert_bump. }
        intros _. apply keeps_bind.
        { eapply keeps_client; [|reflexivity]. intros w0.
          simpl. destruct (txn w0); [|reflexivity]. rewrite blind_txn. apply blind_rows. }
        intros _. apply keeps_bind; [apply keeps_emit; exact _ | intros _; apply keeps_ret].
      - intros e. apply keeps_bind; [|intros _; apply keeps_throw].
        eapply keeps_client; [|reflexivity]. intros w0. apply blind_txn. }
    specialize (Hbody w). destruct (body w) as [r w']. simpl in *. exact Hbody.
  - apply keeps_bind.
    { apply keeps_pool_query. reflexivity. }
    intros found. apply keeps_bind; [apply keeps_emit; exact _ | intros _; apply keeps_ret].
Qed.

End StoreFrames.

(** ** The message store *)

Lemma select_app (mid : string) (t u : list Row) :
  Sql.select_by_message_id mid (t ++ u)
  = Sql.select_by_message_id mid t ++ Sql.select_by_message_id mid u.
Proof. apply List.filter_app. Qed.

Lemma copies_insert (next now : Z) (mid sender remote text type : string)
    (image : option string) (sl : string) (auto : bool) (t : list Row) :
  copies mid (Sql.insert next now mid sender remote text type image sl auto t)
  = S (copies mid t).
Proof.
  unfold copies, Sql.insert. rewrite select_app, List.length_app. simpl.
  rewrite String.eqb_refl. simpl. lia.
Qed.

Lemma select_update_where (mid : string) (g : Row -> Row) (t : list Row) :
  (forall r, message_id (g r) = message_id r) ->
  Sql.select_by_message_id mid (Sql.update_where mid g t)
  = List.map g (Sql.select_by_message_id mid t).
Proof.
  intros Hg. induction t as [|r t IH]; simpl; [reflexivity|].
  destruct (String.eqb (message_id r) mid) eqn:E; simpl.
  - rewrite Hg, E. simpl. f_equal. exact IH.
  - rewrite E. exact IH.
Qed.




Lemma mark_auto_reply_recorded (mid : string) (t : list Row) :
  Forall deletion_recorded t -> Forall deletion_recorded (Sql.mark_auto_reply mid t).
Proof.
  intros Ht. unfold Sql.mark_auto_reply, Sql.update_where.
  apply Forall_forall. intros r Hr. apply list_elem_of_In, List.in_map_iff in Hr.
  destruct Hr as (r0 & <- & Hr0).
  rewrite Forall_forall in Ht. specialize (Ht r0 (proj2 (list_elem_of_In _ _) Hr0)).
  destruct (String.eqb (message_id r0) mid); exact Ht.
Qed.


Section Store.
Context {engine : Engine} (cfg : Config) (env : Env).

(** Whatever the table holds and whatever the database answers, the insert
    of the handler does not throw. *)
Lemma append_never_throws (mek : WebMessage) (text type : string)
    (image : option string) (sl : string) (w : World) :
  exists b w', append env mek text type image sl w = (Ok b, w').
Proof.
  unfold append, try_catch, pool_query.
  destruct (env_database env (tick w)); simpl; eauto.
Qed.

Lemma append_succeeds (mek : WebMessage) (text type : string)
    (image : option string) (sl : string) (w : World) :
  env_database env (tick w) = None ->
  exists w',
    append env mek text type image sl w = (Ok true, w')
    /\ rows w' = Sql.insert (serial w) (env_sql_now env (tick w)) (id (key mek))
                   (JS.or_else (participant (key mek)) (remoteJid (key mek)))
                   (remoteJid (key mek)) text type image sl false (rows w)
    /\ tick w' = S (tick w).
Proof.
  intros Hdb. unfold append, try_catch, pool_query. rewrite Hdb. simpl.
  eexists. split; [reflexivity|]. simpl. split; reflexivity.
Qed.

(** C1 (amended): [append] never throws, and a row already stored under
    the same [message_id] changes nothing in what it does.  When the
    database answers, it adds one row at the end of the table, with the
    [id] that the sequence gives and the sequence advanced by one: the
    number of rows grows by one, and so does the number of rows with that
    [message_id].  While the sequence is ahead of the stored rows the new
    [id] is one that no stored row has, and the sequence stays ahead.  When
    the database fails, the error is caught and logged, and the table and
    the sequence are as they were. *)
Theorem append_adds_a_row (mek : WebMessage) (text type : string)
    (image : option string) (sl : string) (w : World) :
  exists inserted w',
    append env mek text type image sl w = (Ok inserted, w')
    /\ match env_database env (tick w) with
       | None =>
           inserted = true
           /\ rows w' = Sql.insert (serial w) (env_sql_now env (tick w)) (id (key mek))
                          (JS.or_else (participant (key mek)) (remoteJid (key mek)))
                          (remoteJid (key mek)) text type image sl false (rows w)
           /\ (exists row,
                 rows w' = rows w ++ [row]
                 /\ row_id row = serial w
                 /\ message_id row = id (key mek)
                 /\ message_text row = Some text
                 /\ message_type row = Some type
                 /\ image_url row = image)
           /\ serial w' = serial w + 1
           /\ List.length (rows w') = S (List.length (rows w))
           /\ copies (id (key mek)) (rows w') = S (copies (id (key mek)) (rows w))
           /\ (serial_ahead w ->
               (forall r, r ∈ rows w -> row_id r <> serial w) /\ serial_ahead w')
           /\ trace w' = trace w
       | Some msg =>
           inserted = false
           /\ rows w' = rows w
           /\ serial w' = serial w
           /\ trace w' = trace w ++ [Logged ("Database insert error: " +:+ msg)]
       end.
Proof.
  destruct (env_database env (tick w)) as [msg|] eqn:Hdb.
  - exists false. eexists. unfold append, try_catch, pool_query. rewrite Hdb.
    split; [reflexivity|]. repeat split.
  - destruct (append_succeeds mek text type image sl w Hdb) as (w' & Happ & Hrows & _).
    assert (Hserial : serial w' = serial w + 1 /\ trace w' = trace w).
    { unfold append, try_catch, pool_query in Happ. rewrite Hdb in Happ.
      injection Happ as <-. split; reflexivity. }
    destruct Hserial as [Hserial Htrace].
    exists true, w'. split; [exact Happ|]. split; [reflexivity|]. split; [exact Hrows|].
    split; [eexists; split; [exact Hrows|]; repeat split|].
    split; [exact Hserial|]. rewrite Hrows. split; [|split; [|split]].
    + unfold Sql.insert. rewrite List.length_app. simpl. lia.
    + apply copies_insert.
    + intros Hahead. unfold serial_ahead in *. split.
      * intros r Hr Heq. rewrite Forall_forall in Hahead. specialize (Hahead r Hr). lia.
      * rewrite Hserial, Hrows. unfold Sql.insert. apply Forall_app. split.
        -- eapply Forall_impl; [exact Hahead|]. intros r Hr. simpl in Hr. lia.
        -- constructor; [simpl; lia | constructor].
    + exact Htrace.
Qed.


(** C8: [handleDelete(true)] is all or nothing, and which of the two is
    decided by the statements.  When the connection, [BEGIN], [DELETE] and
    [COMMIT] all succeed it reports success, the table is empty and no
    transaction is left open.  When the connection fails, nothing but the
    log line happens.  When [BEGIN], [DELETE] or [COMMIT] is the first
    statement to fail, it reports failure and the committed rows are the
    rows it started with, all of them, however many the failing [DELETE]
    had removed inside the transaction; the [ROLLBACK] that follows, when
    it succeeds, drops the view of the transaction, and the error logged
    is that of the failed statement (that of the [ROLLBACK] when it fails
    as well). *)
Theorem clear_is_atomic (w : World) :
  let t := tick w in
  let run := handleDelete env true w in
  (env_connect env t = None ->
   env_database env (t + 1)%nat = None ->
   env_database env (t + 2)%nat = None ->
   env_database env (t + 3)%nat = None ->
   fst run = Ok Cleared
   /\ rows (snd run) = []
   /\ txn (snd run) = None
   /\ trace (snd run) = trace w ++ [Logged "Database cleared successfully"])
  /\ (forall msg,
        env_connect env t = Some msg ->
        run = (Ok DeleteError,
               with_event (Logged ("Delete operation error: " +:+ msg)) (bump w)))
  /\ (forall k msg,
        (1 <= k <= 3)%nat ->
        env_connect env t = None ->
        (forall j, (1 <= j < k)%nat -> env_database env (t + j)%nat = None) ->
        env_database env (t + k)%nat = Some msg ->
        fst run = Ok DeleteError
        /\ rows (snd run) = rows w
        /\ List.length (rows (snd run)) = List.length (rows w)
        /\ match env_database env (t + k + 1)%nat with
           | None =>
               txn (snd run) = None
               /\ trace (snd run)
                  = trace w ++ [Logged ("Delete operation error: " +:+ msg)]
           | Some msg' =>
               trace (snd run)
               = trace w ++ [Logged ("Delete operation error: " +:+ msg')]
           end).
Proof.
  cbv zeta.
  replace (tick w + 1)%nat with (S (tick w)) by lia.
  replace (tick w + 2)%nat with (S (S (tick w))) by lia.
  replace (tick w + 3)%nat with (S (S (S (tick w)))) by lia.
  split; [|split].
  - intros Hc H1 H2 H3.
    run_m; cbv [handleDelete pool_connect client_BEGIN client_DELETE_FROM_messages
                  client_COMMIT client_ROLLBACK]; run_m.
    rewrite Hc; run_m. rewrite H1; run_m. rewrite H2; run_m. rewrite H3; run_m.
    auto.
  - intros msg Hc.
    run_m; cbv [handleDelete pool_connect client_BEGIN client_DELETE_FROM_messages
                  client_COMMIT client_ROLLBACK]; run_m.
    rewrite Hc; run_m. reflexivity.
  - intros k msg Hk Hc Hbefore Hfail.
    assert (Hcases : k = 1%nat \/ k = 2%nat \/ k = 3%nat) by lia.
    run_m; cbv [handleDelete pool_connect client_BEGIN client_DELETE_FROM_messages
                  client_COMMIT client_ROLLBACK]; run_m.
    rewrite Hc; run_m.
    destruct Hcases as [-> | [-> | ->]].
    + replace (tick w + 1)%nat with (S (tick w)) in * by lia.
      rewrite Hfail; run_m.
      replace (S (tick w) + 1)%nat with (S (S (tick w))) by lia.
      destruct (env_database env (S (S (tick w)))); run_m; auto.
    + pose proof (Hbefore 1%nat ltac:(lia)) as H1.
      replace (tick w + 1)%nat with (S (tick w)) in * by lia.
      replace (tick w + 2)%nat with (S (S (tick w))) in * by lia.
      rewrite H1; run_m. rewrite Hfail; run_m.
      replace (S (S (tick w)) + 1)%nat with (S (S (S (tick w)))) by lia.
      destruct (env_database env (S (S (S (tick w))))); run_m; auto.
    + pose proof (Hbefore 1%nat ltac:(lia)) as H1.
      pose proof (Hbefore 2%nat ltac:(lia)) as H2.
      replace (tick w + 1)%nat with (S (tick w)) in * by lia.
      replace (tick w + 2)%nat with (S (S (tick w))) in * by lia.
      replace (tick w + 3)%nat with (S (S (S (tick w)))) in * by lia.
      rewrite H1; run_m. rewrite H2; run_m. rewrite Hfail; run_m.
      replace (S (S (S (tick w))) + 1)%nat with (S (S (S (S (tick w))))) by lia.
      destruct (env_database env (S (S (S (S (tick w)))))); run_m; auto.
Qed.

End Store.

(** ** The media cache *)

Lemma evict_lookup (now : Z) (c : gmap string CacheEntry) (k : string) (e : CacheEntry) :
  evict now c !! k = Some e <-> c !! k = Some e /\ now - c_timestamp e <= TTL.
Proof.
  unfold evict. rewrite map_lookup_filter_Some. simpl. split.
  - intros [Hk Hage]. split; [exact Hk | lia].
  - intros [Hk Hage]. split; [exact Hk | lia].
Qed.


Section CacheInHandler.
Context {engine : Engine} (cfg : Config) (env : Env).

(** After a download that succeeded, the cache is the old one with the new
    entry put and the sweep run. *)
Lemma normalize_media_caches (mek : WebMessage) (type : string)
    (caption mimetype : option string) (buffer : Buffer) (w w1 : World) :
  withRetry cfg (downloadMediaMessage env) w = (Ok buffer, w1) ->
  exists url stamp now w',
    normalize_media cfg env mek type caption mimetype w
    = (Ok (JSON.stringify_envelope (JS.or_else caption EmptyString) mimetype, url), w')
    /\ mediaCache w'
       = cache_put (id (key mek))
           {| c_type := type; c_buffer := buffer;
              c_caption := JS.or_else caption EmptyString;
              c_mimetype := mimetype; c_imageUrl := url; c_timestamp := stamp |}
           now (mediaCache w)
    /\ rows w' = rows w.
Proof.
  intros Hdl.
  assert (Hc : mediaCache w1 = mediaCache w).
  { pose proof (keeps_withRetry cfg mediaCache (downloadMediaMessage env)
                  (keeps_downloadMediaMessage env mediaCache) w) as K.
    rewrite Hdl in K. exact K. }
  assert (Hr : rows w1 = rows w).
  { pose proof (keeps_withRetry cfg rows (downloadMediaMessage env)
                  (keeps_downloadMediaMessage env rows) w) as K.
    rewrite Hdl in K. exact K. }
  unfold normalize_media, try_catch, bind at 1. rewrite Hdl.
  destruct (String.eqb type "imageMessage"); run_m;
    eexists _, _, _, _; (split; [reflexivity|]); cbn [mediaCache rows];
    rewrite Hc, Hr; split; reflexivity.
Qed.

End CacheInHandler.

(** ** Rule dispatch *)

Lemma logged_app (l1 l2 : list string) (w : World) :
  logged (l1 ++ l2) w = logged l2 (logged l1 w).
Proof. unfold logged. apply List.fold_left_app. Qed.

Lemma logged_inert {B} (f : World -> B) `{!Inert f} (lines : list string) (w : World) :
  f (logged lines w) = f w.
Proof.
  revert w. induction lines as [|l lines IH]; intros w; simpl; [reflexivity|].
  rewrite IH. apply inert_event.
Qed.

Lemma tick_logged (lines : list string) (w : World) : tick (logged lines w) = tick w.
Proof.
  revert w. induction lines as [|l lines IH]; intros w; simpl; [reflexivity|].
  etransitivity; [apply IH | reflexivity].
Qed.

Lemma sent_trace_logged (lines : list string) (w : World) :
  sent (trace (logged lines w)) = sent (trace w).
Proof.
  revert w. induction lines as [|l lines IH]; intros w; simpl; [reflexivity|].
  rewrite IH. apply sent_logged.
Qed.

Lemma mark_auto_reply_sets (mid : string) (t : list Row) (r : Row) :
  r ∈ Sql.select_by_message_id mid (Sql.mark_auto_reply mid t) -> auto_reply_sent r = true.
Proof.
  unfold Sql.mark_auto_reply. rewrite select_update_where by reflexivity.
  intros Hr. apply list_elem_of_In, List.in_map_iff in Hr.
  destruct Hr as (r0 & <- & _). reflexivity.
Qed.

Section Dispatch.
Context {engine : Engine} (cfg : Config) (env : Env).

Lemma isMatch_logged (rule : ReplyRule) (text : string) (w : World) :
  exists lines, isMatch rule text w = (Ok (rule_matches rule text), logged lines w).
Proof.
  unfold isMatch, rule_matches, JS.truthy, JS.or_else, try_catch.
  destruct (pattern rule) as [[|c r]|]; try (exists []; reflexivity).
  destruct (RegExp (String c r)); [exists []; reflexivity|].
  eexists [_]. reflexivity.
Qed.

(** Rules that do not match are passed over; they leave at most log lines. *)
Lemma rule_loop_skips (mek : WebMessage) (text pn uid dp : string)
    (pre rest : list ReplyRule) (w : World) :
  Forall (fun r => rule_matches r text = false) pre ->
  exists lines,
    rule_loop cfg env mek text pn uid dp (pre ++ rest) w
    = rule_loop cfg env mek text pn uid dp rest (logged lines w).
Proof.
  intros Hpre. revert w. induction Hpre as [|r pre Hr _ IH]; intros w.
  - exists []. reflexivity.
  - destruct (isMatch_logged r text w) as (l1 & H1).
    destruct (IH (logged l1 w)) as (l2 & H2).
    exists (l1 ++ l2). simpl. unfold bind at 1. rewrite H1, Hr, H2, logged_app.
    reflexivity.
Qed.

(** A list with a matching rule splits at the first one. *)
Lemma first_match_split (text : string) (rules : list ReplyRule) :
  Exists (fun r => rule_matches r text = true) rules ->
  exists pre rule post,
    rules = pre ++ rule :: post
    /\ Forall (fun r => rule_matches r text = false) pre
    /\ rule_matches rule text = true.
Proof.
  induction rules as [|r rules IH]; intros Hex; [inversion Hex|].
  destruct (rule_matches r text) eqn:Hr.
  - exists [], r, rules. auto.
  - assert (Hrest : Exists (fun r => rule_matches r text = true) rules).
    { inversion Hex as [? ? Hhere|? ? Hthere]; subst; [congruence | exact Hthere]. }
    destruct (IH Hrest) as (pre & rule & post & -> & Hpre & Hrule).
    exists (r :: pre), rule, post. auto.
Qed.

End Dispatch.

(** ** The status branch *)

Section StatusBranch.
Context {engine : Engine} (cfg : Config) (env : Env).

(** C10: after the insert, the status branch runs exactly when the whole
    text is one of the configured trigger words; any other text, also one
    that contains a trigger word, goes on to the rule loop and the
    command table. *)
Theorem status_branch_needs_exact_trigger (mek : WebMessage)
    (original : MessageContent) (text : string) (w : World) :
  let senderJid := JS.or_else (participant (key mek)) (remoteJid (key mek)) in
  (text ∈ statusTriggers cfg -> text <> EmptyString ->
   after_insert cfg env mek original text w
   = (read_and_profile cfg env mek senderJid ;; status_branch cfg env mek original) w)
  /\ (text ∉ statusTriggers cfg ->
      after_insert cfg env mek original text w
      = (senderDpUrl <- read_and_profile cfg env mek senderJid ;;
         rules_then_commands cfg env mek text senderJid
           (JS.or_else (pushName mek) "Unknown") (JS.split_head "@" senderJid)
           senderDpUrl) w).
Proof.
  cbv zeta. unfold after_insert. split.
  - intros Hin Hne. rewrite (bool_decide_eq_true_2 _ Hin).
    destruct text; [contradiction | reflexivity].
  - intros Hnot. rewrite (bool_decide_eq_false_2 _ Hnot), andb_false_r. reflexivity.
Qed.

End StatusBranch.

(** ** A media message whose download fails *)

Section FailedDownload.
Context {engine : Engine} (cfg : Config) (env : Env).
Context {B : Type} (f : World -> B) {inert : Inert f} {blind : StoreBlind f}.

Ltac frame :=
  repeat first
    [ apply keeps_ret
    | apply keeps_throw
    | (apply keeps_reloadJsonFile; exact _)
    | (apply keeps_handleDelete; exact _)
    | (apply keeps_emit; exact _)
    | (apply keeps_ask; exact _)
    | (apply keeps_read)
    | (apply keeps_sendMessage; exact _)
    | (apply keeps_conn_call; exact _)
    | (apply keeps_downloadMediaMessage; exact _)
    | (apply keeps_withRetry; [exact _|])
    | (apply keeps_when)
    | (apply keeps_bind; [|intros ?])
    | (apply keeps_try_catch; [|intros ?])
    | match goal with
      | |- keeps _ (match ?x with _ => _ end) => destruct x
      end ].


Lemma keeps_save_status (mek : WebMessage) (What what : string)
    (payload : Buffer -> Payload) :
  keeps f (save_status cfg env mek What what payload).
Proof.
  unfold save_status, fs_writeFile, fs_unlink_logged. frame.
Qed.


Lemma keeps_read_and_profile (mek : WebMessage) (sender : string) :
  keeps f (read_and_profile cfg env mek sender).
Proof.
  unfold read_and_profile. frame.
Qed.







End FailedDownload.

Section Recovery.
Context {engine : Engine} (cfg : Config) (env : Env).



End Recovery.

(** ** The properties on concrete runs *)

#[local] Existing Instance Run.engine.


(** C1, as the claim states it, fails: the same message appended twice is
    stored twice, so the table after two calls is not the table after
    one. *)
Lemma append_twice_two_rows :
  let env := Run.calm Run.clock in
  let mek := Run.text_message "M1" Run.alice "hello" in
  let insert := append env mek "hello" "conversation" None "11/2/2026, 9:00:00 AM" in
  let once := snd (insert (Run.start [])) in
  let twice := snd ((insert ;; insert) (Run.start [])) in
  copies "M1" (rows once) = 1%nat
  /\ copies "M1" (rows twice) = 2%nat
  /\ rows twice <> rows once
  /\ copies "M1"
       (rows (snd ((messages_upsert Run.cfg env [mek] ;;
                    messages_upsert Run.cfg env [mek]) (Run.start [])))) = 2%nat.
Proof. vm_compute. repeat split; discriminate. Qed.

Lemma append_adds_a_row_witness :
  let env := Run.calm Run.clock in
  let mek := Run.text_message "M1" Run.alice "hello" in
  let w := snd (append env mek "hello" "conversation" None "9:00" (Run.start [])) in
  serial_ahead w
  /\ copies "M1" (rows w) = 1%nat
  /\ exists w',
       append env mek "hello" "conversation" None "9:01" w = (Ok true, w')
       /\ copies "M1" (rows w') = 2%nat
       /\ List.map row_id (rows w') = [1; 2]
       /\ serial_ahead w'.
Proof.
  cbv zeta.
  assert (Hahead : serial_ahead
                     (snd (append (Run.calm Run.clock)
                             (Run.text_message "M1" Run.alice "hello")
                             "hello" "conversation" None "9:00" (Run.start [])))).
  { unfold serial_ahead. vm_compute. repeat constructor. }
  split; [exact Hahead|]. split; [reflexivity|].
  destruct (append_adds_a_row (Run.calm Run.clock)
              (Run.text_message "M1" Run.alice "hello") "hello" "conversation" None "9:01"
              (snd (append (Run.calm Run.clock)
                      (Run.text_message "M1" Run.alice "hello")
                      "hello" "conversation" None "9:00" (Run.start []))))
    as (inserted & w' & Happ & Hcase).
  change (env_database _ _) with (@None string) in Hcase. cbv iota in Hcase.
  destruct Hcase as (-> & Hrows & _ & _ & _ & Hcopies & Hfresh & _).
  exists w'. split; [exact Happ|]. split; [exact Hcopies|].
  split; [rewrite Hrows; reflexivity|]. apply Hfresh, Hahead.
Defined.


(** C5: the replacement values are inserted as replacement templates.  A
    display name that contains [$&] brings the placeholder back, [$$]
    loses a dollar sign, a name that contains another placeholder has it
    replaced in place of the template's own; the reply that is sent shows
    it. *)
Theorem fill_expands_dollar_patterns :
  fill "Hi ${pushname}" "A$&B" "9477000111" "u" = "Hi A${pushname}B"
  /\ fill "Hi ${pushname}" "$$ Store" "9477000111" "u" = "Hi $ Store"
  /\ fill "${pushname} (${userid})" "${userid}" "9477000111" "u"
     = "9477000111 (${userid})"
  /\ sent (trace (snd (messages_upsert Run.cfg (Run.calm Run.clock)
                         [ {| key := {| remoteJid := Run.alice; id := "M1";
                                        participant := None; fromMe := false |};
                              message := Some (conversation "menu");
                              pushName := Some "A$&B" |} ]
                         (Run.start [Run.menu_rule]))))
     = [ Sent Run.alice (PText (Some "Hi A${pushname}B")) true true;
         Sent Run.alice (PText (Some "1. Pizza")) true true ].
Proof. vm_compute. repeat split; reflexivity. Qed.

Lemma pattern_is_authoritative_witness :
  let compiled := {| trigger := Some "bye"; pattern := Some "hello"; response := [] |} in
  let broken := {| trigger := Some "bye"; pattern := Some "b(ye"; response := [] |} in
  pattern compiled = Some "hello" /\ "hello" <> EmptyString
  /\ pattern broken = Some "b(ye" /\ "b(ye" <> EmptyString
  /\ isMatch compiled "good BYE" (Run.start []) = (Ok false, Run.start [])
  /\ exists line,
       isMatch broken "good BYE" (Run.start [])
       = (Ok true, with_event (Logged line) (Run.start [])).
Proof.
  cbv zeta. split; [reflexivity|]. split; [discriminate|].
  split; [reflexivity|]. split; [discriminate|]. split.
  - exact (pattern_is_authoritative
             {| trigger := Some "bye"; pattern := Some "hello"; response := [] |}
             "hello" "good BYE" (Run.start []) eq_refl ltac:(discriminate)).
  - destruct (pattern_is_authoritative
                {| trigger := Some "bye"; pattern := Some "b(ye"; response := [] |}
                "b(ye" "good BYE" (Run.start []) eq_refl ltac:(discriminate))
      as ((line & Hline) & _).
    exists line. exact Hline.
Defined.


(** The [DELETE] fails after two of the three rows are gone from the view
    of the transaction: the table still has its three rows and the
    transaction is rolled back.  With every statement answered, the table
    is empty. *)
Lemma clear_is_atomic_witness :
  let env := Run.calm Run.clock in
  let stored :=
    snd ((messages_upsert Run.cfg env [Run.text_message "M1" Run.alice "one"] ;;
          messages_upsert Run.cfg env [Run.text_message "M2" Run.alice "two"] ;;
          messages_upsert Run.cfg env [Run.text_message "M3" Run.alice "three"])
           (Run.start [])) in
  let failed := handleDelete (Run.flaky_database [(tick stored + 2)%nat] 2) true stored in
  let cleared := handleDelete (Run.flaky_database [] 0) true stored in
  List.length (rows stored) = 3%nat
  /\ fst failed = Ok DeleteError /\ rows (snd failed) = rows stored
  /\ txn (snd failed) = None
  /\ fst cleared = Ok Cleared /\ rows (snd cleared) = [] /\ txn (snd cleared) = None.
Proof.
  cbv zeta.
  set (stored :=
         snd ((messages_upsert Run.cfg (Run.calm Run.clock)
                 [Run.text_message "M1" Run.alice "one"] ;;
               messages_upsert Run.cfg (Run.calm Run.clock)
                 [Run.text_message "M2" Run.alice "two"] ;;
               messages_upsert Run.cfg (Run.calm Run.clock)
                 [Run.text_message "M3" Run.alice "three"]) (Run.start []))).
  split; [reflexivity|].
  destruct (clear_is_atomic (Run.flaky_database [(tick stored + 2)%nat] 2) stored)
    as (_ & _ & Hfail).
  destruct (Hfail 2%nat "connection lost") as (Hfst & Hrows & _ & Hrollback).
  { lia. }
  { reflexivity. }
  { intros j Hj. assert (j = 1%nat) as -> by lia. vm_compute. reflexivity. }
  { vm_compute. reflexivity. }
  change (env_database _ _) with (@None string) in Hrollback.
  destruct Hrollback as [Htxn _].
  split; [exact Hfst|]. split; [exact Hrows|]. split; [exact Htxn|].
  destruct (clear_is_atomic (Run.flaky_database [] 0) stored) as (Hok & _).
  destruct Hok as (Hfst' & Hrows' & Htxn' & _); try reflexivity.
  split; [exact Hfst'|]. split; [exact Hrows' | exact Htxn'].
Defined.

Lemma status_branch_needs_exact_trigger_witness :
  let env := Run.calm Run.clock in
  let mek := Run.text_message "M1" Run.alice "send it" in
  ("send" ∈ statusTriggers Run.cfg)
  /\ JS.includes "send it" "send" = true
  /\ ("send it" ∉ statusTriggers Run.cfg)
  /\ after_insert Run.cfg env mek (conversation "send it") "send it" (Run.start [])
     = (senderDpUrl <- read_and_profile Run.cfg env mek Run.alice ;;
        rules_then_commands Run.cfg env mek "send it" Run.alice "Alice" "9477000111"
          senderDpUrl) (Run.start []).
Proof.
  cbv zeta.
  assert (Hnot : "send it" ∉ statusTriggers Run.cfg).
  { apply (bool_decide_unpack _). vm_compute. exact I. }
  split; [apply (bool_decide_unpack _); vm_compute; exact I|].
  split; [reflexivity|]. split; [exact Hnot|].
  exact (proj2 (status_branch_needs_exact_trigger Run.cfg (Run.calm Run.clock)
                  (Run.text_message "M1" Run.alice "send it")
                  (conversation "send it") "send it" (Run.start [])) Hnot).
Defined.

(** "send" alone asks for a status; "send it" is answered by a rule. *)
Example status_trigger_runs :
  let run body :=
    sent (trace (snd (messages_upsert Run.cfg (Run.calm Run.clock)
                        [Run.text_message "M1" Run.alice body]
                        (Run.start [ {| trigger := Some "send"; pattern := None;
                                        response :=
                                          [ {| type := "text"; content := Some "Sending";
                                               caption := None; url := None;
                                               delay := None |} ] |} ])))) in
  run "send" = [Sent Run.alice (PText (Some "*Please Mention status*")) false true]
  /\ run "send it" = [Sent Run.alice (PText (Some "Sending")) true true].
Proof. vm_compute. split; reflexivity. Qed.



(** * The rest of the file *)

(** ** [withRetry] *)

Section Retry.
Context {engine : Engine} (cfg : Config) (env : Env).

Lemma conn_call_rejected (e : Event) (msg : string) (w : World) :
  env_transport env (tick w) = Some msg -> conn_call env e w = (Throw msg, bump w).
Proof. intros H. unfold conn_call, bind, ask. rewrite H. reflexivity. Qed.

Lemma conn_call_done (e : Event) (w : World) :
  env_transport env (tick w) = None -> conn_call env e w = (Ok tt, with_event e (bump w)).
Proof. intros H. unfold conn_call, bind, ask. rewrite H. reflexivity. Qed.

Lemma retry_unfold {A} (attempt more : nat) (operation : M A) :
  retry attempt more operation =
  try_catch operation
    (fun err =>
       match more with
       | S more' =>
           if JS.includes err "socket hang up" then
             console ("Attempt " +:+ pretty attempt +:+
                      " failed with socket hang up. Retrying after 1000ms...") ;;
             sleep 1000 ;;
             retry (S attempt) more' operation
           else throw err
       | O => throw err
       end).
Proof. destruct more; reflexivity. Qed.

Lemma trace_app_event (t : list Event) (a b : Event) (rest : list Event) :
  (t ++ [a]) ++ [b] ++ rest = t ++ a :: b :: rest.
Proof. rewrite <- app_assoc. reflexivity. Qed.

(** [k] hang-ups, then an answer: the call goes through at attempt [k + 1]. *)
Lemma retry_after_hang_ups (e : Event) (k attempt more : nat) (w : World) :
  (k <= more)%nat ->
  (forall i, (i < k)%nat -> env_transport env (tick w + i)%nat = Some "socket hang up") ->
  env_transport env (tick w + k)%nat = None ->
  exists w',
    retry attempt more (conn_call env e) w = (Ok tt, w')
    /\ tick w' = (tick w + k + 1)%nat
    /\ trace w' = trace w ++ backoff attempt k ++ [e]
    /\ rows w' = rows w /\ mediaCache w' = mediaCache w.
Proof.
  revert attempt more w. induction k as [|k IH]; intros attempt more w Hk Hhang Hok.
  - rewrite retry_unfold. unfold try_catch.
    rewrite Nat.add_0_r in Hok. rewrite (conn_call_done e w Hok).
    eexists. split; [reflexivity|]. simpl. repeat split; lia.
  - destruct more as [|more]; [lia|].
    rewrite retry_unfold. unfold try_catch.
    assert (H0 : env_transport env (tick w) = Some "socket hang up").
    { rewrite <- (Nat.add_0_r (tick w)). apply Hhang. lia. }
    rewrite (conn_call_rejected e _ w H0).
    change (JS.includes "socket hang up" "socket hang up") with true. cbv iota.
    unfold bind at 1 2, console, sleep, emit, update. cbn [fst snd].
    set (w1 := with_event (Slept 1000) (with_event _ (bump w))).
    destruct (IH (S attempt) more w1) as (w' & Hrun & Htick & Htrace & Hrows & Hcache).
    + lia.
    + intros i Hi. unfold w1. cbn [tick with_event bump].
      replace (S (tick w) + i)%nat with (tick w + S i)%nat by lia. apply Hhang. lia.
    + unfold w1. cbn [tick with_event bump].
      replace (S (tick w) + k)%nat with (tick w + S k)%nat by lia. exact Hok.
    + exists w'. split; [exact Hrun|]. unfold w1 in *. cbn [tick trace rows mediaCache with_event bump] in *.
      split; [lia|]. split; [|split; assumption].
      rewrite Htrace. simpl. rewrite <- !app_assoc. reflexivity.
Qed.

(** Nothing but hang-ups: the call is given up after [more + 1] attempts. *)
Lemma retry_gives_up (e : Event) (attempt more : nat) (w : World) :
  (forall i, (i <= more)%nat -> env_transport env (tick w + i)%nat = Some "socket hang up") ->
  exists w',
    retry attempt more (conn_call env e) w = (Throw "socket hang up", w')
    /\ tick w' = (tick w + more + 1)%nat
    /\ trace w' = trace w ++ backoff attempt more
    /\ rows w' = rows w /\ mediaCache w' = mediaCache w.
Proof.
  revert attempt w. induction more as [|more IH]; intros attempt w Hhang.
  - rewrite retry_unfold. unfold try_catch.
    assert (H0 : env_transport env (tick w) = Some "socket hang up").
    { rewrite <- (Nat.add_0_r (tick w)). apply Hhang. lia. }
    rewrite (conn_call_rejected e _ w H0).
    eexists. split; [reflexivity|]. simpl. rewrite app_nil_r. repeat split; lia.
  - rewrite retry_unfold. unfold try_catch.
    assert (H0 : env_transport env (tick w) = Some "socket hang up").
    { rewrite <- (Nat.add_0_r (tick w)). apply Hhang. lia. }
    rewrite (conn_call_rejected e _ w H0).
    change (JS.includes "socket hang up" "socket hang up") with true. cbv iota.
    unfold bind at 1 2, console, sleep, emit, update. cbn [fst snd].
    set (w1 := with_event (Slept 1000) (with_event _ (bump w))).
    destruct (IH (S attempt) w1) as (w' & Hrun & Htick & Htrace & Hrows & Hcache).
    + intros i Hi. unfold w1. cbn [tick with_event bump].
      replace (S (tick w) + i)%nat with (tick w + S i)%nat by lia. apply Hhang. lia.
    + exists w'. split; [exact Hrun|]. unfold w1 in *.
      cbn [tick trace rows mediaCache with_event bump] in *.
      split; [lia|]. split; [|split; assumption].
      rewrite Htrace. simpl. rewrite <- !app_assoc. reflexivity.
Qed.

(** X1: a transport call that hangs up at every attempt is tried
    [maxRetries] times, with a wait of one second after each attempt but
    the last, and then fails with the hang-up; its effect never happens. *)
Theorem withRetry_gives_up (e : Event) (w : World) :
  (forall i, (i < maxRetries cfg)%nat ->
             env_transport env (tick w + i)%nat = Some "socket hang up") ->
  exists w',
    withRetry cfg (conn_call env e) w = (Throw "socket hang up", w')
    /\ tick w' = (tick w + maxRetries cfg)%nat
    /\ trace w' = trace w ++ backoff 1 (maxRetries cfg - 1)
    /\ rows w' = rows w /\ mediaCache w' = mediaCache w.
Proof.
  intros Hhang.
  assert (Hpos : (1 <= maxRetries cfg)%nat).
  { unfold maxRetries. destruct (MAX_RETRIES cfg); lia. }
  destruct (retry_gives_up e 1 (maxRetries cfg - 1) w) as (w' & Hrun & Htick & Hrest).
  { intros i Hi. apply Hhang. lia. }
  exists w'. split; [exact Hrun|]. split; [lia | exact Hrest].
Qed.

(** X2: a transport call that hangs up [k] times, with [k] below
    [maxRetries], and is then answered, succeeds: it was tried [k + 1]
    times, waited one second after each hang-up, and had its effect
    once. *)
Theorem withRetry_recovers (e : Event) (k : nat) (w : World) :
  (k < maxRetries cfg)%nat ->
  (forall i, (i < k)%nat -> env_transport env (tick w + i)%nat = Some "socket hang up") ->
  env_transport env (tick w + k)%nat = None ->
  exists w',
    withRetry cfg (conn_call env e) w = (Ok tt, w')
    /\ tick w' = (tick w + k + 1)%nat
    /\ trace w' = trace w ++ backoff 1 k ++ [e]
    /\ rows w' = rows w /\ mediaCache w' = mediaCache w.
Proof.
  intros Hk Hhang Hok.
  apply (retry_after_hang_ups e k 1 (maxRetries cfg - 1) w); [lia | exact Hhang | exact Hok].
Qed.

(** X3: an operation that fails with anything but a hang-up is run once:
    [withRetry] rethrows the same error from the same state, without a
    wait. *)
Theorem withRetry_rethrows_other_errors {A} (operation : M A) (err : string)
    (w w' : World) :
  operation w = (Throw err, w') ->
  JS.includes err "socket hang up" = false ->
  withRetry cfg operation w = (Throw err, w').
Proof.
  intros Hop Herr. unfold withRetry. rewrite retry_unfold. unfold try_catch.
  rewrite Hop. destruct (maxRetries cfg - 1)%nat; [reflexivity|].
  rewrite Herr. reflexivity.
Qed.

End Retry.

(** ** [runtime] *)

(** X4: for a whole number of seconds from 0 to [Number.MAX_SAFE_INTEGER],
    the text of [runtime] is made of four numbers, with hours below 24,
    minutes and seconds below 60, that add up to the seconds given. *)
Theorem runtime_fields_decompose (seconds : Z) :
  0 <= seconds <= MAX_SAFE_INTEGER ->
  exists days hours minutes secs,
    runtime_fields seconds = Some (days, hours, minutes, secs)
    /\ runtime seconds
       = Some (pretty days +:+ "d " +:+ pretty hours +:+ "h " +:+
               pretty minutes +:+ "m " +:+ pretty secs +:+ "s")
    /\ 0 <= days /\ 0 <= hours < 24 /\ 0 <= minutes < 60 /\ 0 <= secs < 60
    /\ seconds = days * 86400 + hours * 3600 + minutes * 60 + secs.
Proof.
  intros Hs.
  assert (Hsafe : is_safe_integer seconds = true).
  { unfold is_safe_integer. apply andb_true_intro. split; apply Z.leb_le; [|lia].
    unfold MAX_SAFE_INTEGER in *. lia. }
  unfold runtime, runtime_fields. rewrite Hsafe.
  eexists _, _, _, _. split; [reflexivity|]. split; [reflexivity|].
  rewrite !Z.rem_mod_nonneg by lia.
  change (3600 * 24) with 86400.
  pose proof (Z.div_mod seconds 86400 ltac:(lia)) as Hd.
  pose proof (Z.mod_pos_bound seconds 86400 ltac:(lia)) as Hdb.
  pose proof (Z.div_mod seconds 3600 ltac:(lia)) as Hh.
  pose proof (Z.mod_pos_bound seconds 3600 ltac:(lia)) as Hhb.
  pose proof (Z.div_mod seconds 60 ltac:(lia)) as Hm.
  pose proof (Z.mod_pos_bound seconds 60 ltac:(lia)) as Hmb.
  pose proof (Z.div_mod (seconds mod 86400) 3600 ltac:(lia)) as Hdh.
  pose proof (Z.mod_pos_bound (seconds mod 86400) 3600 ltac:(lia)) as Hdhb.
  pose proof (Z.div_mod (seconds mod 3600) 60 ltac:(lia)) as Hhm.
  pose proof (Z.mod_pos_bound (seconds mod 3600) 60 ltac:(lia)) as Hhmb.
  assert (H1 : (seconds mod 86400) mod 3600 = seconds mod 3600).
  { apply Z.mod_mod_divide. exists 24. reflexivity. }
  assert (H2 : (seconds mod 3600) mod 60 = seconds mod 60).
  { apply Z.mod_mod_divide. exists 60. reflexivity. }
  assert (Hdays : 0 <= seconds / 86400) by (apply Z.div_pos; lia).
  assert (Hhours : 0 <= (seconds mod 86400) / 3600 < 24).
  { split; [apply Z.div_pos; lia|]. apply Z.div_lt_upper_bound; lia. }
  assert (Hmins : 0 <= (seconds mod 3600) / 60 < 60).
  { split; [apply Z.div_pos; lia|]. apply Z.div_lt_upper_bound; lia. }
  repeat split; try lia.
Qed.

(** ** What sends nothing, and what sends once *)

Section Quiet.
Context {engine : Engine} (cfg : Config) (env : Env).

Lemma quiet_ask {A} (g : Env -> nat -> A) : quiet (ask env g).
Proof. intros w. reflexivity. Qed.

Lemma quiet_emit (e : Event) : is_Sent e = false -> quiet (emit e).
Proof.
  intros He w. unfold emit, update. cbn [snd with_event trace].
  rewrite sent_app. unfold sent at 2. simpl. rewrite He. apply app_nil_r.
Qed.

Lemma quiet_console (line : string) : quiet (console line).
Proof. apply quiet_emit. reflexivity. Qed.

Lemma quiet_sleep (ms : Z) : quiet (sleep ms).
Proof. apply quiet_emit. reflexivity. Qed.

Lemma quiet_update (g : World -> World) :
  (forall w, trace (g w) = trace w) -> quiet (update g).
Proof. intros Hg w. unfold update. cbn [snd]. rewrite Hg. reflexivity. Qed.

Lemma quiet_retry {A} (attempt more : nat) (operation : M A) :
  quiet operation -> quiet (retry attempt more operation).
Proof.
  intros Hop. revert attempt. unfold quiet in *.
  induction more as [|more IH]; intros attempt; simpl; apply keeps_try_catch; auto.
  - intros e. apply keeps_throw.
  - intros e. destruct (JS.includes e _); [|apply keeps_throw].
    apply keeps_bind; [apply quiet_console|]. intros _.
    apply keeps_bind; [apply quiet_sleep|]. intros _. apply IH.
Qed.

Lemma quiet_pool_query {A} (statement : Z -> World -> A * World) :
  (forall now w, trace (snd (statement now w)) = trace w) ->
  quiet (pool_query env statement).
Proof.
  intros Hs w. unfold pool_query.
  destruct (env_database env (tick w)); [reflexivity|].
  specialize (Hs (env_sql_now env (tick w)) (bump w)).
  destruct (statement _ _) as [a w']. simpl in *. rewrite Hs. reflexivity.
Qed.

Lemma quiet_fetchMedia (source : option string) : quiet (fetchMedia cfg env source).
Proof.
  unfold quiet. apply keeps_try_catch.
  - destruct source as [src|]; [|apply keeps_throw].
    apply keeps_bind.
    + destruct (_ || _).
      * apply quiet_retry, keeps_bind; [apply quiet_ask|].
        intros [?|?]; [apply keeps_throw | apply keeps_ret].
      * apply keeps_bind; [apply quiet_ask|].
        intros [?|?]; [apply keeps_throw | apply keeps_ret].
    + intros b. apply keeps_bind; [apply quiet_console | intros _; apply keeps_ret].
  - intros e. apply keeps_bind; [apply quiet_console | intros _; apply keeps_ret].
Qed.

Lemma sends_conn_call (e : Event) :
  is_Sent e = true -> sends_on_success e (conn_call env e).
Proof.
  intros He w. unfold conn_call, bind, ask.
  destruct (env_transport env (tick w)); simpl; [reflexivity|].
  rewrite sent_app. unfold sent at 2. simpl. rewrite He. reflexivity.
Qed.

Lemma sends_retry {A} (e : Event) (attempt more : nat) (operation : M A) :
  sends_on_success e operation -> sends_on_success e (retry attempt more operation).
Proof.
  intros Hop. revert attempt.
  induction more as [|more IH]; intros attempt w; rewrite retry_unfold; unfold try_catch;
    specialize (Hop w); destruct (operation w) as [[a|err] w1]; try exact Hop.
  destruct (JS.includes err _); [|exact Hop].
  unfold bind at 1 2, console, sleep, emit, update. cbn [fst snd].
  set (w2 := with_event (Slept 1000) (with_event _ w1)).
  assert (H2 : sent (trace w2) = sent (trace w)).
  { unfold w2. cbn [trace with_event]. rewrite !sent_app. unfold sent at 2 3. simpl.
    rewrite !app_nil_r. exact Hop. }
  specialize (IH (S attempt) w2).
  destruct (retry (S attempt) more operation w2) as [[a|err'] w3]; rewrite IH, H2; reflexivity.
Qed.

Lemma sends_sendMessage (to : string) (p : Payload) (fw q : bool) :
  sends_on_success (Sent to p fw q) (withRetry cfg (sendMessage env to p fw q)).
Proof. apply sends_retry, sends_conn_call. reflexivity. Qed.

(** An operation that always throws makes [withRetry] throw. *)
Lemma retry_always_throws {A} (attempt more : nat) (operation : M A) (w : World) :
  (forall w0, exists e w1, operation w0 = (Throw e, w1)) ->
  exists e w', retry attempt more operation w = (Throw e, w').
Proof.
  intros Hop. revert attempt w.
  induction more as [|more IH]; intros attempt w; rewrite retry_unfold; unfold try_catch;
    destruct (Hop w) as (e & w1 & ->); [eauto|].
  destruct (JS.includes e _); [|eauto].
  unfold bind, console, sleep, emit, update. cbn [fst snd]. apply IH.
Qed.

End Quiet.

(** ** [fetchMedia] *)

Section FetchMedia.
Context {engine : Engine} (cfg : Config) (env : Env).

(** Every error of the fetch is caught. *)
Lemma fetchMedia_returns (source : option string) (w : World) :
  exists r w', fetchMedia cfg env source w = (Ok r, w').
Proof.
  unfold fetchMedia, try_catch.
  match goal with |- context [match ?c w with _ => _ end] => destruct (c w) as [[r|e] w1] end;
    eauto.
Qed.

(** X5: [fetchMedia] never throws: whatever the source and whatever the
    network and the disk answer, it returns the bytes or null, having sent
    nothing and changed neither the table nor the cache.  A missing source
    gives null; a source that is no http(s) URL is read from disk once, and
    a failed read gives null. *)
Theorem fetchMedia_never_throws (source : option string) (w : World) :
  exists r w',
    fetchMedia cfg env source w = (Ok r, w')
    /\ sent (trace w') = sent (trace w)
    /\ rows w' = rows w
    /\ mediaCache w' = mediaCache w
    /\ (source = None -> r = None)
    /\ (forall src, source = Some src ->
          JS.startsWith src "http://" || JS.startsWith src "https://" = false ->
          r = match env_read_file env (tick w) src with
              | inr bytes => Some bytes
              | inl _ => None
              end).
Proof.
  pose proof (quiet_fetchMedia cfg env source w) as Hq.
  pose proof (keeps_fetchMedia cfg env rows source w) as Hr.
  pose proof (keeps_fetchMedia cfg env mediaCache source w) as Hc.
  cbv beta in Hq.
  destruct (fetchMedia_returns source w) as (r & w' & Hrun). rewrite Hrun in Hq, Hr, Hc. cbn [snd] in *.
  exists r, w'. split; [exact Hrun|]. split; [exact Hq|]. split; [exact Hr|].
  split; [exact Hc|]. split.
  - intros ->. unfold fetchMedia, try_catch, throw, bind, console, emit, update, ret in Hrun.
    cbn in Hrun. congruence.
  - intros src -> Hlocal. unfold fetchMedia, try_catch in Hrun. rewrite Hlocal in Hrun.
    unfold bind at 1 2, ask in Hrun. cbn [fst snd] in Hrun.
    destruct (env_read_file env (tick w) src) as [msg|bytes];
      unfold throw, ret, bind, console, emit, update in Hrun; cbn in Hrun; congruence.
Qed.

(** A source that cannot be fetched by any means gives null. *)
Lemma fetchMedia_unavailable (source : option string) (w : World) :
  (forall src, source = Some src ->
     (forall n, exists e, env_http_get env n src = inl e)
     /\ (forall n, exists e, env_read_file env n src = inl e)) ->
  exists w', fetchMedia cfg env source w = (Ok None, w').
Proof.
  intros Hun. unfold fetchMedia, try_catch.
  destruct source as [src|].
  - destruct (Hun src eq_refl) as [Hget Hread].
    unfold bind at 1.
    destruct (_ || _).
    + destruct (retry_always_throws 1 (maxRetries cfg - 1)
                  (answer <- ask env (fun e n => env_http_get e n src) ;;
                   match answer with
                   | inl msg => throw msg
                   | inr b => ret b
                   end) w) as (e & w1 & Hthrow).
      { intros w0. unfold bind, ask. destruct (Hget (tick w0)) as (e & ->).
        eexists _, _. reflexivity. }
      unfold withRetry. rewrite Hthrow. eexists. reflexivity.
    + unfold bind, ask. destruct (Hread (tick w)) as (e & ->).
      eexists. reflexivity.
  - eexists. reflexivity.
Qed.

End FetchMedia.

(** ** Response items *)

Section Responses.
Context {engine : Engine} (cfg : Config) (env : Env).

(** X6: a media item (image, video or voice) whose source cannot be
    fetched is passed over: nothing is sent for it, no row changes, and the
    items after it are dispatched as they would be without it. *)
Theorem respond_skips_unfetched_media (mek : WebMessage) (pn uid dp : string)
    (item : ResponseItem) (rest : list ResponseItem) (w : World) :
  type item = "image" \/ type item = "video" \/ type item = "voice" ->
  (forall src, substitute (url item) pn uid dp = Some src ->
     (forall n, exists e, env_http_get env n src = inl e)
     /\ (forall n, exists e, env_read_file env n src = inl e)) ->
  exists w1,
    respond cfg env mek pn uid dp (item :: rest) w
    = respond cfg env mek pn uid dp rest w1
    /\ sent (trace w1) = sent (trace w)
    /\ rows w1 = rows w
    /\ mediaCache w1 = mediaCache w.
Proof.
  intros Htype Hun.
  assert (Hitem : exists w1, respond_item cfg env mek pn uid dp item w = (Ok tt, w1)
                             /\ sent (trace w1) = sent (trace w)).
  { unfold respond_item. unfold bind at 1.
    set (pause := match delay item with
                  | Some d => when (negb (d =? 0)) (sleep d)
                  | None => ret tt
                  end).
    assert (Hpause : exists w0, pause w = (Ok tt, w0) /\ sent (trace w0) = sent (trace w)).
    { unfold pause. destruct (delay item) as [d|]; [|eexists; split; reflexivity].
      destruct (d =? 0); simpl; [eexists; split; reflexivity|].
      eexists. split; [reflexivity|]. apply (quiet_sleep d w). }
    destruct Hpause as (w0 & -> & Hw0).
    destruct (fetchMedia_unavailable cfg env (substitute (url item) pn uid dp) w0 Hun)
      as (w1 & Hfetch).
    pose proof (quiet_fetchMedia cfg env (substitute (url item) pn uid dp) w0) as Hq.
    rewrite Hfetch in Hq. cbv beta in Hq. cbn [snd] in Hq.
    exists w1. split; [|congruence].
    destruct Htype as [-> | [-> | ->]]; cbn [String.eqb Ascii.eqb Bool.eqb];
      unfold bind; rewrite Hfetch; reflexivity. }
  destruct Hitem as (w1 & Hrun & Hsent).
  exists w1. split; [|split; [exact Hsent|]].
  - cbn [respond]. unfold bind at 1. rewrite Hrun. reflexivity.
  - pose proof (keeps_respond_item cfg env rows mek pn uid dp item w) as Hr.
    pose proof (keeps_respond_item cfg env mediaCache mek pn uid dp item w) as Hc.
    rewrite Hrun in Hr, Hc. split; assumption.
Qed.

(** Text items with a transport that answers. *)
Lemma respond_texts (mek : WebMessage) (pn uid dp : string)
    (items : list ResponseItem) (w : World) :
  (forall n, env_transport env n = None) ->
  Forall (fun item => type item = "text") items ->
  exists w',
    respond cfg env mek pn uid dp items w = (Ok tt, w')
    /\ trace w' = trace w ++ text_events (remoteJid (key mek)) pn uid dp items
    /\ rows w' = rows w.
Proof.
  intros Hnet Hitems. revert w.
  induction Hitems as [|item items Hitem _ IH]; intros w.
  - exists w. split; [reflexivity|]. split; [symmetry; apply app_nil_r | reflexivity].
  - cbn [respond]. unfold bind at 1.
    assert (Hrun : exists w1,
               respond_item cfg env mek pn uid dp item w = (Ok tt, w1)
               /\ trace w1 = trace w ++ text_events (remoteJid (key mek)) pn uid dp [item]
               /\ rows w1 = rows w).
    { unfold respond_item. rewrite Hitem. cbn [String.eqb Ascii.eqb Bool.eqb].
      unfold bind at 1.
      set (pause := match delay item with
                    | Some d => when (negb (d =? 0)) (sleep d)
                    | None => ret tt
                    end).
      assert (Hpause : exists w0,
                 pause w = (Ok tt, w0)
                 /\ trace w0 = trace w ++ match delay item with
                                          | Some d => if d =? 0 then [] else [Slept d]
                                          | None => []
                                          end
                 /\ rows w0 = rows w).
      { unfold pause. destruct (delay item) as [d|].
        - destruct (d =? 0); simpl; eexists; (split; [reflexivity|]);
            split; try reflexivity. symmetry; apply app_nil_r.
        - eexists. split; [reflexivity|]. split; [symmetry; apply app_nil_r | reflexivity]. }
      destruct Hpause as (w0 & -> & Ht0 & Hr0).
      destruct (retry_after_hang_ups env
                  (Sent (remoteJid (key mek))
                     (PText (substitute (content item) pn uid dp)) true true)
                  0 1 (maxRetries cfg - 1) w0) as (w1 & Hsend & _ & Ht1 & Hr1 & _).
      { lia. }
      { intros i Hi. lia. }
      { apply Hnet. }
      exists w1. split; [exact Hsend|]. split; [|congruence].
      rewrite Ht1, Ht0. unfold text_events. simpl. rewrite app_nil_r, <- app_assoc.
      reflexivity. }
    destruct Hrun as (w1 & -> & Ht1 & Hr1).
    destruct (IH w1) as (w' & Hrest & Ht' & Hr').
    exists w'. split; [exact Hrest|]. split; [|congruence].
    rewrite Ht', Ht1. unfold text_events. simpl. rewrite app_nil_r, <- !app_assoc.
    reflexivity.
Qed.

(** X7: with a transport that answers, a list of text items is dispatched
    strictly in order: for each item its wait, when it has one, then its
    text with the placeholders filled, quoting the message and marked as
    forwarded; nothing else enters the trace and no row changes. *)
Theorem respond_texts_in_order (mek : WebMessage) (pn uid dp : string)
    (items : list ResponseItem) (w : World) :
  (forall n, env_transport env n = None) ->
  Forall (fun item => type item = "text") items ->
  exists w',
    respond cfg env mek pn uid dp items w = (Ok tt, w')
    /\ trace w' = trace w ++ text_events (remoteJid (key mek)) pn uid dp items
    /\ rows w' = rows w.
Proof. exact (respond_texts mek pn uid dp items w). Qed.

End Responses.

(** ** The rule loop and the command table *)

Section RulesAndCommands.
Context {engine : Engine} (cfg : Config) (env : Env).

(** X8: when no rule of the list matches, the loop ends without an
    [UPDATE] and without a send: the world differs by the lines logged for
    patterns that do not compile, and by nothing else. *)
Theorem no_match_no_reply (mek : WebMessage) (text pn uid dp : string)
    (rules : list ReplyRule) (w : World) :
  Forall (fun r => rule_matches r text = false) rules ->
  exists lines,
    rule_loop cfg env mek text pn uid dp rules w = (Ok tt, logged lines w)
    /\ rows (logged lines w) = rows w
    /\ sent (trace (logged lines w)) = sent (trace w)
    /\ tick (logged lines w) = tick w.
Proof.
  intros Hnone.
  destruct (rule_loop_skips cfg env mek text pn uid dp rules [] w Hnone) as (lines & Hrun).
  rewrite app_nil_r in Hrun. exists lines. split; [exact Hrun|].
  split; [apply (logged_inert rows)|]. split; [apply sent_trace_logged | apply tick_logged].
Qed.

(** X9: after the status check, a text runs the rule loop or the command
    table, never both: a text that starts with a dot goes to the command
    table alone, any other text to the rule loop alone, and the rule loop
    is not run at all for an empty text, for a message of the bot itself,
    or when the sender or the conversation is the restricted number. *)
Theorem rules_or_commands (mek : WebMessage) (text sender pn uid dp : string) (w : World) :
  (JS.startsWith text "." = true ->
   rules_then_commands cfg env mek text sender pn uid dp w
   = command_dispatch cfg env mek text sender w)
  /\ (JS.startsWith text "." = false ->
      text = EmptyString \/ fromMe (key mek) = true
      \/ sender = restrictedNumber cfg \/ remoteJid (key mek) = restrictedNumber cfg ->
      rules_then_commands cfg env mek text sender pn uid dp w = (Ok tt, w))
  /\ (JS.startsWith text "." = false ->
      text <> EmptyString -> fromMe (key mek) = false ->
      sender <> restrictedNumber cfg -> remoteJid (key mek) <> restrictedNumber cfg ->
      forall rules, replyRules w = Some rules ->
      rules_then_commands cfg env mek text sender pn uid dp w
      = rule_loop cfg env mek text pn uid dp rules w).
Proof.
  unfold rules_then_commands. split; [|split].
  - intros Hdot. rewrite Hdot.
    destruct text as [|c r]; [discriminate|]. reflexivity.
  - intros Hdot Hwhy. rewrite Hdot, andb_false_r. cbn [negb].
    destruct Hwhy as [-> | [Hme | [Hs | Hr]]].
    + reflexivity.
    + rewrite Hme. cbn [negb]. rewrite !andb_false_r. reflexivity.
    + apply String.eqb_eq in Hs. rewrite Hs. cbn [negb].
      rewrite !andb_false_r. reflexivity.
    + apply String.eqb_eq in Hr. rewrite Hr. cbn [negb]. rewrite !andb_false_r.
      reflexivity.
  - intros Hdot Hne Hme Hs Hr rules Hrules. rewrite Hdot, Hme, andb_false_r.
    apply String.eqb_neq in Hs, Hr. rewrite Hs, Hr.
    destruct text as [|c r]; [contradiction|]. cbn [JS.truthy negb andb when].
    unfold bind at 1 2, read. rewrite Hrules. cbn [fst snd].
    destruct (rule_loop cfg env mek (String c r) pn uid dp rules w) as [[[]|e] w']; reflexivity.
Qed.

(** X10: while no rule list is loaded ([replyRules.rules] undefined), the
    handler of an eligible message throws at the loop, before any rule is
    tried: nothing is sent and nothing is written. *)
Theorem rule_loop_needs_rules (mek : WebMessage) (text sender pn uid dp : string)
    (w : World) :
  replyRules w = None ->
  JS.startsWith text "." = false -> text <> EmptyString -> fromMe (key mek) = false ->
  sender <> restrictedNumber cfg -> remoteJid (key mek) <> restrictedNumber cfg ->
  rules_then_commands cfg env mek text sender pn uid dp w
  = (Throw "replyRules.rules is not iterable", w).
Proof.
  intros Hrules Hdot Hne Hme Hs Hr. unfold rules_then_commands.
  rewrite Hdot, Hme. apply String.eqb_neq in Hs, Hr. rewrite Hs, Hr.
  destruct text as [|c r]; [contradiction|]. cbn [JS.truthy negb andb when].
  unfold bind at 1 2, read. rewrite Hrules. reflexivity.
Qed.

(** X11: a command from a sender whose number is not in the owner list
    changes nothing: whatever the text, the command table leaves the rows
    of the table, the rule list and the media cache as they were. *)
Theorem commands_of_strangers_change_nothing (mek : WebMessage) (text sender : string)
    (w : World) :
  JS.split_head "@" sender ∉ ownerNumber cfg ->
  let w' := snd (command_dispatch cfg env mek text sender w) in
  rows w' = rows w /\ replyRules w' = replyRules w /\ mediaCache w' = mediaCache w
  /\ txn w' = txn w.
Proof.
  intros Hstranger. cbv zeta.
  assert (H : forall B (f : World -> B), Inert f ->
                keeps f (command_dispatch cfg env mek text sender)).
  { intros B f Hf. unfold command_dispatch.
    rewrite (bool_decide_eq_false_2 _ Hstranger).
    destruct (JS.split " " text) as [|command args]; [apply keeps_ret|].
    repeat match goal with
           | |- keeps _ (if ?b then _ else _) => destruct b
           end;
      repeat first [ apply keeps_ret
                   | (apply keeps_sendMessage; exact _)
                   | (apply keeps_ask; exact _)
                   | (apply keeps_bind; [|intros ?]) ]. }
  repeat split; [apply (H _ rows) | apply (H _ replyRules) | apply (H _ mediaCache)
                 | apply (H _ txn)]; try exact _.
  split; reflexivity.
Qed.

End RulesAndCommands.

(** ** The [UPDATE] statements *)

Lemma update_where_compose (a b : string) (f g : Row -> Row) (t : list Row) :
  (forall r, message_id (g r) = message_id r) ->
  Sql.update_where a f (Sql.update_where b g t)
  = List.map (fun r =>
                let r' := if String.eqb (message_id r) b then g r else r in
                if String.eqb (message_id r) a then f r' else r') t.
Proof.
  intros Hg. unfold Sql.update_where. rewrite List.map_map. apply List.map_ext.
  intros r. cbv zeta. destruct (String.eqb (message_id r) b); [rewrite Hg|]; reflexivity.
Qed.

(** X12: the two [UPDATE] statements compose as follows.  Marking a
    message deleted twice keeps the later time and deleter; marks of
    different messages commute; the auto-reply flag is set once and for
    all; and the flag and the deletion mark do not disturb each other. *)
Theorem updates_compose (t : list Row) (n1 n2 : Z) (d1 d2 a b : string) :
  Sql.mark_deleted n2 d2 a (Sql.mark_deleted n1 d1 a t) = Sql.mark_deleted n2 d2 a t
  /\ (a <> b ->
      Sql.mark_deleted n1 d1 a (Sql.mark_deleted n2 d2 b t)
      = Sql.mark_deleted n2 d2 b (Sql.mark_deleted n1 d1 a t))
  /\ Sql.mark_auto_reply a (Sql.mark_auto_reply a t) = Sql.mark_auto_reply a t
  /\ Sql.mark_auto_reply a (Sql.mark_deleted n1 d1 b t)
     = Sql.mark_deleted n1 d1 b (Sql.mark_auto_reply a t).
Proof.
  unfold Sql.mark_deleted, Sql.mark_auto_reply.
  split; [|split; [|split]]; try intros Hab;
    rewrite !update_where_compose by reflexivity;
    try (unfold Sql.update_where); apply List.map_ext; intros r; cbv zeta.
  - destruct (String.eqb (message_id r) a); reflexivity.
  - destruct (String.eqb (message_id r) a) eqn:Ea, (String.eqb (message_id r) b) eqn:Eb;
      try reflexivity.
    apply String.eqb_eq in Ea, Eb. congruence.
  - destruct (String.eqb (message_id r) a); reflexivity.
  - destruct (String.eqb (message_id r) a), (String.eqb (message_id r) b); reflexivity.
Qed.

(** ** [handleDeletedMessage] *)

Section Deletion.
Context {engine : Engine} (cfg : Config) (env : Env).

Lemma keeps_recover_from_cache {B} (f : World -> B) `{!Inert f}
    (deleter time : string) (row : Row) (cached : CacheEntry) :
  keeps f (recover_from_cache cfg env deleter time row cached).
Proof.
  unfold recover_from_cache.
  apply keeps_bind; [apply keeps_sendMessage; exact _|]. intros _.
  apply keeps_sendMessage; exact _.
Qed.

Lemma keeps_recover_as_text {B} (f : World -> B) `{!Inert f}
    (deleter time : string) (row : Row) :
  keeps f (recover_as_text cfg env deleter time row).
Proof.
  unfold recover_as_text. apply keeps_bind.
  - destruct (is_media_type _); [|apply keeps_ret].
    destruct (message_text row) as [stored|]; [|apply keeps_throw].
    destruct (JSON.parse stored); [apply keeps_ret | apply keeps_throw].
  - intros text. apply keeps_bind; [apply keeps_sendMessage; exact _|]. intros _.
    apply keeps_sendMessage; exact _.
Qed.

(** What follows the [UPDATE] in [handleDeletedMessage]. *)
Lemma keeps_after_mark {B} (f : World -> B) `{!Inert f} (k : MessageKey) (deleter : string) :
  keeps f
    (found <- selectMessage env (id k) ;;
     match found with
     | [] => ret tt
     | originalMessage :: _ =>
         date <- ask env env_date_now ;;
         cachedMedia <- read (fun w => mediaCache w !! id k) ;;
         match cachedMedia, is_media_type (message_type originalMessage) with
         | Some cached, true =>
             recover_from_cache cfg env deleter (toLocaleString date) originalMessage cached
         | _, _ => recover_as_text cfg env deleter (toLocaleString date) originalMessage
         end
     end).
Proof.
  apply keeps_bind.
  - apply keeps_pool_query; [exact _ | reflexivity].
  - intros [|row rest]; [apply keeps_ret|].
    apply keeps_bind; [apply keeps_ask; exact _|]. intros date.
    apply keeps_bind; [apply keeps_read|]. intros [cached|].
    + destruct (is_media_type _);
        [apply keeps_recover_from_cache | apply keeps_recover_as_text]; exact _.
    + apply keeps_recover_as_text; exact _.
Qed.

(** The handler catches every error, and its one write is the mark. *)
Lemma handleDeletedMessage_marks (k : MessageKey) (w : World) :
  exists w',
    handleDeletedMessage cfg env k w = (Ok tt, w')
    /\ mediaCache w' = mediaCache w /\ replyRules w' = replyRules w
    /\ (rows w' = rows w
        \/ rows w' = Sql.mark_deleted (env_sql_now env (tick w))
                       (JS.or_else (participant k) (remoteJid k)) (id k) (rows w)).
Proof.
  unfold handleDeletedMessage, try_catch. unfold bind at 1.
  unfold markDeleted at 1, pool_query at 1.
  destruct (env_database env (tick w)) as [msg|].
  - eexists. split; [reflexivity|]. cbn. auto.
  - cbn [fst snd].
    set (w1 := with_rows _ (bump w)).
    match goal with
    | |- context [match ?c w1 with _ => _ end] => set (rest := c)
    end.
    assert (Hr : keeps rows rest)
      by apply (keeps_after_mark rows k (JS.or_else (participant k) (remoteJid k))).
    assert (Hc : keeps mediaCache rest)
      by apply (keeps_after_mark mediaCache k (JS.or_else (participant k) (remoteJid k))).
    assert (Hu : keeps replyRules rest)
      by apply (keeps_after_mark replyRules k (JS.or_else (participant k) (remoteJid k))).
    specialize (Hr w1). specialize (Hc w1). specialize (Hu w1).
    destruct (rest w1) as [[[]|e] w2]; cbn [snd] in Hr, Hc, Hu.
    + exists w2. split; [reflexivity|]. rewrite Hc, Hu, Hr. unfold w1. cbn. auto.
    + eexists. split; [reflexivity|]. cbn [mediaCache replyRules rows with_event].
      rewrite Hc, Hu, Hr. unfold w1. cbn. auto.
Qed.

(** X13: [handleDeletedMessage] never throws, whatever the database and
    the transport do.  It does not consume the cache entry (the cache is
    left as it was), it leaves the rule list, and it writes the table at
    most by the one [UPDATE] that marks the rows of the deleted message:
    no row is added or removed. *)
Theorem handleDeletedMessage_is_contained (k : MessageKey) (w : World) :
  exists w',
    handleDeletedMessage cfg env k w = (Ok tt, w')
    /\ mediaCache w' = mediaCache w
    /\ replyRules w' = replyRules w
    /\ (rows w' = rows w
        \/ rows w' = Sql.mark_deleted (env_sql_now env (tick w))
                       (JS.or_else (participant k) (remoteJid k)) (id k) (rows w))
    /\ List.map message_id (rows w') = List.map message_id (rows w).
Proof.
  destruct (handleDeletedMessage_marks k w) as (w' & Hrun & Hc & Hu & Hr).
  exists w'. split; [exact Hrun|]. split; [exact Hc|]. split; [exact Hu|].
  split; [exact Hr|].
  destruct Hr as [-> | ->]; [reflexivity|].
  unfold Sql.mark_deleted, Sql.update_where. rewrite List.map_map.
  apply List.map_ext. intros r. destruct (String.eqb _ _); reflexivity.
Qed.

(** A mark leaves the rows of the other messages as they are. *)
Lemma select_mark_deleted_other (now : Z) (deleter mid other : string) (t : list Row) :
  other <> mid ->
  Sql.select_by_message_id other (Sql.mark_deleted now deleter mid t)
  = Sql.select_by_message_id other t.
Proof.
  intros Hne. unfold Sql.mark_deleted, Sql.update_where, Sql.select_by_message_id.
  induction t as [|r t IH]; simpl; [reflexivity|].
  destruct (String.eqb (message_id r) mid) eqn:Hmid.
  - apply String.eqb_eq in Hmid. simpl. rewrite Hmid.
    destruct (String.eqb mid other) eqn:Hother.
    + apply String.eqb_eq in Hother. congruence.
    + exact IH.
  - destruct (String.eqb (message_id r) other); [f_equal|]; exact IH.
Qed.

(** X14: the handler of message updates never throws.  It acts on the
    updates that report a removal and on no other: a batch without a
    removal leaves the world as it is, and after any batch the rows of
    every message that was not reported removed are what they were, the
    cache is untouched and no row was added or dropped. *)
Theorem messages_update_marks_removed_only (updates : list (MessageKey * bool))
    (w : World) :
  exists w',
    messages_update cfg env updates w = (Ok tt, w')
    /\ mediaCache w' = mediaCache w
    /\ List.map message_id (rows w') = List.map message_id (rows w)
    /\ (Forall (fun u => snd u = false) updates -> w' = w)
    /\ (forall mid, (forall k, (k, true) ∈ updates -> id k <> mid) ->
          Sql.select_by_message_id mid (rows w') = Sql.select_by_message_id mid (rows w)).
Proof.
  revert w. induction updates as [|[k removed] rest IH]; intros w.
  - exists w. repeat split; reflexivity.
  - cbn [messages_update]. unfold bind at 1. destruct removed; cbn [when].
    + destruct (handleDeletedMessage_marks k w) as (w1 & Hrun & Hc & _ & Hr).
      rewrite Hrun.
      destruct (IH w1) as (w' & Hrest & Hc' & Hids & _ & Hsel).
      exists w'. split; [exact Hrest|]. split; [congruence|]. split.
      { rewrite Hids. destruct Hr as [-> | ->]; [reflexivity|].
        unfold Sql.mark_deleted, Sql.update_where. rewrite List.map_map.
        apply List.map_ext. intros r. destruct (String.eqb _ _); reflexivity. }
      split.
      { intros Hnone. apply Forall_cons in Hnone as [Hnone _]. discriminate Hnone. }
      intros mid Hmid. rewrite Hsel.
      * destruct Hr as [-> | ->]; [reflexivity|].
        apply select_mark_deleted_other. intros ->.
        apply (Hmid k); [left | reflexivity].
      * intros k' Hk'. apply Hmid. right. exact Hk'.
    + unfold ret at 1.
      destruct (IH w) as (w' & Hrest & Hc' & Hids & Hnone & Hsel).
      exists w'. split; [exact Hrest|]. split; [exact Hc'|]. split; [exact Hids|].
      split.
      { intros Hall. apply Forall_cons in Hall as [_ Hall]. apply Hnone, Hall. }
      intros mid Hmid. apply Hsel. intros k' Hk'. apply Hmid. right. exact Hk'.
Qed.

End Deletion.

Section CachedRecovery.
Context {engine : Engine} (cfg : Config) (env : Env).

Lemma send_goes_through (to : string) (p : Payload) (fw q : bool) (w : World) :
  (forall n, env_transport env n = None) ->
  withRetry cfg (sendMessage env to p fw q) w
  = (Ok tt, with_event (Sent to p fw q) (bump w)).
Proof.
  intros Hnet. unfold withRetry, sendMessage. rewrite retry_unfold. unfold try_catch.
  rewrite (conn_call_done env _ w (Hnet (tick w))). reflexivity.
Qed.

(** X15: a deleted media message whose bytes are still in the cache is
    sent back to the deleter, not to the conversation: as the hosted image
    when the row has an [image_url], otherwise from the cached bytes with
    their caption and mimetype; the alert with the caption follows.  The
    stored text is not parsed on this path. *)
Theorem cached_media_is_sent_to_the_deleter (k : MessageKey) (row : Row)
    (others : list Row) (cached : CacheEntry) (w : World) :
  (forall n, env_transport env n = None) ->
  env_database env (tick w) = None ->
  env_database env (S (tick w)) = None ->
  mediaCache w !! id k = Some cached ->
  Sql.select_by_message_id (id k) (rows w) = row :: others ->
  is_media_type (message_type row) = true ->
  let deleterJid := JS.or_else (participant k) (remoteJid k) in
  let time := toLocaleString (env_date_now env (S (S (tick w)))) in
  let media :=
    if bool_decide (message_type row = Some "imageMessage") && JS.truthy (image_url row)
    then PImageUrl (JS.or_else (image_url row) EmptyString) (c_caption cached)
    else PMedia (JS.show (message_type row)) (c_buffer cached) (c_caption cached)
           (c_mimetype cached) in
  exists w',
    handleDeletedMessage cfg env k w = (Ok tt, w')
    /\ trace w'
       = trace w ++
         [ Sent deleterJid media false false;
           Sent deleterJid
             (PAlert (alert_header (sender_jid row) deleterJid time +:+
                      "📝 *Caption:* " +:+
                      JS.or_else (Some (c_caption cached)) "No caption" +:+
                      nl +:+ alert_footer)
                (message_text row)) false false ]
    /\ mediaCache w' !! id k = Some cached.
Proof.
  intros Hnet H0 H1 Hcache Hsel Hmedia. cbv zeta.
  unfold handleDeletedMessage, markDeleted, selectMessage, pool_query, try_catch at 1,
    bind at 1 2 3 4.
  rewrite H0. cbn [tick bump with_rows rows]. rewrite H1.
  cbn [rows with_rows bump fst snd]. unfold Sql.mark_deleted at 1.
  rewrite select_update_where by reflexivity. rewrite Hsel. cbn [List.map].
  unfold ask, read. cbn [tick bump with_rows mediaCache fst snd]. rewrite Hcache.
  change (message_type (Sql.set_deleted _ _ row)) with (message_type row).
  rewrite Hmedia. unfold recover_from_cache, bind.
  rewrite !send_goes_through by exact Hnet.
  eexists. split; [reflexivity|]. cbn [trace mediaCache with_event bump].
  split; [|exact Hcache]. rewrite <- app_assoc. reflexivity.
Qed.


End CachedRecovery.

(** ** The [messages.upsert] handler as a whole *)

Section Upsert.
Context {engine : Engine} (cfg : Config) (env : Env).

Lemma quiet_conn_call (e : Event) : is_Sent e = false -> quiet (conn_call env e).
Proof.
  intros He. unfold quiet. apply keeps_bind; [apply (quiet_ask env)|].
  intros [msg|]; [apply keeps_throw | apply quiet_emit, He].
Qed.

Lemma keeps_retry_unsent {A B} (f : World -> B) (attempt more : nat) (operation : M A) :
  (forall e, is_Sent e = false -> keeps f (emit e)) ->
  keeps f operation -> keeps f (retry attempt more operation).
Proof.
  intros Hemit Hop. revert attempt.
  induction more as [|more IH]; intros attempt; rewrite retry_unfold;
    apply keeps_try_catch; try exact Hop; intros e; [apply keeps_throw|].
  destruct (JS.includes e _); [|apply keeps_throw].
  apply keeps_bind; [apply Hemit; reflexivity|]. intros _.
  apply keeps_bind; [apply Hemit; reflexivity|]. intros _. apply IH.
Qed.

Lemma quiet_read_and_profile (mek : WebMessage) (sender : string) :
  quiet (read_and_profile cfg env mek sender).
Proof.
  unfold quiet, read_and_profile. apply keeps_bind.
  - apply keeps_when, keeps_bind.
    + apply quiet_retry, quiet_conn_call. reflexivity.
    + intros _. apply quiet_console.
  - intros _. apply keeps_try_catch.
    + apply keeps_bind; [apply (quiet_ask env)|].
      intros [msg|found]; [apply keeps_throw | apply keeps_ret].
    + intros e. apply keeps_bind; [apply quiet_console | intros _; apply keeps_ret].
Qed.

(** X17: the handler looks at the first message of a batch only, and it
    never throws on a batch that is not empty: every error of the
    processing is caught and logged.  A first message without content
    leaves the world as it is. *)
Theorem upsert_handles_the_first_message (mek : WebMessage) (others : list WebMessage)
    (w : World) :
  messages_upsert cfg env (mek :: others) w = messages_upsert cfg env [mek] w
  /\ (exists w', messages_upsert cfg env (mek :: others) w = (Ok tt, w'))
  /\ (message mek = None -> messages_upsert cfg env (mek :: others) w = (Ok tt, w)).
Proof.
  split; [reflexivity|]. unfold messages_upsert. split.
  - destruct (message mek) as [original|]; [|eexists; reflexivity].
    unfold try_catch. destruct (upsert_body cfg env mek original w) as [[[]|e] w1];
      eexists; reflexivity.
  - intros ->. reflexivity.
Qed.

(** A call to the transport that is answered at once. *)
Lemma call_goes_through (e : Event) (w : World) :
  env_transport env (tick w) = None ->
  withRetry cfg (conn_call env e) w = (Ok tt, with_event e (bump w)).
Proof.
  intros Hnet. unfold withRetry. rewrite retry_unfold. unfold try_catch.
  rewrite (conn_call_done env _ w Hnet). reflexivity.
Qed.

(** X18: with [AUTO_STATUS_SEEN] set, a message of the status broadcast is
    not stored, not cached and not answered, whatever the transport does.
    With a transport that answers it is marked read, after the presence
    updates that are switched on, and that is all the handler does; when
    the read receipt is refused (by anything but a hang-up) the message is
    not marked read and the error is logged. *)
Theorem status_broadcast_is_not_stored (mek : WebMessage) (original : MessageContent)
    (w : World) :
  message mek = Some original ->
  remoteJid (key mek) = "status@broadcast" ->
  AUTO_STATUS_SEEN cfg = true ->
  exists w',
    messages_upsert cfg env [mek] w = (Ok tt, w')
    /\ rows w' = rows w
    /\ mediaCache w' = mediaCache w
    /\ sent (trace w') = sent (trace w)
    /\ ((forall n, env_transport env n = None) ->
        trace w'
        = trace w
          ++ (if AUTO_TYPING cfg then [Presence "composing" "status@broadcast"] else [])
          ++ (if AUTO_RECORDING cfg then [Presence "recording" "status@broadcast"] else [])
          ++ [MarkedRead "status@broadcast" (id (key mek))])
    /\ (forall msg,
          AUTO_TYPING cfg = false -> AUTO_RECORDING cfg = false ->
          env_transport env (tick w) = Some msg ->
          JS.includes msg "socket hang up" = false ->
          trace w' = trace w ++ [Logged ("Message processing error: " +:+ msg)]).
Proof.
  intros Hmsg Hjid Hseen.
  assert (Hok : exists w', messages_upsert cfg env [mek] w = (Ok tt, w')).
  { unfold messages_upsert. rewrite Hmsg. unfold try_catch.
    destruct (upsert_body cfg env mek original w) as [[[]|e] w1]; eexists; reflexivity. }
  destruct Hok as (w' & Hrun).
  exists w'. split; [exact Hrun|].
  assert (H : forall B (f : World -> B),
             (forall e, is_Sent e = false -> keeps f (emit e)) ->
             (forall A (g : Env -> nat -> A), keeps f (ask env g)) ->
             keeps f (messages_upsert cfg env [mek])).
  { intros B f Hemit Hask. unfold messages_upsert. rewrite Hmsg.
    assert (Hconn : forall e, is_Sent e = false -> keeps f (conn_call env e)).
    { intros e He. apply keeps_bind; [apply Hask|].
      intros [msg|]; [apply keeps_throw | apply Hemit, He]. }
    apply keeps_try_catch; [|intros e; apply Hemit; reflexivity].
    unfold upsert_body. rewrite Hjid, Hseen. cbn [String.eqb Ascii.eqb Bool.eqb andb].
    apply keeps_bind; [apply keeps_when, Hconn; reflexivity|]. intros _.
    apply keeps_bind; [apply keeps_when, Hconn; reflexivity|]. intros _.
    apply keeps_retry_unsent; [exact Hemit | apply Hconn; reflexivity]. }
  pose proof (H _ rows (fun e _ w0 => eq_refl) (fun _ _ w0 => eq_refl) w) as Hr.
  pose proof (H _ mediaCache (fun e _ w0 => eq_refl) (fun _ _ w0 => eq_refl) w) as Hc.
  pose proof (H _ (fun w0 => sent (trace w0)) (quiet_emit) (@quiet_ask env) w) as Hs.
  rewrite Hrun in Hr, Hc, Hs. cbn [snd] in Hr, Hc, Hs.
  split; [exact Hr|]. split; [exact Hc|]. split; [exact Hs|].
  unfold messages_upsert in Hrun. rewrite Hmsg in Hrun.
  unfold try_catch, upsert_body in Hrun. rewrite Hjid, Hseen in Hrun.
  cbn [String.eqb Ascii.eqb Bool.eqb andb] in Hrun.
  split.
  - intros Hnet. unfold bind at 1 in Hrun.
    assert (Hwhen : forall b e w0,
               when b (conn_call env e) w0
               = (Ok tt, if b then with_event e (bump w0) else w0)).
    { intros b e w0. destruct b; [|reflexivity].
      apply (conn_call_done env e w0 (Hnet _)). }
    rewrite Hwhen in Hrun. unfold bind at 1 in Hrun. rewrite Hwhen in Hrun.
    rewrite call_goes_through in Hrun by apply Hnet.
    injection Hrun as <-.
    destruct (AUTO_TYPING cfg), (AUTO_RECORDING cfg); cbn [trace with_event bump app];
      rewrite <- ?app_assoc; reflexivity.
  - intros msg Htyping Hrecording Hfail Hother.
    rewrite Htyping, Hrecording in Hrun. cbn [when] in Hrun.
    unfold bind at 1 2, ret at 1 2 in Hrun.
    unfold withRetry in Hrun. rewrite retry_unfold in Hrun. unfold try_catch in Hrun.
    rewrite (conn_call_rejected env _ msg w Hfail) in Hrun.
    destruct (maxRetries cfg - 1)%nat; [|rewrite Hother in Hrun];
      unfold throw, console, emit, update in Hrun; injection Hrun as <-; reflexivity.
Qed.

(** X19: a status trigger word sent as an extended text without context
    info gets no answer at all: the read of the quoted message throws, so
    the handler sends nothing after the insert and writes no row. *)
Theorem status_trigger_without_context (mek : WebMessage) (text body : string) (w : World) :
  text ∈ statusTriggers cfg -> text <> EmptyString ->
  exists e w',
    after_insert cfg env mek (extendedTextMessage body None) text w = (Throw e, w')
    /\ sent (trace w') = sent (trace w)
    /\ rows w' = rows w.
Proof.
  intros Hin Hne. unfold after_insert.
  rewrite (bool_decide_eq_true_2 _ Hin).
  destruct text as [|c r]; [contradiction|]. cbn [JS.truthy andb].
  set (sender := JS.or_else (participant (key mek)) (remoteJid (key mek))).
  pose proof (quiet_read_and_profile mek sender w) as Hq.
  pose proof (keeps_read_and_profile cfg env rows mek sender w) as Hr.
  cbv beta in Hq. unfold bind.
  destruct (read_and_profile cfg env mek sender w) as [[dp|e] w1]; cbn [snd] in Hq, Hr.
  - eexists _, w1. split; [reflexivity|]. auto.
  - eexists _, w1. split; [reflexivity|]. auto.
Qed.

(** X20: [handleDelete(false)] only reads.  It never throws and leaves
    the table as it is; when the database answers it returns exactly the
    rows that are marked deleted and have an image URL, in the order of
    the table, and with the deleter and the time recorded on each when
    the rows keep the invariant of the deletion mark. *)
Theorem deleted_images_are_listed (w : World) :
  exists r w',
    handleDelete env false w = (Ok r, w')
    /\ rows w' = rows w /\ txn w' = txn w
    /\ (env_database env (tick w) = None ->
        r = DeletedMessages (Sql.select_deleted_with_images (rows w)))
    /\ (forall msg, env_database env (tick w) = Some msg -> r = DeleteError)
    /\ (forall row, row ∈ Sql.select_deleted_with_images (rows w) <->
                    row ∈ rows w /\ is_deleted row = true /\ is_Some (image_url row))
    /\ (Forall deletion_recorded (rows w) ->
        Forall (fun row => is_Some (deleted_at row) /\ is_Some (deleted_by row))
          (Sql.select_deleted_with_images (rows w))).
Proof.
  assert (Hsel : forall row, row ∈ Sql.select_deleted_with_images (rows w) <->
                   row ∈ rows w /\ is_deleted row = true /\ is_Some (image_url row)).
  { intros row. unfold Sql.select_deleted_with_images.
    rewrite !list_elem_of_In, List.filter_In, andb_true_iff, bool_decide_eq_true.
    tauto. }
  assert (Hrec : Forall deletion_recorded (rows w) ->
                 Forall (fun row => is_Some (deleted_at row) /\ is_Some (deleted_by row))
                   (Sql.select_deleted_with_images (rows w))).
  { intros Hinv. apply Forall_forall. intros row Hrow.
    apply Hsel in Hrow as (Hin & Hd & _).
    rewrite Forall_forall in Hinv. apply (Hinv row Hin Hd). }
  unfold handleDelete, try_catch, bind at 1, pool_query.
  destruct (env_database env (tick w)) as [msg|]; run_m;
    eexists _, _; (split; [reflexivity|]); cbn [rows txn];
    (split; [reflexivity|]); (split; [reflexivity|]);
    (split; [first [reflexivity | discriminate]|]);
    (split; [intros msg'; first [reflexivity | discriminate]|]);
    (split; [exact Hsel | exact Hrec]).
Qed.

End Upsert.

(** ** The cache sweep *)

(** X21: sweeps compose: a sweep removes entries and adds none, a later
    sweep leaves what an earlier one followed by it would leave, and
    putting an entry grows the cache by at most one. *)
Theorem sweeps_compose (n1 n2 : Z) (mid : string) (e : CacheEntry)
    (c : gmap string CacheEntry) :
  evict n1 c ⊆ c
  /\ (n1 <= n2 -> evict n2 (evict n1 c) = evict n2 c)
  /\ (size (cache_put mid e n1 c) <= S (size c))%nat.
Proof.
  split; [apply map_filter_subseteq|]. split.
  - intros Hle. apply map_eq. intros k. apply option_eq. intros x.
    rewrite !evict_lookup. split; [tauto|]. intros [Hk Hage]. repeat split; auto. lia.
  - unfold cache_put.
    assert (H1 : (size (evict n1 (<[mid:=e]> c)) <= size (<[mid:=e]> c))%nat)
      by apply map_size_filter.
    assert (H2 : (size (<[mid:=e]> c) <= S (size c))%nat).
    { destruct (c !! mid) eqn:Hc.
      - rewrite map_size_insert_Some by eauto. lia.
      - rewrite map_size_insert_None by exact Hc. lia. }
    lia.
Qed.

(** ** Templates and the envelope *)

(** X22: a field of a response item that is absent, empty or without any
    of the three placeholders comes out of the substitution as it went in,
    whatever the name, the number and the picture URL are. *)
Theorem substitute_without_placeholder (field : option string) (pn uid dp : string) :
  (forall s, field = Some s ->
     JS.includes s "${pushname}" = false
     /\ JS.includes s "${userid}" = false
     /\ JS.includes s "${senderdpurl}" = false) ->
  substitute field pn uid dp = field.
Proof.
  intros Hfree. destruct field as [[|c r]|]; try reflexivity.
  destruct (Hfree _ eq_refl) as (H1 & H2 & H3). simpl.
  rewrite fill_without_placeholder by assumption. reflexivity.
Qed.

(** X23: the envelope stored for a media message can always be parsed
    back, whatever characters the caption and the mimetype contain
    (quotes, backslashes, control characters): the parse does not fail and
    gives the same caption and the same mimetype. *)
Theorem envelope_round_trip (caption : string) (mimetype : option string) :
  exists doc,
    JSON.parse (JSON.stringify_envelope caption mimetype) = Some doc
    /\ JSON.property "caption" doc = Some caption
    /\ JSON.property "mimetype" doc = mimetype.
Proof.
  rewrite parse_envelope. eexists. split; [reflexivity|].
  destruct mimetype; split; reflexivity.
Qed.

(** ** The group events *)

Section GroupFacts.
Context {engine : Engine} (cfg : Config) (env : Env).
Variable groupMetadata : nat -> string -> string + string.

Lemma notify_owners_prefix (owners : list string) (message : string) (w : World) :
  exists n r w',
    notify_owners cfg env owners message w = (r, w')
    /\ sent (trace w') = sent (trace w) ++ owner_notices (take n owners) message
    /\ rows w' = rows w /\ mediaCache w' = mediaCache w.
Proof.
  revert w. induction owners as [|owner owners IH]; intros w.
  - exists O, (Ok tt), w. split; [reflexivity|]. rewrite app_nil_r. auto.
  - cbn [notify_owners]. unfold bind at 1.
    pose proof (sends_sendMessage cfg env (owner +:+ "@s.whatsapp.net")
                  (PText (Some message)) false false w) as Hs.
    pose proof (keeps_sendMessage cfg env rows (owner +:+ "@s.whatsapp.net")
                  (PText (Some message)) false false w) as Hr.
    pose proof (keeps_sendMessage cfg env mediaCache (owner +:+ "@s.whatsapp.net")
                  (PText (Some message)) false false w) as Hc.
    destruct (withRetry cfg _ w) as [[[]|err] w1]; cbn [snd] in Hr, Hc.
    + unfold bind at 1, console, emit, update. cbn [fst snd].
      destruct (IH (with_event (Logged ("Sent group update to " +:+ owner +:+ ": " +:+ message)) w1))
        as (n & r & w' & Hrun & Hsent & Hrows & Hcache).
      exists (S n), r, w'. split; [exact Hrun|].
      cbn [trace with_event rows mediaCache] in Hsent, Hrows, Hcache.
      rewrite sent_logged in Hsent. rewrite Hsent, Hs. cbn [take owner_notices List.map].
      rewrite <- app_assoc. split; [reflexivity|]. split; congruence.
    + exists O, (Throw err), w1. split; [reflexivity|].
      rewrite Hs, app_nil_r. auto.
Qed.

Lemma notify_owners_all (owners : list string) (message : string) (w : World) :
  (forall n, env_transport env n = None) ->
  exists w',
    notify_owners cfg env owners message w = (Ok tt, w')
    /\ sent (trace w') = sent (trace w) ++ owner_notices owners message.
Proof.
  intros Hnet. revert w. induction owners as [|owner owners IH]; intros w.
  - exists w. split; [reflexivity|]. rewrite app_nil_r. reflexivity.
  - cbn [notify_owners]. unfold bind at 1.
    rewrite (send_goes_through cfg env _ _ _ _ w Hnet).
    unfold bind at 1, console, emit, update. cbn [fst snd].
    match goal with |- context [notify_owners cfg env owners message ?w0] =>
      destruct (IH w0) as (w' & Hrun & Hsent) end.
    exists w'. split; [exact Hrun|]. rewrite Hsent.
    cbn [trace with_event bump]. rewrite sent_logged, sent_app.
    cbn [owner_notices List.map]. rewrite <- app_assoc. reflexivity.
Qed.

Lemma quiet_groupMetadata (gid : string) :
  quiet (withRetry cfg (conn_groupMetadata groupMetadata gid)).
Proof.
  apply quiet_retry. intros w. unfold conn_groupMetadata.
  destruct (groupMetadata (tick w) gid); reflexivity.
Qed.

Lemma keeps_groupMetadata {B} (f : World -> B) `{!Inert f} (gid : string) :
  keeps f (withRetry cfg (conn_groupMetadata groupMetadata gid)).
Proof.
  apply keeps_withRetry; [exact _|]. intros w. unfold conn_groupMetadata.
  destruct (groupMetadata (tick w) gid); apply inert_bump.
Qed.

Lemma group_events_run (update : GroupUpdate) (w : World) :
  let known := ["add"; "remove"; "promote"; "demote"] in
  exists w',
    group_participants_update cfg env groupMetadata update w = (Ok tt, w')
    /\ rows w' = rows w
    /\ mediaCache w' = mediaCache w
    /\ (g_action update ∉ known -> sent (trace w') = sent (trace w))
    /\ match fst (withRetry cfg (conn_groupMetadata groupMetadata (g_id update)) w) with
       | Ok groupName =>
           exists n,
             sent (trace w')
             = sent (trace w)
               ++ owner_notices (take n (ownerNumber cfg))
                    (group_message (g_action update) (g_participants update) groupName)
       | Throw _ => sent (trace w') = sent (trace w)
       end
    /\ (forall groupName,
          (forall i, env_transport env i = None) ->
          groupMetadata (tick w) (g_id update) = inr groupName ->
          g_action update ∈ known ->
          sent (trace w')
          = sent (trace w)
            ++ owner_notices (ownerNumber cfg)
                 (group_message (g_action update) (g_participants update) groupName)).
Proof.
  cbv zeta.
  unfold group_participants_update, try_catch. unfold bind at 1.
  pose proof (quiet_groupMetadata (g_id update) w) as Hq.
  pose proof (keeps_groupMetadata rows (g_id update) w) as Hr.
  pose proof (keeps_groupMetadata mediaCache (g_id update) w) as Hc.
  cbv beta in Hq.
  assert (Hmeta : forall groupName,
             groupMetadata (tick w) (g_id update) = inr groupName ->
             withRetry cfg (conn_groupMetadata groupMetadata (g_id update)) w
             = (Ok groupName, bump w)).
  { intros groupName Hgm. unfold withRetry. rewrite retry_unfold. unfold try_catch.
    unfold conn_groupMetadata at 1. rewrite Hgm. reflexivity. }
  destruct (withRetry cfg (conn_groupMetadata groupMetadata (g_id update)) w)
    as [[groupName|err] w1]; cbn [fst snd] in *.
  - set (message := group_message (g_action update) (g_participants update) groupName).
    assert (Hunknown : g_action update ∉ ["add"; "remove"; "promote"; "demote"] ->
                       message = EmptyString).
    { intros Hnot. unfold message, group_message.
      repeat match goal with
             | |- context [String.eqb ?a ?b] =>
                 destruct (String.eqb_spec a b) as [Heq|_];
                 [exfalso; apply Hnot; rewrite Heq; set_solver|]
             end.
      reflexivity. }
    assert (Hknown : g_action update ∈ ["add"; "remove"; "promote"; "demote"] ->
                     message <> EmptyString).
    { intros Hin. unfold message, group_message.
      repeat match goal with
             | |- context [String.eqb ?a ?b] =>
                 destruct (String.eqb_spec a b) as [_|?]; [discriminate|]
             end.
      exfalso. apply list_elem_of_In in Hin. simpl in Hin. intuition congruence. }
    destruct message as [|c r] eqn:Hmessage.
    + cbn [JS.truthy when ret fst snd].
      exists w1. split; [reflexivity|]. split; [exact Hr|]. split; [exact Hc|].
      split; [intros _; exact Hq|]. split.
      * exists O. cbn [take owner_notices List.map]. rewrite app_nil_r. exact Hq.
      * intros name _ Hgm Hin. apply Hknown in Hin. contradiction.
    + cbn [JS.truthy when].
      destruct (notify_owners_prefix (ownerNumber cfg) (String c r) w1)
        as (n & res & w2 & Hrun & Hsent & Hrows & Hcache).
      rewrite Hrun.
      assert (Hfull : forall name,
                 (forall i, env_transport env i = None) ->
                 groupMetadata (tick w) (g_id update) = inr name ->
                 sent (trace w2)
                 = sent (trace w)
                   ++ owner_notices (ownerNumber cfg)
                        (group_message (g_action update) (g_participants update) name)).
      { intros name Hnet Hgm.
        specialize (Hmeta name Hgm). injection Hmeta as -> _.
        fold message. rewrite Hmessage.
        destruct (notify_owners_all (ownerNumber cfg) (String c r) w1 Hnet)
          as (w3 & Hall & Hs3).
        rewrite Hall in Hrun. injection Hrun as _ <-. rewrite Hs3, Hq. reflexivity. }
      destruct res as [[]|err]; eexists; (split; [reflexivity|]);
        cbn [fst snd trace rows mediaCache with_event]; rewrite ?sent_logged.
      * split; [congruence|]. split; [congruence|]. split.
        -- intros Hnot. apply Hunknown in Hnot. discriminate.
        -- split; [exists n; congruence|].
           intros name Hnet Hgm _. apply Hfull; assumption.
      * split; [congruence|]. split; [congruence|]. split.
        -- intros Hnot. apply Hunknown in Hnot. discriminate.
        -- split; [exists n; congruence|].
           intros name Hnet Hgm _. apply Hfull; assumption.
  - eexists. split; [reflexivity|].
    cbn [fst snd trace rows mediaCache with_event].
    rewrite sent_logged.
    split; [exact Hr|]. split; [exact Hc|].
    split; [intros _; exact Hq|]. split; [exact Hq|].
    intros name _ Hgm _. specialize (Hmeta name Hgm). discriminate Hmeta.
Qed.

(** X24: the handler of group events never throws and writes neither the
    table nor the cache.  It sends only the notice of the event, built
    with the subject that the group metadata gave, and only to owners: to
    the first [n] numbers of the owner list, in order, for some [n]; to
    none of them when the metadata cannot be had or the action is not one
    of add, remove, promote and demote; and to every owner when the
    transport answers, the metadata are there and the action is one of
    the four. *)
Theorem group_events_go_to_owners (update : GroupUpdate) (w : World) :
  let run := group_participants_update cfg env groupMetadata update w in
  let known := ["add"; "remove"; "promote"; "demote"] in
  fst run = Ok tt
  /\ rows (snd run) = rows w
  /\ mediaCache (snd run) = mediaCache w
  /\ (g_action update ∉ known -> sent (trace (snd run)) = sent (trace w))
  /\ match fst (withRetry cfg (conn_groupMetadata groupMetadata (g_id update)) w) with
     | Ok groupName =>
         exists n,
           sent (trace (snd run))
           = sent (trace w)
             ++ owner_notices (take n (ownerNumber cfg))
                  (group_message (g_action update) (g_participants update) groupName)
     | Throw _ => sent (trace (snd run)) = sent (trace w)
     end
  /\ (forall groupName,
        (forall i, env_transport env i = None) ->
        groupMetadata (tick w) (g_id update) = inr groupName ->
        g_action update ∈ known ->
        sent (trace (snd run))
        = sent (trace w)
          ++ owner_notices (ownerNumber cfg)
               (group_message (g_action update) (g_participants update) groupName)).
Proof.
  cbv zeta. destruct (group_events_run update w) as (w' & -> & H).
  split; [reflexivity | exact H].
Qed.

End GroupFacts.

(** ** The direct-send endpoint *)

Lemma digits_only_all_digits (s : string) : all_digits (digits_only s) = true.
Proof.
  induction s as [|c s IH]; simpl; [reflexivity|].
  destruct (is_digit c) eqn:Hc; simpl; [rewrite Hc|]; exact IH.
Qed.

Section SendMessageFacts.
Context {engine : Engine} (cfg : Config) (env : Env).
Variable connected : bool.
Variable decodeURIComponent : string -> option string.

(** X25: the endpoint writes neither the table nor the cache.  For a
    [number] that is a string (one value of the key) it never throws: it
    answers 200 only after one image message went out, to the JID made of
    the digits of [number], which are then 10 to 12 digits, with the
    decoded [message] as caption and on an established connection; with
    any other answer nothing was sent, and a request that is refused for
    its parameters, its number or the missing connection leaves the world
    as it is.  For a [number] that is an array or an object (the key given
    twice, or with brackets) and a [message] that is there, the handler
    throws before its [try], with the world as it is: no answer is given
    and nothing is sent. *)
Theorem send_message_validates (number message : option QueryValue) (w : World) :
  let run := send_message cfg env connected decodeURIComponent number message w in
  match number with
  | Some (QArray _ | QObject) =>
      if query_truthy message
      then run = (Throw "number.replace is not a function", w)
      else run = (Ok MissingParameter, w)
  | _ =>
      exists r w',
        run = (Ok r, w')
        /\ rows w' = rows w /\ mediaCache w' = mediaCache w
        /\ match r with
           | ImageSent phone =>
               exists text image caption,
                 number = Some (QString text)
                 /\ phone = digits_only text
                 /\ all_digits phone = true
                 /\ (10 <= String.length phone <= 12)%nat
                 /\ connected = true
                 /\ query_truthy message = true
                 /\ decodeURIComponent (query_show message) = Some caption
                 /\ sent (trace w')
                    = sent (trace w) ++
                      [Sent (phone +:+ "@s.whatsapp.net") (PImage image caption) true false]
           | MissingParameter | InvalidPhoneNumber | NotConnected => w' = w
           | ImageNotLoaded | SendFailed _ => sent (trace w') = sent (trace w)
           end
  end.
Proof.
  cbv zeta. unfold send_message.
  destruct number as [[text|items|]|]; cbn [query_truthy negb orb];
    try (destruct (query_truthy message); reflexivity);
    [|exists MissingParameter, w; auto].
  destruct (negb (JS.truthy (Some text)) || negb (query_truthy message)) eqn:Hparams;
    [exists MissingParameter, w; auto|].
  assert (Hmessage : query_truthy message = true).
  { apply orb_false_elim in Hparams as [_ Hm]. apply negb_false_iff, Hm. }
  destruct (phone_format (digits_only text)) eqn:Hphone; cbn [negb];
    [|exists InvalidPhoneNumber, w; auto].
  destruct connected eqn:Hconn; cbn [negb]; [|exists NotConnected, w; auto].
  set (phone := digits_only text) in *.
  assert (Hlen : (10 <= String.length phone <= 12)%nat).
  { unfold phone_format in Hphone. apply andb_prop in Hphone as [Hphone H12].
    apply andb_prop in Hphone as [_ H10].
    apply Nat.leb_le in H10, H12. lia. }
  unfold try_catch, bind at 1.
  destruct (fetchMedia_returns cfg env (Some "public/TADASHI.jpg") w)
    as (found & w1 & Hfetch).
  pose proof (quiet_fetchMedia cfg env (Some "public/TADASHI.jpg") w) as Hs1.
  pose proof (keeps_fetchMedia cfg env rows (Some "public/TADASHI.jpg") w) as Hr1.
  pose proof (keeps_fetchMedia cfg env mediaCache (Some "public/TADASHI.jpg") w) as Hc1.
  cbv beta in Hs1. rewrite Hfetch in Hs1, Hr1, Hc1 |- *. cbn [snd] in Hs1, Hr1, Hc1.
  destruct found as [image|]; [|exists ImageNotLoaded, w1; auto].
  unfold bind at 1.
  destruct (decodeURIComponent (query_show message)) as [caption|] eqn:Hdecode.
  - pose proof (sends_sendMessage cfg env (phone +:+ "@s.whatsapp.net")
                  (PImage image caption) true false w1) as Hs.
    pose proof (keeps_sendMessage cfg env rows (phone +:+ "@s.whatsapp.net")
                  (PImage image caption) true false w1) as Hr.
    pose proof (keeps_sendMessage cfg env mediaCache (phone +:+ "@s.whatsapp.net")
                  (PImage image caption) true false w1) as Hc.
    destruct (withRetry cfg _ w1) as [[[]|err] w2]; cbn [snd] in Hr, Hc.
    + eexists (ImageSent phone), _. split; [reflexivity|].
      cbn [rows mediaCache trace with_event]. split; [congruence|]. split; [congruence|].
      exists text, image, caption. split; [reflexivity|]. split; [reflexivity|].
      split; [apply digits_only_all_digits|]. split; [exact Hlen|].
      split; [reflexivity|]. split; [exact Hmessage|]. split; [reflexivity|].
      rewrite sent_logged, Hs, Hs1. reflexivity.
    + eexists (SendFailed err), _. split; [reflexivity|].
      cbn [rows mediaCache trace with_event]. split; [congruence|]. split; [congruence|].
      rewrite sent_logged, Hs, Hs1. reflexivity.
  - unfold withRetry. rewrite retry_unfold. unfold try_catch, throw at 1.
    destruct (maxRetries cfg - 1)%nat;
      [|change (JS.includes "URI malformed" "socket hang up") with false; cbv iota];
      eexists (SendFailed _), _; (split; [reflexivity|]);
      cbn [rows mediaCache trace with_event];
      (split; [congruence|]); (split; [congruence|]);
      rewrite sent_logged; exact Hs1.
Qed.

End SendMessageFacts.

(** ** The file extension of a download *)

#[local] Ltac other_signature :=
  right; right; split; [reflexivity|];
  split; intros [tail Htail]; discriminate Htail.

#[local] Ltac next_byte buffer :=
  destruct buffer as [|[] buffer]; try other_signature.

(** X26: [getExtension] reads the first four bytes and nothing else: the
    answer is png exactly for a buffer that begins with 89 50 4e 47, mp4
    exactly for one that begins with 00 00 00 18, and jpg for every other
    buffer, the short and the empty ones included. *)
Theorem getExtension_reads_the_signature (buffer : Buffer) :
  (exists rest, buffer = [Byte.x89; Byte.x50; Byte.x4e; Byte.x47] ++ rest
                /\ getExtension buffer = "png")
  \/ (exists rest, buffer = [Byte.x00; Byte.x00; Byte.x00; Byte.x18] ++ rest
                   /\ getExtension buffer = "mp4")
  \/ (getExtension buffer = "jpg"
      /\ ~ (exists rest, buffer = [Byte.x89; Byte.x50; Byte.x4e; Byte.x47] ++ rest)
      /\ ~ (exists rest, buffer = [Byte.x00; Byte.x00; Byte.x00; Byte.x18] ++ rest)).
Proof.
  next_byte buffer; next_byte buffer; next_byte buffer; next_byte buffer.
  - right; left. exists buffer. split; reflexivity.
  - left. exists buffer. split; reflexivity.
Qed.

(** ** The handler while the database is down *)

Section Outage.
Context {engine : Engine} (cfg : Config) (env : Env).
Context {B : Type} (f : World -> B).
Hypothesis f_bump : forall w, f (bump w) = f w.
Hypothesis f_event : forall e w, is_Sent e = false -> f (with_event e w) = f w.
Hypothesis f_cache : forall g w, f (with_mediaCache g w) = f w.
Hypothesis outage : forall n, is_Some (env_database env n).

Lemma unsent_ask {A} (g : Env -> nat -> A) : keeps f (ask env g).
Proof. intros w. apply f_bump. Qed.

Lemma unsent_emit (e : Event) : is_Sent e = false -> keeps f (emit e).
Proof. intros He w. apply f_event, He. Qed.

Lemma unsent_conn_call (e : Event) : is_Sent e = false -> keeps f (conn_call env e).
Proof.
  intros He. apply keeps_bind; [apply unsent_ask|].
  intros [msg|]; [apply keeps_throw | apply unsent_emit, He].
Qed.

Lemma unsent_normalize (mek : WebMessage) (content : MessageContent) :
  keeps f (normalize cfg env mek content).
Proof.
  assert (Hmedia : forall type caption mimetype,
             keeps f (normalize_media cfg env mek type caption mimetype)).
  { intros type caption mimetype. apply keeps_try_catch.
    - apply keeps_bind.
      { apply keeps_retry_unsent; [apply unsent_emit|].
        apply keeps_bind; [apply unsent_ask|].
        intros [msg|b]; [apply keeps_throw | apply keeps_ret]. }
      intros buffer. apply keeps_bind.
      { destruct (String.eqb _ _); [apply unsent_ask | apply keeps_ret]. }
      intros url. apply keeps_bind; [apply unsent_ask|]. intros stamp.
      apply keeps_bind; [intros w; apply f_cache|]. intros _.
      apply keeps_bind; [apply unsent_ask|]. intros now.
      apply keeps_bind; [intros w; apply f_cache|]. intros _. apply keeps_ret.
    - intros e. apply keeps_bind; [apply unsent_emit; reflexivity|].
      intros _. apply keeps_ret. }
  destruct content; try apply keeps_ret; apply Hmedia.
Qed.

(** The [INSERT] fails, so the handler returns from its [catch]. *)
Lemma append_during_outage (mek : WebMessage) (text type : string)
    (image : option string) (sl : string) (w : World) :
  exists msg,
    append env mek text type image sl w
    = (Ok false, with_event (Logged ("Database insert error: " +:+ msg)) (bump w)).
Proof.
  unfold append, try_catch, pool_query.
  destruct (outage (tick w)) as [msg ->]. exists msg. reflexivity.
Qed.

Lemma upsert_body_during_outage (mek : WebMessage) (original : MessageContent) :
  keeps f (upsert_body cfg env mek original).
Proof.
  unfold upsert_body.
  apply keeps_bind; [apply keeps_when, unsent_conn_call; reflexivity|]. intros _.
  apply keeps_bind; [apply keeps_when, unsent_conn_call; reflexivity|]. intros _.
  destruct (_ && _).
  - apply keeps_retry_unsent; [apply unsent_emit|]. apply unsent_conn_call. reflexivity.
  - apply keeps_bind; [apply unsent_normalize|]. intros [text url].
    apply keeps_bind; [apply unsent_ask|]. intros date w.
    unfold bind at 1.
    destruct (append_during_outage mek text (getContentType (unwrap original)) url
                (toLocaleString date) w) as [msg ->].
    cbn [snd ret]. rewrite f_event by reflexivity. apply f_bump.
Qed.

Lemma messages_upsert_during_outage (messages : list WebMessage) :
  keeps f (messages_upsert cfg env messages).
Proof.
  destruct messages as [|mek others]; [apply keeps_throw|].
  unfold messages_upsert. destruct (message mek) as [original|]; [|apply keeps_ret].
  apply keeps_try_catch; [apply upsert_body_during_outage|].
  intros e. apply unsent_emit. reflexivity.
Qed.

End Outage.

(** X27: while every statement on the database fails, the bot is silent:
    whatever message arrives, the handler returns after the failed
    [INSERT] (or before it), so nothing is sent, no rule and no command is
    run, and the table and the rule list stay as they were. *)
Theorem database_outage_silences_the_bot {engine : Engine} (cfg : Config) (env : Env)
    (messages : list WebMessage) (w : World) :
  (forall n, is_Some (env_database env n)) ->
  let w' := snd (messages_upsert cfg env messages w) in
  sent (trace w') = sent (trace w)
  /\ rows w' = rows w
  /\ replyRules w' = replyRules w.
Proof.
  intros Hdown. cbv zeta. split; [|split].
  - apply (messages_upsert_during_outage cfg env (fun w => sent (trace w)));
      try reflexivity; [|exact Hdown].
    intros e w0 He. cbn [trace with_event]. rewrite sent_app. unfold sent at 2.
    simpl. rewrite He. apply app_nil_r.
  - apply (messages_upsert_during_outage cfg env rows); try reflexivity; exact Hdown.
  - apply (messages_upsert_during_outage cfg env replyRules); try reflexivity; exact Hdown.
Qed.

(** * The cache, the rule loop and the recovery, end to end *)

(** ** The lifetime of a cache entry *)

Section CacheLifetime.
Context {engine : Engine} (cfg : Config) (env : Env).


End CacheLifetime.


(** ** The first rule that matches *)

Lemma trace_logged (lines : list string) (w : World) :
  trace (logged lines w) = trace w ++ List.map Logged lines.
Proof.
  revert w. induction lines as [|l lines IH]; intros w; simpl.
  - symmetry. apply app_nil_r.
  - rewrite IH. simpl. rewrite <- app_assoc. reflexivity.
Qed.

Section FirstMatch.
Context {engine : Engine} (cfg : Config) (env : Env).

(** What [isMatch] logs is the warning of the rule, and nothing else. *)
Lemma isMatch_warns (rule : ReplyRule) (text : string) (w : World) :
  isMatch rule text w = (Ok (rule_matches rule text), logged (regex_warning rule) w).
Proof.
  unfold isMatch, rule_matches, regex_warning, JS.truthy, JS.or_else, try_catch.
  destruct (pattern rule) as [[|c r]|]; try reflexivity.
  destruct (RegExp (String c r)); reflexivity.
Qed.

(** The rules before the first match are passed over with their warnings. *)
Lemma rule_loop_passes (mek : WebMessage) (text pn uid dp : string)
    (pre rest : list ReplyRule) (w : World) :
  Forall (fun r => rule_matches r text = false) pre ->
  rule_loop cfg env mek text pn uid dp (pre ++ rest) w
  = rule_loop cfg env mek text pn uid dp rest (logged (flat_map regex_warning pre) w).
Proof.
  intros Hpre. revert w. induction Hpre as [|r pre Hr _ IH]; intros w; [reflexivity|].
  simpl. unfold bind at 1. rewrite isMatch_warns, Hr, IH, logged_app. reflexivity.
Qed.

(** The loop stops at a rule that matches: what follows it is not read. *)
Lemma rule_loop_fires (mek : WebMessage) (text pn uid dp : string)
    (pre : list ReplyRule) (rule : ReplyRule) (post : list ReplyRule) (w : World) :
  Forall (fun r => rule_matches r text = false) pre ->
  rule_matches rule text = true ->
  rule_loop cfg env mek text pn uid dp (pre ++ rule :: post) w
  = fire cfg env mek pn uid dp rule (logged (flat_map regex_warning (pre ++ [rule])) w).
Proof.
  intros Hpre Hrule. rewrite rule_loop_passes by exact Hpre.
  simpl. unfold bind at 1. rewrite isMatch_warns, Hrule.
  rewrite flat_map_app, logged_app. simpl. rewrite app_nil_r. reflexivity.
Qed.

(** C2: when some rule of the list matches, the loop fires the first rule
    that matches and reads no rule after it: the rules before it and the
    rule itself are evaluated, each logging a warning when its pattern
    does not compile, and whatever rules follow, the run is the same.  One
    [UPDATE] then sets the flag of the message, before anything is sent,
    and the responses of that rule are dispatched and write no row; with a
    transport that answers, the text items of the rule go out in order,
    to the conversation, after the warnings and after the [UPDATE].  If
    the [UPDATE] fails nothing is sent. *)
Theorem first_match_wins (mek : WebMessage) (text pn uid dp : string)
    (rules : list ReplyRule) (w : World) :
  Exists (fun r => rule_matches r text = true) rules ->
  exists pre rule post,
    let lines := flat_map regex_warning (pre ++ [rule]) in
    let w1 := logged lines w in
    rules = pre ++ rule :: post
    /\ Forall (fun r => rule_matches r text = false) pre
    /\ rule_matches rule text = true
    /\ rule_loop cfg env mek text pn uid dp rules w
       = fire cfg env mek pn uid dp rule w1
    /\ (forall others,
          rule_loop cfg env mek text pn uid dp (pre ++ rule :: others) w
          = rule_loop cfg env mek text pn uid dp rules w)
    /\ trace w1 = trace w ++ List.map Logged lines
    /\ sent (trace w1) = sent (trace w)
    /\ match env_database env (tick w) with
       | None =>
           exists w2,
             markAutoReplied env (id (key mek)) w1 = (Ok tt, w2)
             /\ rows w2 = Sql.mark_auto_reply (id (key mek)) (rows w)
             /\ (forall r, r ∈ Sql.select_by_message_id (id (key mek)) (rows w2) ->
                   auto_reply_sent r = true)
             /\ trace w2 = trace w1
             /\ fire cfg env mek pn uid dp rule w1
                = respond cfg env mek pn uid dp (response rule) w2
             /\ rows (snd (respond cfg env mek pn uid dp (response rule) w2)) = rows w2
             /\ ((forall n, env_transport env n = None) ->
                 Forall (fun item => type item = "text") (response rule) ->
                 exists w3,
                   rule_loop cfg env mek text pn uid dp rules w = (Ok tt, w3)
                   /\ trace w3
                      = trace w ++ List.map Logged lines
                        ++ text_events (remoteJid (key mek)) pn uid dp (response rule)
                   /\ rows w3 = Sql.mark_auto_reply (id (key mek)) (rows w))
       | Some msg =>
           exists w2,
             fire cfg env mek pn uid dp rule w1 = (Throw msg, w2)
             /\ rows w2 = rows w
             /\ trace w2 = trace w1
       end.
Proof.
  intros Hex.
  destruct (first_match_split text rules Hex) as (pre & rule & post & -> & Hpre & Hrule).
  exists pre, rule, post. cbv zeta.
  set (lines := flat_map regex_warning (pre ++ [rule])).
  set (w1 := logged lines w).
  assert (Hfire : forall others,
             rule_loop cfg env mek text pn uid dp (pre ++ rule :: others) w
             = fire cfg env mek pn uid dp rule w1)
    by (intros others; apply rule_loop_fires; assumption).
  assert (Ht : tick w1 = tick w) by apply tick_logged.
  assert (Hr : rows w1 = rows w) by apply (logged_inert rows).
  split; [reflexivity|]. split; [exact Hpre|]. split; [exact Hrule|].
  split; [apply Hfire|]. split; [intros others; rewrite !Hfire; reflexivity|].
  split; [apply trace_logged|]. split; [apply sent_trace_logged|].
  rewrite Hfire.
  unfold fire, markAutoReplied, pool_query, bind. rewrite Ht.
  destruct (env_database env (tick w)) as [msg|].
  - eexists. split; [reflexivity|]. simpl. auto.
  - eexists. split; [reflexivity|].
    split; [cbn [rows with_rows bump]; rewrite Hr; reflexivity|].
    split; [intros r; cbn [rows with_rows bump]; apply mark_auto_reply_sets|].
    split; [reflexivity|]. split; [reflexivity|].
    split; [apply (keeps_respond cfg env rows)|].
    intros Hnet Htexts.
    destruct (respond_texts cfg env mek pn uid dp (response rule)
                (with_rows (Sql.mark_auto_reply (id (key mek))) (bump w1)) Hnet Htexts)
      as (w3 & Hrun & Htrace & Hrows).
    exists w3. split; [exact Hrun|]. split.
    + rewrite Htrace. cbn [trace with_rows bump]. unfold w1. rewrite trace_logged.
      rewrite <- app_assoc. reflexivity.
    + rewrite Hrows. cbn [rows with_rows bump]. rewrite Hr. reflexivity.
Qed.

End FirstMatch.

(** Two of the three rules match the text and the rule after the first
    match has a pattern that does not compile: the first match alone
    answers, after the flag of the message was set, and no warning about
    the later rule is logged. *)
Lemma first_match_wins_witness :
  let env := Run.calm Run.clock in
  let mek := Run.text_message "M1" Run.alice "show MENU please" in
  let broken := {| trigger := Some "show"; pattern := Some "(";
                   response := response Run.show_rule |} in
  let rules := [Run.bye_rule; Run.menu_rule; broken] in
  Exists (fun r => rule_matches r "show MENU please" = true) rules
  /\ rule_matches broken "show MENU please" = true
  /\ regex_warning broken <> []
  /\ exists w3,
       rule_loop Run.cfg env mek "show MENU please" "Alice" "9477000111" "u" rules
         (Run.start rules) = (Ok tt, w3)
       /\ trace w3 = [ Sent Run.alice (PText (Some "Hi Alice")) true true;
                       Slept 500;
                       Sent Run.alice (PText (Some "1. Pizza")) true true ]
       /\ rows w3 = Sql.mark_auto_reply "M1" [].
Proof.
  cbv zeta.
  set (broken := {| trigger := Some "show"; pattern := Some "(";
                    response := response Run.show_rule |}).
  assert (Hex : Exists (fun r => rule_matches r "show MENU please" = true)
                  [Run.bye_rule; Run.menu_rule; broken])
    by (apply Exists_cons_tl, Exists_cons_hd; reflexivity).
  split; [exact Hex|]. split; [reflexivity|]. split; [discriminate|].
  destruct (first_match_wins Run.cfg (Run.calm Run.clock)
              (Run.text_message "M1" Run.alice "show MENU please")
              "show MENU please" "Alice" "9477000111" "u"
              [Run.bye_rule; Run.menu_rule; broken]
              (Run.start [Run.bye_rule; Run.menu_rule; broken]) Hex)
    as (pre & rule & post & Hsplit & Hpre & Hrule & _ & _ & _ & _ & Hcase).
  assert (Hfirst : pre = [Run.bye_rule] /\ rule = Run.menu_rule).
  { destruct pre as [|r0 [|r1 [|r2 pre]]]; simpl in Hsplit.
    - injection Hsplit as <- _. discriminate Hrule.
    - injection Hsplit as <- <- _. split; reflexivity.
    - injection Hsplit as <- <- _. apply Forall_cons in Hpre as [_ Hpre].
      apply Forall_cons in Hpre as [Hmenu _]. discriminate Hmenu.
    - apply (f_equal (@List.length _)) in Hsplit. simpl in Hsplit.
      rewrite List.length_app in Hsplit. simpl in Hsplit. lia. }
  destruct Hfirst as [-> ->].
  change (env_database _ _) with (@None string) in Hcase.
  destruct Hcase as (w2 & _ & _ & _ & _ & _ & _ & Htexts).
  destruct Htexts as (w3 & Hrun & Htrace & Hrows).
  { intros n. reflexivity. }
  { repeat constructor. }
  exists w3. split; [exact Hrun|]. split; [|exact Hrows].
  rewrite Htrace. reflexivity.
Defined.

(** ** A media message whose download failed, and its deletion *)




Section FailedDownloadRecovery.
Context {engine : Engine} (cfg : Config) (env : Env).






End FailedDownloadRecovery.



(** ** The properties above on concrete runs *)

Lemma withRetry_gives_up_witness :
  exists w',
    withRetry Run.cfg (conn_call (Scenario.hanging 3) Scenario.ping) (Run.start [])
    = (Throw "socket hang up", w')
    /\ tick w' = 3%nat
    /\ trace w'
       = [ Logged "Attempt 1 failed with socket hang up. Retrying after 1000ms...";
           Slept 1000;
           Logged "Attempt 2 failed with socket hang up. Retrying after 1000ms...";
           Slept 1000 ].
Proof.
  destruct (withRetry_gives_up Run.cfg (Scenario.hanging 3) Scenario.ping (Run.start []))
    as (w' & Hrun & Htick & Htrace & _).
  - intros [|[|[|i]]] Hi; [reflexivity | reflexivity | reflexivity |
      change (maxRetries Run.cfg) with 3%nat in Hi; lia].
  - exists w'. split; [exact Hrun|]. split; [exact Htick|]. exact Htrace.
Defined.

Lemma withRetry_recovers_witness :
  exists w',
    withRetry Run.cfg (conn_call (Scenario.hanging 2) Scenario.ping) (Run.start [])
    = (Ok tt, w')
    /\ tick w' = 3%nat
    /\ sent (trace w') = [Scenario.ping].
Proof.
  destruct (withRetry_recovers Run.cfg (Scenario.hanging 2) Scenario.ping 2 (Run.start []))
    as (w' & Hrun & Htick & Htrace & _).
  - change (maxRetries Run.cfg) with 3%nat. lia.
  - intros [|[|i]] Hi; [reflexivity | reflexivity | lia].
  - reflexivity.
  - exists w'. split; [exact Hrun|]. split; [exact Htick|]. rewrite Htrace. reflexivity.
Defined.

Lemma withRetry_rethrows_other_errors_witness :
  withRetry Run.cfg (conn_call Scenario.closed Scenario.ping) (Run.start [])
  = (Throw "Connection Closed", bump (Run.start [])).
Proof.
  apply withRetry_rethrows_other_errors; reflexivity.
Defined.

Lemma runtime_fields_decompose_witness :
  runtime_fields 93784 = Some (1, 2, 3, 4)
  /\ runtime 93784 = Some "1d 2h 3m 4s"
  /\ exists days hours minutes secs,
       runtime_fields 93784 = Some (days, hours, minutes, secs)
       /\ 93784 = days * 86400 + hours * 3600 + minutes * 60 + secs.
Proof.
  split; [reflexivity|]. split; [reflexivity|].
  destruct (runtime_fields_decompose 93784) as (d & h & m & s & Hf & _ & _ & _ & _ & _ & Hsum).
  - unfold MAX_SAFE_INTEGER. lia.
  - exists d, h, m, s. split; [exact Hf | exact Hsum].
Defined.

Lemma respond_skips_unfetched_media_witness :
  let mek := Run.text_message "M1" Run.alice "menu" in
  exists w1,
    respond Run.cfg Scenario.no_media mek "Alice" "9477000111" EmptyString [Scenario.picture_item]
      (Run.start [])
    = respond Run.cfg Scenario.no_media mek "Alice" "9477000111" EmptyString [] w1
    /\ sent (trace w1) = [].
Proof.
  cbv zeta.
  destruct (respond_skips_unfetched_media Run.cfg Scenario.no_media
              (Run.text_message "M1" Run.alice "menu") "Alice" "9477000111" EmptyString
              Scenario.picture_item [] (Run.start []))
    as (w1 & Hrun & Hsent & _).
  - left. reflexivity.
  - intros src _. split; intros n; eexists; reflexivity.
  - exists w1. split; [exact Hrun | exact Hsent].
Defined.

Lemma respond_texts_in_order_witness :
  let mek := Run.text_message "M1" Run.alice "menu" in
  exists w',
    respond Run.cfg (Run.calm Run.clock) mek "Alice" "9477000111" EmptyString
      (response Run.menu_rule) (Run.start [])
    = (Ok tt, w')
    /\ trace w'
       = [ Sent Run.alice (PText (Some "Hi Alice")) true true;
           Slept 500;
           Sent Run.alice (PText (Some "1. Pizza")) true true ].
Proof.
  cbv zeta.
  destruct (respond_texts_in_order Run.cfg (Run.calm Run.clock)
              (Run.text_message "M1" Run.alice "menu") "Alice" "9477000111" EmptyString
              (response Run.menu_rule) (Run.start []))
    as (w' & Hrun & Htrace & _).
  - intros n. reflexivity.
  - repeat constructor.
  - exists w'. split; [exact Hrun|]. rewrite Htrace. vm_compute. reflexivity.
Defined.

Lemma no_match_no_reply_witness :
  let mek := Run.text_message "M1" Run.alice "menu" in
  exists lines,
    rule_loop Run.cfg (Run.calm Run.clock) mek "menu" "Alice" "9477000111" EmptyString
      [Run.show_rule; Run.bye_rule] (Run.start [])
    = (Ok tt, logged lines (Run.start []))
    /\ sent (trace (logged lines (Run.start []))) = [].
Proof.
  cbv zeta.
  destruct (no_match_no_reply Run.cfg (Run.calm Run.clock)
              (Run.text_message "M1" Run.alice "menu") "menu" "Alice" "9477000111" EmptyString
              [Run.show_rule; Run.bye_rule] (Run.start []))
    as (lines & Hrun & _ & Hsent & _).
  - repeat (constructor; [vm_compute; reflexivity|]). constructor.
  - exists lines. split; [exact Hrun | exact Hsent].
Defined.

Lemma rule_loop_needs_rules_witness :
  rules_then_commands Run.cfg (Run.calm Run.clock) (Run.text_message "M1" Run.alice "menu")
    "menu" Run.alice "Alice" "9477000111" EmptyString Scenario.unloaded
  = (Throw "replyRules.rules is not iterable", Scenario.unloaded).
Proof.
  apply rule_loop_needs_rules;
    try reflexivity; apply (bool_decide_unpack _); vm_compute; exact I.
Defined.

(** [.delete clear] on a table with one row: sent by an owner it empties the
    table, sent by anyone else it is refused and the row stays. *)
Lemma commands_of_strangers_change_nothing_witness :
  let env := Run.calm Run.clock in
  let owner := "94789958225@s.whatsapp.net" in
  let by_owner :=
    snd (command_dispatch Run.cfg env (Run.text_message "M9" owner ".delete clear")
           ".delete clear" owner Scenario.with_picture) in
  let by_stranger :=
    snd (command_dispatch Run.cfg env (Run.text_message "M9" Run.alice ".delete clear")
           ".delete clear" Run.alice Scenario.with_picture) in
  rows Scenario.with_picture = [Scenario.picture_row]
  /\ rows by_owner = []
  /\ sent (trace by_stranger)
     = [ Sent Run.alice (PText (Some "🚫 Only owners can use the .delete command."))
           false true ]
  /\ rows by_stranger = [Scenario.picture_row]
  /\ replyRules by_stranger = Some []
  /\ mediaCache by_stranger = mediaCache Scenario.with_picture
  /\ txn by_stranger = None.
Proof.
  cbv zeta. split; [reflexivity|]. split; [vm_compute; reflexivity|].
  split; [vm_compute; reflexivity|].
  apply (commands_of_strangers_change_nothing Run.cfg (Run.calm Run.clock)
           (Run.text_message "M9" Run.alice ".delete clear") ".delete clear" Run.alice
           Scenario.with_picture).
  apply (bool_decide_unpack _). vm_compute. exact I.
Defined.

Lemma cached_media_is_sent_to_the_deleter_witness :
  exists w' alert,
    handleDeletedMessage Run.cfg (Run.calm Run.clock)
      (key (Run.image_message "M1" Run.alice "hi")) Scenario.with_picture
    = (Ok tt, w')
    /\ trace w'
       = [ Sent Run.alice
             (PMedia "imageMessage" [Byte.xff; Byte.xd8; Byte.xff; Byte.xe0] "hi"
                (Some "image/jpeg")) false false;
           Sent Run.alice alert false false ]
    /\ mediaCache w' !! "M1" = Some Scenario.picture_entry.
Proof.
  destruct (cached_media_is_sent_to_the_deleter Run.cfg (Run.calm Run.clock)
              (key (Run.image_message "M1" Run.alice "hi")) Scenario.picture_row []
              Scenario.picture_entry Scenario.with_picture)
    as (w' & Hrun & Htrace & Hcache).
  - intros n. reflexivity.
  - reflexivity.
  - reflexivity.
  - vm_compute. reflexivity.
  - reflexivity.
  - reflexivity.
  - exists w'. eexists. split; [exact Hrun|]. split; [exact Htrace | exact Hcache].
Defined.


(** A status is marked read by a transport that answers, and only logged
    as an error by one whose connection is closed; no row either way. *)
Lemma status_broadcast_is_not_stored_witness :
  let mek := Run.text_message "S1" "status@broadcast" "hello" in
  (exists w',
     messages_upsert Scenario.watching (Run.calm Run.clock) [mek] (Run.start [])
     = (Ok tt, w')
     /\ rows w' = [] /\ mediaCache w' = ∅
     /\ trace w' = [MarkedRead "status@broadcast" "S1"])
  /\ (exists w',
        messages_upsert Scenario.watching Scenario.closed [mek] (Run.start [])
        = (Ok tt, w')
        /\ rows w' = []
        /\ trace w' = [Logged "Message processing error: Connection Closed"]).
Proof.
  cbv zeta. split.
  - destruct (status_broadcast_is_not_stored Scenario.watching (Run.calm Run.clock)
                (Run.text_message "S1" "status@broadcast" "hello") (conversation "hello")
                (Run.start [])) as (w' & Hrun & Hrows & Hcache & _ & Hread & _);
      try reflexivity.
    exists w'. split; [exact Hrun|]. split; [exact Hrows|]. split; [exact Hcache|].
    apply Hread. intros n. reflexivity.
  - destruct (status_broadcast_is_not_stored Scenario.watching Scenario.closed
                (Run.text_message "S1" "status@broadcast" "hello") (conversation "hello")
                (Run.start [])) as (w' & Hrun & Hrows & _ & _ & _ & Hrefused);
      try reflexivity.
    exists w'. split; [exact Hrun|]. split; [exact Hrows|].
    apply Hrefused; reflexivity.
Defined.

Lemma status_trigger_without_context_witness :
  let mek := Run.text_message "M1" Run.alice "send" in
  exists e w',
    after_insert Run.cfg (Run.calm Run.clock) mek (extendedTextMessage "send" None) "send"
      (Run.start [])
    = (Throw e, w')
    /\ sent (trace w') = [] /\ rows w' = [].
Proof.
  cbv zeta.
  apply (status_trigger_without_context Run.cfg (Run.calm Run.clock)
           (Run.text_message "M1" Run.alice "send") "send" "send" (Run.start [])).
  - apply (bool_decide_unpack _). vm_compute. exact I.
  - discriminate.
Defined.

Lemma substitute_without_placeholder_witness :
  substitute (Some "1. Pizza") "Alice" "9477000111" "https://example.org/a.jpg"
  = Some "1. Pizza".
Proof.
  apply substitute_without_placeholder.
  intros s [= <-]. repeat split; reflexivity.
Defined.

Lemma database_outage_silences_the_bot_witness :
  let w' := snd (messages_upsert Run.cfg Scenario.database_down
                   [Run.text_message "M1" Run.alice "menu"] (Run.start [Run.menu_rule])) in
  sent (trace w') = [] /\ rows w' = [] /\ replyRules w' = Some [Run.menu_rule].
Proof.
  apply (database_outage_silences_the_bot Run.cfg Scenario.database_down
           [Run.text_message "M1" Run.alice "menu"] (Run.start [Run.menu_rule])).
  intros n. eexists. reflexivity.
Defined.

Lemma group_events_go_to_owners_witness :
  sent (trace (snd (group_participants_update Run.cfg (Run.calm Run.clock)
                      Scenario.family Scenario.joined (Run.start []))))
  = [ Sent "94789958225@s.whatsapp.net"
        (PText (Some (group_message "add" [Run.alice] "Family"))) false false ]
  /\ group_message "add" [Run.alice] "Family" <> EmptyString.
Proof.
  destruct (group_events_go_to_owners Run.cfg (Run.calm Run.clock) Scenario.family
              Scenario.joined (Run.start [])) as (_ & _ & _ & _ & _ & Hall).
  split; [|discriminate].
  rewrite (Hall "Family"); [reflexivity | intros i; reflexivity | reflexivity |].
  apply (bool_decide_unpack _). vm_compute. exact I.
Defined.

(** [?number=...&number=...] makes the handler throw before it answers; a
    number written with a plus sign and spaces is reduced to its digits. *)
Lemma send_message_validates_witness :
  let send := send_message Run.cfg (Run.calm Run.clock) true Some in
  send (Some (QArray [QString "94770001111"; QString "94770001112"]))
    (Some (QString "hi")) (Run.start [])
  = (Throw "number.replace is not a function", Run.start [])
  /\ exists w',
       send (Some (QString "+94 77 000 1111")) (Some (QString "hi")) (Run.start [])
       = (Ok (ImageSent "94770001111"), w')
       /\ sent (trace w')
          = [Sent "94770001111@s.whatsapp.net" (PImage [] "hi") true false].
Proof.
  cbv zeta. split.
  - exact (send_message_validates Run.cfg (Run.calm Run.clock) true Some
             (Some (QArray [QString "94770001111"; QString "94770001112"]))
             (Some (QString "hi")) (Run.start [])).
  - eexists. split; vm_compute; reflexivity.
Defined.
